(** * transformer_from_scratch/model.py : a shallow embedding

    The encoder-decoder Transformer of [src/transformer_from_scratch/model.py]
    is embedded class by class: every [nn.Module] subclass of the source is a
    Rocq module holding the record of its attributes, its constructor
    ([init], the source's [__init__]) and its [forward].  The torch
    operations the source calls ([bmm], [expand], [masked_fill], [softmax],
    [cat], [F.linear], ...) are modelled in the module [torch], with their
    shape checks and their broadcasting.

    Numbers.  Tensor elements are modelled by extended real numbers: a finite
    element is a real (no rounding, no overflow, no underflow), and the three
    IEEE specials the code can produce ([-inf] written by [masked_fill], [nan]
    coming out of [softmax] on a column of [-inf], [+inf]) are kept with their
    IEEE arithmetic.  The sign of zero is not modelled.

    Tensors.  A tensor is its shape together with its elements by index.  The
    rank is part of the type: sequences are rank 3 (batch, position, feature),
    masks are rank 2 (batch, position) or absent ([None]).

    Effects.  A method runs in a state-and-exception monad whose state is the
    receiving object ([self], with every parameter it owns) together with the
    global random generator that [nn.Dropout] and the parameter
    initialisation draw from.  Exceptions are Python's. *)

From Stdlib Require Import Reals Lra Lia List ZArith Bool PeanoNat.
Import ListNotations.

Set Implicit Arguments.

(** ** Extended reals: the element type of a float tensor *)

Module Num.

Local Open Scope R_scope.

Inductive num : Type :=
| Fin (r : R)
| PInf
| NInf
| NaN.

Definition zero : num := Fin 0.
Definition one : num := Fin 1.

Definition is_fin (a : num) : Prop :=
  match a with Fin _ => True | _ => False end.

(** sign of a finite value, as a comparison with 0 *)
Definition Rsign (r : R) : comparison :=
  if Rlt_dec 0 r then Gt else if Rlt_dec r 0 then Lt else Eq.

Definition neg (a : num) : num :=
  match a with
  | Fin r => Fin (- r)
  | PInf => NInf
  | NInf => PInf
  | NaN => NaN
  end.

Definition add (a b : num) : num :=
  match a, b with
  | NaN, _ | _, NaN => NaN
  | Fin x, Fin y => Fin (x + y)
  | PInf, NInf | NInf, PInf => NaN
  | PInf, _ | _, PInf => PInf
  | NInf, _ | _, NInf => NInf
  end.

Definition sub (a b : num) : num := add a (neg b).

Definition mul (a b : num) : num :=
  match a, b with
  | NaN, _ | _, NaN => NaN
  | Fin x, Fin y => Fin (x * y)
  | Fin x, PInf | PInf, Fin x =>
      match Rsign x with Gt => PInf | Lt => NInf | Eq => NaN end
  | Fin x, NInf | NInf, Fin x =>
      match Rsign x with Gt => NInf | Lt => PInf | Eq => NaN end
  | PInf, PInf | NInf, NInf => PInf
  | PInf, NInf | NInf, PInf => NInf
  end.

Definition div (a b : num) : num :=
  match a, b with
  | NaN, _ | _, NaN => NaN
  | Fin x, Fin y =>
      if Req_dec_T y 0
      then match Rsign x with Gt => PInf | Lt => NInf | Eq => NaN end
      else Fin (x / y)
  | Fin _, PInf | Fin _, NInf => Fin 0
  | PInf, Fin y => if Rlt_dec y 0 then NInf else PInf
  | NInf, Fin y => if Rlt_dec y 0 then PInf else NInf
  | _, _ => NaN
  end.

Definition exp (a : num) : num :=
  match a with
  | Fin r => Fin (Rtrigo_def.exp r)
  | PInf => PInf
  | NInf => Fin 0
  | NaN => NaN
  end.

Definition sqrt (a : num) : num :=
  match a with
  | Fin r => if Rlt_dec r 0 then NaN else Fin (R_sqrt.sqrt r)
  | PInf => PInf
  | NInf => NaN
  | NaN => NaN
  end.

(** [torch.max] as a reduction: a [nan] wins over everything *)
Definition max (a b : num) : num :=
  match a, b with
  | NaN, _ | _, NaN => NaN
  | PInf, _ | _, PInf => PInf
  | NInf, x | x, NInf => x
  | Fin x, Fin y => Fin (Rmax x y)
  end.

(** [nn.ReLU]: [max(x, 0)], a [nan] stays a [nan] *)
Definition relu (a : num) : num :=
  match a with
  | Fin r => Fin (Rmax r 0)
  | PInf => PInf
  | NInf => Fin 0
  | NaN => NaN
  end.

(** the test [x == 0] of one element *)
Definition eq0 (a : num) : bool :=
  match a with
  | Fin r => if Req_dec_T r 0 then true else false
  | _ => false
  end.

(** sum of [f 0 .. f (n-1)] *)
Fixpoint sum (n : nat) (f : nat -> num) : num :=
  match n with
  | O => Fin 0
  | S k => add (sum k f) (f k)
  end.

(** maximum of [f 0 .. f (n-1)]; [-inf] over nothing *)
Fixpoint maxs (n : nat) (f : nat -> num) : num :=
  match n with
  | O => NInf
  | S k => max (maxs k f) (f k)
  end.

Definition of_nat (n : nat) : num := Fin (INR n).

End Num.

Import Num(num(..), zero, one, is_fin, eq0, of_nat).

(** ** Exceptions and the method monad *)

Inductive exn : Type :=
| ZeroDivisionError   (* Python's [//] by 0 *)
| ValueError          (* [nn.Dropout] with a probability outside [0,1] *)
| IndexError          (* a [dim] argument that is not an axis *)
| RuntimeError.       (* every shape error raised by torch *)

Inductive Res (A : Type) : Type :=
| Ok (a : A)
| Raise (e : exn).

Arguments Ok {A} a.
Arguments Raise {A} e.

(** The global random generator: a tape of uniform draws from [0,1) and the
    number of draws consumed so far. *)
Record Rng : Type := mkRng { tape : nat -> R; drawn : nat }.

Definition advance (g : Rng) (n : nat) : Rng :=
  {| tape := tape g; drawn := drawn g + n |}.

Definition draw (g : Rng) (k : nat) : R := tape g (drawn g + k).

(** state-and-exception monad over a state [St] *)
Definition M (St A : Type) : Type := St -> Res A * St.

Definition ret {St A} (a : A) : M St A := fun s => (Ok a, s).

Definition bind {St A B} (m : M St A) (f : A -> M St B) : M St B :=
  fun s =>
    match m s with
    | (Ok a, s') => f a s'
    | (Raise e, s') => (Raise e, s')
    end.

Definition raise {St A} (e : exn) : M St A := fun s => (Raise e, s).

Definition lift {St A} (r : Res A) : M St A := fun s => (r, s).

Declare Scope monad_scope.
Delimit Scope monad_scope with monad.
Notation "x <- m ;; k" := (bind m (fun x => k))
  (at level 61, m at next level, right associativity) : monad_scope.
Notation "' p <- m ;; k" := (bind m (fun x => let p := x in k))
  (at level 61, p pattern, m at next level, right associativity) : monad_scope.
Open Scope monad_scope.

(** A constructor only uses the generator. *)
Definition Ctor (A : Type) : Type := M Rng A.

(** A method of an object of class [Self]: the state is [self] and the
    generator. *)
Record World (Self : Type) : Type := mkW { obj : Self; gen : Rng }.

Definition Method (Self A : Type) : Type := M (World Self) A.

(** [self] *)
Definition this {Self} : Method Self Self := fun w => (Ok (obj w), w).

(** access to the generator from inside a method *)
Definition with_gen {Self A} (c : M Rng A) : Method Self A :=
  fun w => let (r, g) := c (gen w) in (r, {| obj := obj w; gen := g |}).

(** [self.f(...)]: run a method of the attribute read by [get]; what the
    callee leaves in its own [self] is stored back with [set]. *)
Definition call {Self T A} (get : Self -> T) (set : T -> Self -> Self)
    (m : Method T A) : Method Self A :=
  fun w =>
    let (r, w') := m {| obj := get (obj w); gen := gen w |} in
    (r, {| obj := set (obj w') (obj w); gen := gen w' |}).

(** the members of an [nn.ModuleList], visited in order: [step] is what the
    loop body does with one member *)
Fixpoint visit {T A B} (step : A -> B -> Method T A)
    (l : list T) (acc : A) (arg : B) (g : Rng) : Res A * list T * Rng :=
  match l with
  | [] => (Ok acc, [], g)
  | x :: rest =>
      match step acc arg {| obj := x; gen := g |} with
      | (Ok a, w) =>
          let '(r, rest', g') := visit step rest a arg (gen w) in
          (r, obj w :: rest', g')
      | (Raise e, w) => (Raise e, obj w :: rest, gen w)
      end
  end.

(** [for m in self.ms: acc = m(acc, arg)] *)
Definition for_each {Self T A B} (get : Self -> list T)
    (set : list T -> Self -> Self)
    (step : A -> B -> Method T A) (acc : A) (arg : B) : Method Self A :=
  fun w =>
    let '(r, l, g) := visit step (get (obj w)) acc arg (gen w) in
    (r, {| obj := set l (obj w); gen := g |}).

(** [[m(arg) for m in self.ms]] *)
Fixpoint comprehend {T A B} (f : B -> Method T A)
    (l : list T) (arg : B) (g : Rng) : Res (list A) * list T * Rng :=
  match l with
  | [] => (Ok [], [], g)
  | x :: rest =>
      match f arg {| obj := x; gen := g |} with
      | (Ok a, w) =>
          match comprehend f rest arg (gen w) with
          | (Ok tl, rest', g') => (Ok (a :: tl), obj w :: rest', g')
          | (Raise e, rest', g') => (Raise e, obj w :: rest', g')
          end
      | (Raise e, w) => (Raise e, obj w :: rest, gen w)
      end
  end.

Definition list_of {Self T A B} (get : Self -> list T)
    (set : list T -> Self -> Self)
    (f : B -> Method T A) (arg : B) : Method Self (list A) :=
  fun w =>
    let '(r, l, g) := comprehend f (get (obj w)) arg (gen w) in
    (r, {| obj := set l (obj w); gen := g |}).

(** [[c for _ in range(n)]] in a constructor *)
Fixpoint repeat_ctor {A} (n : nat) (c : Ctor A) : Ctor (list A) :=
  match n with
  | O => ret []
  | S k => x <- c ;; xs <- repeat_ctor k c ;; ret (x :: xs)
  end.

(** ** Tensors

    A tensor is its shape and its elements by index.  Only the elements at
    indices inside the shape mean anything. *)

Record tensor1 : Type := mk1 { len : nat; at1 : nat -> num }.

Record tensor2 : Type := mk2 { rows : nat; cols : nat; at2 : nat -> nat -> num }.

Record tensor3 : Type :=
  mk3 { dim0 : nat; dim1 : nat; dim2 : nat; at3 : nat -> nat -> nat -> num }.

(** a boolean tensor, the result of a comparison such as [t == 0] *)
Record btensor3 : Type :=
  mkB { bdim0 : nat; bdim1 : nat; bdim2 : nat; bat3 : nat -> nat -> nat -> bool }.

(** ** The torch operations the model calls *)

Module torch.

(** broadcasting of one axis: equal sizes, or one of them is 1 *)
Definition bdim (a b : nat) : option nat :=
  if a =? b then Some a
  else if a =? 1 then Some b
  else if b =? 1 then Some a
  else None.

(** the index read in an axis of size [d] that may have been broadcast *)
Definition bidx (d i : nat) : nat := if d =? 1 then 0 else i.

(** [ones((n, m))] *)
Definition ones (n m : nat) : tensor2 := mk2 n m (fun _ _ => one).

(** [triu(t, diagonal=d)]: the elements with [j - i >= d], 0 elsewhere *)
Definition triu (t : tensor2) (diagonal : nat) : tensor2 :=
  mk2 (rows t) (cols t)
      (fun i j => if i + diagonal <=? j then at2 t i j else zero).

(** [c - t] for a scalar [c] *)
Definition rsub (c : num) (t : tensor2) : tensor2 :=
  mk2 (rows t) (cols t) (fun i j => Num.sub c (at2 t i j)).

(** [t[None, :, :]] *)
Definition unsqueeze0 (t : tensor2) : tensor3 :=
  mk3 1 (rows t) (cols t) (fun _ i j => at2 t i j).

(** [t[:, None, :]] *)
Definition unsqueeze1 (t : tensor2) : tensor3 :=
  mk3 (rows t) 1 (cols t) (fun b _ j => at2 t b j).

(** [t.expand(n0, n1, n2)]: an axis is kept, or has size 1 and is repeated *)
Definition expand (t : tensor3) (n0 n1 n2 : nat) : Res tensor3 :=
  if ((dim0 t =? n0) || (dim0 t =? 1)) &&
     ((dim1 t =? n1) || (dim1 t =? 1)) &&
     ((dim2 t =? n2) || (dim2 t =? 1))
  then Ok (mk3 n0 n1 n2
             (fun b i j => at3 t (bidx (dim0 t) b) (bidx (dim1 t) i) (bidx (dim2 t) j)))
  else Raise RuntimeError.

(** [t.transpose(1, 2)] *)
Definition transpose12 (t : tensor3) : tensor3 :=
  mk3 (dim0 t) (dim2 t) (dim1 t) (fun b i j => at3 t b j i).

(** [torch.bmm(x, y)]: batched matrix product, no broadcasting *)
Definition bmm (x y : tensor3) : Res tensor3 :=
  if (dim0 x =? dim0 y) && (dim2 x =? dim1 y)
  then Ok (mk3 (dim0 x) (dim1 x) (dim2 y)
             (fun b i j => Num.sum (dim2 x) (fun k => Num.mul (at3 x b i k) (at3 y b k j))))
  else Raise RuntimeError.

(** [t / c] for a scalar [c] *)
Definition div_scalar (t : tensor3) (c : num) : tensor3 :=
  mk3 (dim0 t) (dim1 t) (dim2 t) (fun b i j => Num.div (at3 t b i j) c).

(** [t == 0] *)
Definition eq_zero (t : tensor3) : btensor3 :=
  mkB (dim0 t) (dim1 t) (dim2 t) (fun b i j => eq0 (at3 t b i j)).

(** [t.masked_fill(m, v)] (out of place): [t] and [m] are broadcast against
    each other, the result has the broadcast shape *)
Definition masked_fill (t : tensor3) (m : btensor3) (v : num) : Res tensor3 :=
  match bdim (dim0 t) (bdim0 m), bdim (dim1 t) (bdim1 m), bdim (dim2 t) (bdim2 m) with
  | Some n0, Some n1, Some n2 =>
      Ok (mk3 n0 n1 n2
            (fun b i j =>
               if bat3 m (bidx (bdim0 m) b) (bidx (bdim1 m) i) (bidx (bdim2 m) j)
               then v
               else at3 t (bidx (dim0 t) b) (bidx (dim1 t) i) (bidx (dim2 t) j)))
  | _, _, _ => Raise RuntimeError
  end.

(** softmax of the [n] numbers [x 0 .. x (n-1)], at index [i]; as torch
    computes it, the maximum is subtracted first *)
Definition softmax_vec (n : nat) (x : nat -> num) (i : nat) : num :=
  let m := Num.maxs n x in
  let e := fun k => Num.exp (Num.sub (x k) m) in
  Num.div (e i) (Num.sum n e).

(** [torch.softmax(t, dim)] *)
Definition softmax (t : tensor3) (dim : nat) : Res tensor3 :=
  match dim with
  | 0 => Ok (mk3 (dim0 t) (dim1 t) (dim2 t)
               (fun b i j => softmax_vec (dim0 t) (fun b' => at3 t b' i j) b))
  | 1 => Ok (mk3 (dim0 t) (dim1 t) (dim2 t)
               (fun b i j => softmax_vec (dim1 t) (fun i' => at3 t b i' j) i))
  | 2 => Ok (mk3 (dim0 t) (dim1 t) (dim2 t)
               (fun b i j => softmax_vec (dim2 t) (fun j' => at3 t b i j') j))
  | _ => Raise IndexError
  end.

(** [torch.cat([x, y], dim)] *)
Definition cat2 (x y : tensor3) (dim : nat) : Res tensor3 :=
  match dim with
  | 0 => if (dim1 x =? dim1 y) && (dim2 x =? dim2 y)
         then Ok (mk3 (dim0 x + dim0 y) (dim1 x) (dim2 x)
                    (fun b i j => if b <? dim0 x then at3 x b i j
                                  else at3 y (b - dim0 x) i j))
         else Raise RuntimeError
  | 1 => if (dim0 x =? dim0 y) && (dim2 x =? dim2 y)
         then Ok (mk3 (dim0 x) (dim1 x + dim1 y) (dim2 x)
                    (fun b i j => if i <? dim1 x then at3 x b i j
                                  else at3 y b (i - dim1 x) j))
         else Raise RuntimeError
  | 2 => if (dim0 x =? dim0 y) && (dim1 x =? dim1 y)
         then Ok (mk3 (dim0 x) (dim1 x) (dim2 x + dim2 y)
                    (fun b i j => if j <? dim2 x then at3 x b i j
                                  else at3 y b i (j - dim2 x)))
         else Raise RuntimeError
  | _ => Raise IndexError
  end.

(** [torch.cat(ts, dim)]; an empty list is an error, modelled as a
    [RuntimeError]: the class torch raises for it depends on its version *)
Fixpoint cat (ts : list tensor3) (dim : nat) : Res tensor3 :=
  match ts with
  | [] => Raise RuntimeError
  | [x] => if dim <? 3 then Ok x else Raise IndexError
  | x :: rest =>
      match cat rest dim with
      | Ok y => cat2 x y dim
      | Raise e => Raise e
      end
  end.

(** [x + y], with broadcasting *)
Definition add (x y : tensor3) : Res tensor3 :=
  match bdim (dim0 x) (dim0 y), bdim (dim1 x) (dim1 y), bdim (dim2 x) (dim2 y) with
  | Some n0, Some n1, Some n2 =>
      Ok (mk3 n0 n1 n2
            (fun b i j =>
               Num.add (at3 x (bidx (dim0 x) b) (bidx (dim1 x) i) (bidx (dim2 x) j))
                       (at3 y (bidx (dim0 y) b) (bidx (dim1 y) i) (bidx (dim2 y) j))))
  | _, _, _ => Raise RuntimeError
  end.

(** [F.linear(x, weight, bias)]: [x @ weight.T + bias] on the last axis *)
Definition linear (x : tensor3) (weight : tensor2) (bias : tensor1) : Res tensor3 :=
  if (dim2 x =? cols weight) && ((len bias =? rows weight) || (len bias =? 1))
  then Ok (mk3 (dim0 x) (dim1 x) (rows weight)
             (fun b i o =>
                Num.add (Num.sum (cols weight)
                           (fun k => Num.mul (at3 x b i k) (at2 weight o k)))
                        (at1 bias (bidx (len bias) o))))
  else Raise RuntimeError.

(** [F.relu] *)
Definition relu (x : tensor3) : tensor3 :=
  mk3 (dim0 x) (dim1 x) (dim2 x) (fun b i j => Num.relu (at3 x b i j)).

(** [F.layer_norm(x, (d,), weight, bias, eps)] over the last axis *)
Definition layer_norm (x : tensor3) (d : nat) (weight bias : tensor1) (eps : R)
  : Res tensor3 :=
  if (dim2 x =? d) && (len weight =? d) && (len bias =? d)
  then Ok (mk3 (dim0 x) (dim1 x) (dim2 x)
             (fun b i j =>
                let mean := Num.div (Num.sum d (fun k => at3 x b i k)) (of_nat d) in
                let dev := fun k => Num.sub (at3 x b i k) mean in
                let var := Num.div (Num.sum d (fun k => Num.mul (dev k) (dev k)))
                                   (of_nat d) in
                Num.add (Num.mul (Num.div (dev j) (Num.sqrt (Num.add var (Fin eps))))
                                 (at1 weight j))
                        (at1 bias j)))
  else Raise RuntimeError.

(** [F.dropout(x, p, training)]: in training every element is zeroed when
    its draw falls under [p], and scaled by [1/(1-p)] otherwise; one draw is
    consumed per element.  Outside training the input is returned and the
    generator is not used. *)
Definition dropout (x : tensor3) (p : R) (training : bool) : M Rng tensor3 :=
  if training
  then fun g =>
         (Ok (mk3 (dim0 x) (dim1 x) (dim2 x)
                (fun b i j =>
                   Num.mul (at3 x b i j)
                     (if Rlt_dec (draw g ((b * dim1 x + i) * dim2 x + j)) p
                      then Fin 0 else Fin (/ (1 - p))))),
          advance g (dim0 x * dim1 x * dim2 x))
  else ret x.

End torch.

(** Python's [a // b] on integers *)
Definition floordiv (a b : Z) : Res Z :=
  if (b =? 0)%Z then Raise ZeroDivisionError else Ok (a / b)%Z.

(** ** The torch.nn layers the model is built from *)

(** [nn.Linear] *)
Module Linear.

Record t : Type := mk { weight : tensor2; bias : tensor1 }.

Definition in_features (m : t) : nat := cols (weight m).
Definition out_features (m : t) : nat := rows (weight m).

Definition uniform (a b u : R) : R := (a + (b - a) * u)%R.

(** the parameters are allocated with the given sizes (a negative size is
    an error) and filled with uniform draws *)
Definition init (in_features out_features : Z) : Ctor t :=
  if ((in_features <? 0) || (out_features <? 0))%Z then raise RuntimeError
  else fun g =>
    let i := Z.to_nat in_features in
    let o := Z.to_nat out_features in
    let bound := if i =? 0 then 0%R else (/ sqrt (INR i))%R in
    (Ok {| weight := mk2 o i (fun r c => Fin (uniform (- bound) bound (draw g (r * i + c))));
           bias := mk1 o (fun r => Fin (uniform (- bound) bound (draw g (o * i + r)))) |},
     advance g (o * i + o)).

Definition forward (x : tensor3) : Method t tensor3 :=
  self <- this ;;
  lift (torch.linear x (weight self) (bias self)).

End Linear.

(** [nn.LayerNorm] over the last axis *)
Module LayerNorm.

Record t : Type :=
  mk { normalized_shape : nat; weight : tensor1; bias : tensor1; eps : R }.

Definition init (d : Z) : Ctor t :=
  if (d <? 0)%Z then raise RuntimeError
  else ret {| normalized_shape := Z.to_nat d;
              weight := mk1 (Z.to_nat d) (fun _ => one);
              bias := mk1 (Z.to_nat d) (fun _ => zero);
              eps := (/ 100000)%R |}.

Definition forward (x : tensor3) : Method t tensor3 :=
  self <- this ;;
  lift (torch.layer_norm x (normalized_shape self) (weight self) (bias self) (eps self)).

End LayerNorm.

(** [nn.Dropout]; [training] is the module's mode flag, set at construction
    and cleared by [eval()] *)
Module Dropout.

Record t : Type := mk { p : R; training : bool }.

Definition init (p : R) : Ctor t :=
  if Rlt_dec p 0 then raise ValueError
  else if Rlt_dec 1 p then raise ValueError
  else ret {| p := p; training := true |}.

Definition forward (x : tensor3) : Method t tensor3 :=
  self <- this ;;
  with_gen (torch.dropout x (p self) (training self)).

Definition eval (m : t) : t := {| p := p m; training := false |}.

Definition eval_mode (m : t) : Prop := training m = false.

End Dropout.

(** the dropout probability every constructor of the model defaults to *)
Definition dropout_default : R := (3 / 10)%R.

(** the feed-forward width every layer constructor defaults to *)
Definition d_ff_default : Z := 2048%Z.

(** ** class SelfAttention *)

Module SelfAttention.

Record t : Type :=
  mk { query : Linear.t; key : Linear.t; value : Linear.t; dropout : Dropout.t }.

Definition set_query (x : Linear.t) (s : t) : t :=
  {| query := x; key := key s; value := value s; dropout := dropout s |}.
Definition set_key (x : Linear.t) (s : t) : t :=
  {| query := query s; key := x; value := value s; dropout := dropout s |}.
Definition set_value (x : Linear.t) (s : t) : t :=
  {| query := query s; key := key s; value := x; dropout := dropout s |}.

Definition init (d_model output_size : Z) (dropout : R) : Ctor t :=
  query <- Linear.init d_model output_size ;;
  key <- Linear.init d_model output_size ;;
  value <- Linear.init d_model output_size ;;
  dropout <- Dropout.init dropout ;;
  ret {| query := query; key := key; value := value; dropout := dropout |}.

(** [forward] up to and including the line [weights = torch.softmax(...)]:
    the attention weights and the projected values *)
Definition attention (q k v : tensor3) (mask : option tensor2)
  : Method t (tensor3 * tensor3) :=
  let bs := dim0 q in
  let tgt_len := dim1 q in
  let seq_len := dim1 k in
  query_ <- call query set_query (Linear.forward q) ;;
  key_ <- call key set_key (Linear.forward k) ;;
  value_ <- call value set_value (Linear.forward v) ;;
  let dim_k := dim2 key_ in
  prod <- lift (torch.bmm query_ (torch.transpose12 key_)) ;;
  let scores := torch.div_scalar prod (Num.sqrt (of_nat dim_k)) in
  scores <-
    match mask with
    | Some mask =>
        expanded_mask <-
          lift (torch.expand (torch.unsqueeze1 mask) bs tgt_len seq_len) ;;
        let subsequent_mask :=
          torch.rsub one (torch.triu (torch.ones tgt_len tgt_len) 1) in
        subsequent_mask <-
          lift (torch.expand (torch.unsqueeze0 subsequent_mask) bs tgt_len tgt_len) ;;
        scores <- lift (torch.masked_fill scores (torch.eq_zero expanded_mask) NInf) ;;
        lift (torch.masked_fill scores (torch.eq_zero subsequent_mask) NInf)
    | None => ret scores
    end ;;
  weights <- lift (torch.softmax scores 1) ;;
  ret (weights, value_).

Definition forward (q k v : tensor3) (mask : option tensor2) : Method t tensor3 :=
  wv <- attention q k v mask ;;
  lift (torch.bmm (fst wv) (snd wv)).

Definition eval (m : t) : t :=
  {| query := query m; key := key m; value := value m;
     dropout := Dropout.eval (dropout m) |}.

Definition eval_mode (m : t) : Prop := Dropout.eval_mode (dropout m).

End SelfAttention.

(** ** class MultiHeadedAttention *)

Module MultiHeadedAttention.

Record t : Type :=
  mk { d_model : Z;
       num_heads : Z;
       dropout : R;
       attn_output_size : Z;
       attentions : list SelfAttention.t;
       output : Linear.t }.

Definition set_attentions (x : list SelfAttention.t) (s : t) : t :=
  {| d_model := d_model s; num_heads := num_heads s; dropout := dropout s;
     attn_output_size := attn_output_size s; attentions := x; output := output s |}.
Definition set_output (x : Linear.t) (s : t) : t :=
  {| d_model := d_model s; num_heads := num_heads s; dropout := dropout s;
     attn_output_size := attn_output_size s; attentions := attentions s; output := x |}.

Definition init (d_model num_heads : Z) (dropout : R) : Ctor t :=
  attn_output_size <- lift (floordiv d_model num_heads) ;;
  attentions <-
    repeat_ctor (Z.to_nat num_heads)
      (SelfAttention.init d_model attn_output_size dropout_default) ;;
  output <- Linear.init d_model d_model ;;
  ret {| d_model := d_model; num_heads := num_heads; dropout := dropout;
         attn_output_size := attn_output_size; attentions := attentions;
         output := output |}.

Definition forward (q k v : tensor3) (mask : option tensor2) : Method t tensor3 :=
  heads <-
    list_of attentions set_attentions
      (fun '(q, k, v, mask) => SelfAttention.forward q k v mask) (q, k, v, mask) ;;
  x <- lift (torch.cat heads 1) ;;
  x <- call output set_output (Linear.forward x) ;;
  ret x.

Definition eval (m : t) : t :=
  set_attentions (map SelfAttention.eval (attentions m)) m.

Definition eval_mode (m : t) : Prop :=
  Forall SelfAttention.eval_mode (attentions m).

End MultiHeadedAttention.

(** ** The feed-forward block of a layer:
    [nn.Sequential(Linear, ReLU(inplace=True), Dropout, Linear, Dropout)].
    The fields are the members with parameters or state, named by their
    position in the sequence. *)

Module Sequential.

Record t : Type :=
  mk { item0 : Linear.t; item2 : Dropout.t; item3 : Linear.t; item4 : Dropout.t }.

Definition set_item0 (x : Linear.t) (s : t) : t :=
  {| item0 := x; item2 := item2 s; item3 := item3 s; item4 := item4 s |}.
Definition set_item2 (x : Dropout.t) (s : t) : t :=
  {| item0 := item0 s; item2 := x; item3 := item3 s; item4 := item4 s |}.
Definition set_item3 (x : Linear.t) (s : t) : t :=
  {| item0 := item0 s; item2 := item2 s; item3 := x; item4 := item4 s |}.
Definition set_item4 (x : Dropout.t) (s : t) : t :=
  {| item0 := item0 s; item2 := item2 s; item3 := item3 s; item4 := x |}.

Definition init (d_model d_ff : Z) (dropout : R) : Ctor t :=
  item0 <- Linear.init d_model d_ff ;;
  item2 <- Dropout.init dropout ;;
  item3 <- Linear.init d_ff d_model ;;
  item4 <- Dropout.init dropout ;;
  ret {| item0 := item0; item2 := item2; item3 := item3; item4 := item4 |}.

(** [ReLU(inplace=True)] overwrites the tensor that the first linear layer
    has just returned, which nothing else refers to; it is modelled by the
    value it leaves there. *)
Definition forward (x : tensor3) : Method t tensor3 :=
  x <- call item0 set_item0 (Linear.forward x) ;;
  let x := torch.relu x in
  x <- call item2 set_item2 (Dropout.forward x) ;;
  x <- call item3 set_item3 (Linear.forward x) ;;
  x <- call item4 set_item4 (Dropout.forward x) ;;
  ret x.

Definition eval (m : t) : t :=
  {| item0 := item0 m; item2 := Dropout.eval (item2 m);
     item3 := item3 m; item4 := Dropout.eval (item4 m) |}.

Definition eval_mode (m : t) : Prop :=
  Dropout.eval_mode (item2 m) /\ Dropout.eval_mode (item4 m).

End Sequential.

(** ** class EncoderLayer *)

Module EncoderLayer.

Record t : Type :=
  mk { attn : MultiHeadedAttention.t;
       ffn : Sequential.t;
       attn_norm : LayerNorm.t;
       ffn_norm : LayerNorm.t }.

Definition set_attn (x : MultiHeadedAttention.t) (s : t) : t :=
  {| attn := x; ffn := ffn s; attn_norm := attn_norm s; ffn_norm := ffn_norm s |}.
Definition set_ffn (x : Sequential.t) (s : t) : t :=
  {| attn := attn s; ffn := x; attn_norm := attn_norm s; ffn_norm := ffn_norm s |}.
Definition set_attn_norm (x : LayerNorm.t) (s : t) : t :=
  {| attn := attn s; ffn := ffn s; attn_norm := x; ffn_norm := ffn_norm s |}.
Definition set_ffn_norm (x : LayerNorm.t) (s : t) : t :=
  {| attn := attn s; ffn := ffn s; attn_norm := attn_norm s; ffn_norm := x |}.

Definition init (d_model num_heads d_ff : Z) (dropout : R) : Ctor t :=
  attn <- MultiHeadedAttention.init d_model num_heads dropout ;;
  ffn <- Sequential.init d_model d_ff dropout ;;
  attn_norm <- LayerNorm.init d_model ;;
  ffn_norm <- LayerNorm.init d_model ;;
  ret {| attn := attn; ffn := ffn; attn_norm := attn_norm; ffn_norm := ffn_norm |}.

Definition forward (src : tensor3) (src_mask : option tensor2) : Method t tensor3 :=
  let x := src in
  a <- call attn set_attn (MultiHeadedAttention.forward x x x src_mask) ;;
  x <- lift (torch.add x a) ;;
  x <- call attn_norm set_attn_norm (LayerNorm.forward x) ;;
  f <- call ffn set_ffn (Sequential.forward x) ;;
  x <- lift (torch.add x f) ;;
  x <- call ffn_norm set_ffn_norm (LayerNorm.forward x) ;;
  ret x.

Definition eval (m : t) : t :=
  {| attn := MultiHeadedAttention.eval (attn m); ffn := Sequential.eval (ffn m);
     attn_norm := attn_norm m; ffn_norm := ffn_norm m |}.

Definition eval_mode (m : t) : Prop :=
  MultiHeadedAttention.eval_mode (attn m) /\ Sequential.eval_mode (ffn m).

End EncoderLayer.

(** ** class DecoderLayer *)

Module DecoderLayer.

Record t : Type :=
  mk { masked_attn : MultiHeadedAttention.t;
       attn : MultiHeadedAttention.t;
       ffn : Sequential.t;
       masked_attn_norm : LayerNorm.t;
       attn_norm : LayerNorm.t;
       ffn_norm : LayerNorm.t }.

Definition set_masked_attn (x : MultiHeadedAttention.t) (s : t) : t :=
  {| masked_attn := x; attn := attn s; ffn := ffn s;
     masked_attn_norm := masked_attn_norm s; attn_norm := attn_norm s;
     ffn_norm := ffn_norm s |}.
Definition set_attn (x : MultiHeadedAttention.t) (s : t) : t :=
  {| masked_attn := masked_attn s; attn := x; ffn := ffn s;
     masked_attn_norm := masked_attn_norm s; attn_norm := attn_norm s;
     ffn_norm := ffn_norm s |}.
Definition set_ffn (x : Sequential.t) (s : t) : t :=
  {| masked_attn := masked_attn s; attn := attn s; ffn := x;
     masked_attn_norm := masked_attn_norm s; attn_norm := attn_norm s;
     ffn_norm := ffn_norm s |}.
Definition set_masked_attn_norm (x : LayerNorm.t) (s : t) : t :=
  {| masked_attn := masked_attn s; attn := attn s; ffn := ffn s;
     masked_attn_norm := x; attn_norm := attn_norm s; ffn_norm := ffn_norm s |}.
Definition set_attn_norm (x : LayerNorm.t) (s : t) : t :=
  {| masked_attn := masked_attn s; attn := attn s; ffn := ffn s;
     masked_attn_norm := masked_attn_norm s; attn_norm := x; ffn_norm := ffn_norm s |}.
Definition set_ffn_norm (x : LayerNorm.t) (s : t) : t :=
  {| masked_attn := masked_attn s; attn := attn s; ffn := ffn s;
     masked_attn_norm := masked_attn_norm s; attn_norm := attn_norm s; ffn_norm := x |}.

Definition init (d_model num_heads d_ff : Z) (dropout : R) : Ctor t :=
  masked_attn <- MultiHeadedAttention.init d_model num_heads dropout ;;
  attn <- MultiHeadedAttention.init d_model num_heads dropout ;;
  ffn <- Sequential.init d_model d_ff dropout ;;
  masked_attn_norm <- LayerNorm.init d_model ;;
  attn_norm <- LayerNorm.init d_model ;;
  ffn_norm <- LayerNorm.init d_model ;;
  ret {| masked_attn := masked_attn; attn := attn; ffn := ffn;
         masked_attn_norm := masked_attn_norm; attn_norm := attn_norm;
         ffn_norm := ffn_norm |}.

Definition forward (tgt enc : tensor3) (tgt_mask enc_mask : option tensor2)
  : Method t tensor3 :=
  let x := tgt in
  a <- call masked_attn set_masked_attn
         (MultiHeadedAttention.forward x x x tgt_mask) ;;
  x <- lift (torch.add x a) ;;
  x <- call masked_attn_norm set_masked_attn_norm (LayerNorm.forward x) ;;
  a <- call attn set_attn (MultiHeadedAttention.forward x enc enc enc_mask) ;;
  x <- lift (torch.add x a) ;;
  x <- call attn_norm set_attn_norm (LayerNorm.forward x) ;;
  f <- call ffn set_ffn (Sequential.forward x) ;;
  x <- lift (torch.add x f) ;;
  x <- call ffn_norm set_ffn_norm (LayerNorm.forward x) ;;
  ret x.

Definition eval (m : t) : t :=
  {| masked_attn := MultiHeadedAttention.eval (masked_attn m);
     attn := MultiHeadedAttention.eval (attn m);
     ffn := Sequential.eval (ffn m);
     masked_attn_norm := masked_attn_norm m; attn_norm := attn_norm m;
     ffn_norm := ffn_norm m |}.

Definition eval_mode (m : t) : Prop :=
  MultiHeadedAttention.eval_mode (masked_attn m) /\
  MultiHeadedAttention.eval_mode (attn m) /\
  Sequential.eval_mode (ffn m).

End DecoderLayer.

(** ** class Encoder *)

Module Encoder.

Record t : Type := mk { enc_layers : list EncoderLayer.t }.

Definition set_enc_layers (x : list EncoderLayer.t) (s : t) : t :=
  {| enc_layers := x |}.

Definition init (d_model num_heads num_encoders : Z) : Ctor t :=
  enc_layers <-
    repeat_ctor (Z.to_nat num_encoders)
      (EncoderLayer.init d_model num_heads d_ff_default dropout_default) ;;
  ret {| enc_layers := enc_layers |}.

Definition forward (src : tensor3) (src_mask : option tensor2) : Method t tensor3 :=
  let output := src in
  for_each enc_layers set_enc_layers
    (fun output src_mask => EncoderLayer.forward output src_mask)
    output src_mask.

Definition eval (m : t) : t := {| enc_layers := map EncoderLayer.eval (enc_layers m) |}.

Definition eval_mode (m : t) : Prop := Forall EncoderLayer.eval_mode (enc_layers m).

End Encoder.

(** ** class Decoder *)

Module Decoder.

Record t : Type := mk { dec_layers : list DecoderLayer.t }.

Definition set_dec_layers (x : list DecoderLayer.t) (s : t) : t :=
  {| dec_layers := x |}.

Definition init (d_model num_heads num_decoders : Z) : Ctor t :=
  dec_layers <-
    repeat_ctor (Z.to_nat num_decoders)
      (DecoderLayer.init d_model num_heads d_ff_default dropout_default) ;;
  ret {| dec_layers := dec_layers |}.

Definition forward (tgt enc : tensor3) (tgt_mask enc_mask : option tensor2)
  : Method t tensor3 :=
  let output := tgt in
  for_each dec_layers set_dec_layers
    (fun output '(enc, tgt_mask, enc_mask) =>
       DecoderLayer.forward output enc tgt_mask enc_mask)
    output (enc, tgt_mask, enc_mask).

Definition eval (m : t) : t := {| dec_layers := map DecoderLayer.eval (dec_layers m) |}.

Definition eval_mode (m : t) : Prop := Forall DecoderLayer.eval_mode (dec_layers m).

End Decoder.

(** ** class Transformer *)

Module Transformer.

Record t : Type := mk { encoder : Encoder.t; decoder : Decoder.t }.

Definition set_encoder (x : Encoder.t) (s : t) : t :=
  {| encoder := x; decoder := decoder s |}.
Definition set_decoder (x : Decoder.t) (s : t) : t :=
  {| encoder := encoder s; decoder := x |}.

Definition init (d_model num_heads num_encoders num_decoders : Z) : Ctor t :=
  encoder <- Encoder.init d_model num_heads num_encoders ;;
  decoder <- Decoder.init d_model num_heads num_decoders ;;
  ret {| encoder := encoder; decoder := decoder |}.

(** [Transformer()] with the default arguments of the source *)
Definition init_default : Ctor t := init 512 8 6 6.

(** The call of the decoder passes [src_mask] and [tgt_mask] by position, in
    this order, to the parameters [tgt_mask] and [enc_mask] of
    [Decoder.forward]. *)
Definition forward (src tgt : tensor3) (src_mask tgt_mask : option tensor2)
  : Method t tensor3 :=
  enc_out <- call encoder set_encoder (Encoder.forward src src_mask) ;;
  dec_out <- call decoder set_decoder (Decoder.forward tgt enc_out src_mask tgt_mask) ;;
  ret dec_out.

(** [model.eval()]: every module of the tree leaves training mode *)
Definition eval (m : t) : t :=
  {| encoder := Encoder.eval (encoder m); decoder := Decoder.eval (decoder m) |}.

Definition eval_mode (m : t) : Prop :=
  Encoder.eval_mode (encoder m) /\ Decoder.eval_mode (decoder m).

End Transformer.

(** * Vocabulary of the properties *)

Unset Implicit Arguments.

(** the method leaves its receiver as it was, whether it returns or raises *)
Definition frame {S' X} (m : Method S' X) : Prop :=
  forall w, obj (snd (m w)) = obj w.

(** on a receiver satisfying [P], the outcome of the method does not depend
    on the generator *)
Definition det {S' X} (P : S' -> Prop) (m : Method S' X) : Prop :=
  forall w1 w2, obj w1 = obj w2 -> P (obj w1) -> fst (m w1) = fst (m w2).

(** the only exception the computation raises is [RuntimeError] *)
Definition rt {St X} (m : M St X) : Prop :=
  forall s e, fst (m s) = Raise e -> e = RuntimeError.

Definition rt_res {X} (r : Res X) : Prop :=
  forall e, r = Raise e -> e = RuntimeError.

(** what the masking block of [SelfAttention.forward] computes from the
    scaled scores, as a relation between its input and its result *)
Definition masking (q k : tensor3) (mask : option tensor2) (scores sc : tensor3)
  : Prop :=
  match mask with
  | None => sc = scores
  | Some mask =>
      exists expanded_mask subsequent_mask scores1,
        torch.expand (torch.unsqueeze1 mask) (dim0 q) (dim1 q) (dim1 k)
          = Ok expanded_mask /\
        torch.expand
          (torch.unsqueeze0 (torch.rsub one (torch.triu (torch.ones (dim1 q) (dim1 q)) 1)))
          (dim0 q) (dim1 q) (dim1 q) = Ok subsequent_mask /\
        torch.masked_fill scores (torch.eq_zero expanded_mask) NInf = Ok scores1 /\
        torch.masked_fill scores1 (torch.eq_zero subsequent_mask) NInf = Ok sc
  end.

(** no run of [m] on the receiver [s] returns *)
Definition never_ok {Self A} (m : Method Self A) (s : Self) : Prop :=
  forall g a w', m {| obj := s; gen := g |} <> (Ok a, w').

(** the heads do not produce the width that [self.output] accepts *)
Definition heads_mismatch (m : MultiHeadedAttention.t) : Prop :=
  Forall (fun h => Linear.out_features (SelfAttention.value h)
                   <> Linear.in_features (MultiHeadedAttention.output m))
         (MultiHeadedAttention.attentions m).

(** the constructor [c] returns, whatever the generator, an object
    satisfying [P] *)
Definition builds {A} (c : Ctor A) (P : A -> Prop) : Prop :=
  forall g, exists x g', c g = (Ok x, g') /\ P x.

(** what [MultiHeadedAttention.__init__] leaves in the object *)
Definition built_attention (d_model num_heads : Z) (m : MultiHeadedAttention.t) : Prop :=
  MultiHeadedAttention.d_model m = d_model /\
  MultiHeadedAttention.num_heads m = num_heads /\
  MultiHeadedAttention.attn_output_size m = (d_model / num_heads)%Z /\
  length (MultiHeadedAttention.attentions m) = Z.to_nat num_heads /\
  Forall (fun h => Linear.out_features (SelfAttention.value h)
                   = Z.to_nat (d_model / num_heads))
         (MultiHeadedAttention.attentions m) /\
  Linear.in_features (MultiHeadedAttention.output m) = Z.to_nat d_model.

(** what [Transformer.__init__] leaves in the object *)
Definition built_transformer (d h ne nd : Z) (m : Transformer.t) : Prop :=
  length (Encoder.enc_layers (Transformer.encoder m)) = Z.to_nat ne /\
  length (Decoder.dec_layers (Transformer.decoder m)) = Z.to_nat nd /\
  Forall (fun l => built_attention d h (EncoderLayer.attn l))
         (Encoder.enc_layers (Transformer.encoder m)) /\
  Forall (fun l => built_attention d h (DecoderLayer.masked_attn l) /\
                   built_attention d h (DecoderLayer.attn l))
         (Decoder.dec_layers (Transformer.decoder m)).

(** ** Concrete objects for the examples: one feature, one head *)

Module Example.

Definition gen0 : Rng := {| tape := fun _ => (/ 2)%R; drawn := 0 |}.
Definition gen1 : Rng := {| tape := fun _ => 0%R; drawn := 7 |}.

(** the 1-to-1 linear layer [y = w * x + b] *)
Definition lin (w b : R) : Linear.t :=
  {| Linear.weight := mk2 1 1 (fun _ _ => Fin w);
     Linear.bias := mk1 1 (fun _ => Fin b) |}.

Definition drop (training : bool) : Dropout.t :=
  {| Dropout.p := dropout_default; Dropout.training := training |}.

Definition head : SelfAttention.t :=
  {| SelfAttention.query := lin 1 0; SelfAttention.key := lin 1 0;
     SelfAttention.value := lin 1 0; SelfAttention.dropout := drop true |}.

Definition mha : MultiHeadedAttention.t :=
  {| MultiHeadedAttention.d_model := 1; MultiHeadedAttention.num_heads := 1;
     MultiHeadedAttention.dropout := dropout_default;
     MultiHeadedAttention.attn_output_size := 1;
     MultiHeadedAttention.attentions := [head];
     MultiHeadedAttention.output := lin 1 0 |}.

Definition ffn : Sequential.t :=
  {| Sequential.item0 := lin 1 0; Sequential.item2 := drop true;
     Sequential.item3 := lin 1 0; Sequential.item4 := drop true |}.

Definition norm : LayerNorm.t :=
  {| LayerNorm.normalized_shape := 1;
     LayerNorm.weight := mk1 1 (fun _ => one);
     LayerNorm.bias := mk1 1 (fun _ => zero);
     LayerNorm.eps := (/ 100000)%R |}.

Definition enc_layer : EncoderLayer.t :=
  {| EncoderLayer.attn := mha; EncoderLayer.ffn := ffn;
     EncoderLayer.attn_norm := norm; EncoderLayer.ffn_norm := norm |}.

Definition dec_layer : DecoderLayer.t :=
  {| DecoderLayer.masked_attn := mha; DecoderLayer.attn := mha;
     DecoderLayer.ffn := ffn; DecoderLayer.masked_attn_norm := norm;
     DecoderLayer.attn_norm := norm; DecoderLayer.ffn_norm := norm |}.

Definition model : Transformer.t :=
  {| Transformer.encoder := {| Encoder.enc_layers := [enc_layer] |};
     Transformer.decoder := {| Decoder.dec_layers := [dec_layer] |} |}.

(** a batch of one sequence of [n] positions, every feature equal to 1 *)
Definition seq_of_ones (n : nat) : tensor3 := mk3 1 n 1 (fun _ _ _ => Fin 1).

(** a mask for one sequence, given by its values *)
Definition mask_of (l : list R) : tensor2 :=
  mk2 1 (length l) (fun _ j => Fin (nth j l 0%R)).

End Example.

(** the shape of a returned tensor, nothing for an exception *)
Definition shape_of (r : Res tensor3) : option (nat * nat * nat) :=
  match r with
  | Ok t => Some (dim0 t, dim1 t, dim2 t)
  | Raise _ => None
  end.

(** every attention block of a model, in the order of construction *)
Definition attention_blocks (m : Transformer.t) : list MultiHeadedAttention.t :=
  map EncoderLayer.attn (Encoder.enc_layers (Transformer.encoder m)) ++
  flat_map (fun l => [DecoderLayer.masked_attn l; DecoderLayer.attn l])
           (Decoder.dec_layers (Transformer.decoder m)).

(** the constructor [c] raises [e], whatever the generator *)
Definition raises {A} (c : Ctor A) (e : exn) : Prop :=
  forall g, fst (c g) = Raise e.

(** every entry is finite or [-inf]: what a score column holds after
    masking *)
Definition maskable (n : nat) (x : nat -> num) : Prop :=
  forall k, (k < n)%nat -> x k = NInf \/ is_fin (x k).

(** some entry is finite *)
Definition some_finite (n : nat) (x : nat -> num) : Prop :=
  exists k, (k < n)%nat /\ is_fin (x k).

(** every element inside the shape is finite *)
Definition finite3 (t : tensor3) : Prop :=
  forall b i j, b < dim0 t -> i < dim1 t -> j < dim2 t -> is_fin (at3 t b i j).

(** every weight and every bias of the layer is finite *)
Definition finite_linear (l : Linear.t) : Prop :=
  (forall o k, o < rows (Linear.weight l) -> k < cols (Linear.weight l) ->
               is_fin (at2 (Linear.weight l) o k)) /\
  (forall o, o < len (Linear.bias l) -> is_fin (at1 (Linear.bias l) o)).

(** the layer [l] is well formed and takes inputs of the width of [x] *)
Definition accepts (l : Linear.t) (x : tensor3) : Prop :=
  dim2 x = Linear.in_features l /\ len (Linear.bias l) = Linear.out_features l.

(** the value of [l(x)] at an index *)
Definition projected (l : Linear.t) (x : tensor3) : nat -> nat -> nat -> num :=
  fun b i o =>
    Num.add (Num.sum (cols (Linear.weight l))
               (fun k => Num.mul (at3 x b i k) (at2 (Linear.weight l) o k)))
            (at1 (Linear.bias l) (torch.bidx (len (Linear.bias l)) o)).

(** the value of [scores], before masking, at an index *)
Definition scaled_scores (h : SelfAttention.t) (q k : tensor3)
  : nat -> nat -> nat -> num :=
  fun b i j =>
    Num.div
      (Num.sum (Linear.out_features (SelfAttention.query h))
         (fun c => Num.mul (projected (SelfAttention.query h) q b i c)
                           (projected (SelfAttention.key h) k b j c)))
      (Num.sqrt (of_nat (Linear.out_features (SelfAttention.key h)))).

(** a head whose projections are well formed, take inputs of the width of
    [q], [k] and [v], and agree on the width of queries and keys *)
Definition head_accepts (h : SelfAttention.t) (q k v : tensor3) : Prop :=
  accepts (SelfAttention.query h) q /\ accepts (SelfAttention.key h) k /\
  accepts (SelfAttention.value h) v /\
  Linear.out_features (SelfAttention.query h)
  = Linear.out_features (SelfAttention.key h).

(** finite query and key projections, of positive width *)
Definition finite_head (h : SelfAttention.t) : Prop :=
  finite_linear (SelfAttention.query h) /\ finite_linear (SelfAttention.key h) /\
  0 < Linear.out_features (SelfAttention.key h).

(** the column of masked scores that the softmax of a self-attention call
    with a mask normalises: the scores of all queries against key [j] *)
Definition masked_column (h : SelfAttention.t) (x : tensor3) (mask : tensor2)
    (b j : nat) : nat -> num :=
  fun i => if i <? j then NInf
           else if eq0 (at2 mask b j) then NInf
           else scaled_scores h x x b i j.


(** ** Vocabulary of the shape contracts *)

(** on the receiver [s] the method returns, whatever the generator, a
    result satisfying [P], and leaves [s] as it was *)
Definition returns {Self A} (m : Method Self A) (s : Self) (P : A -> Prop) : Prop :=
  forall g, exists a g',
    m {| obj := s; gen := g |} = (Ok a, {| obj := s; gen := g' |}) /\ P a.

(** on a receiver satisfying [P], the method leaves the generator as it
    was: it draws nothing *)
Definition draws_nothing {Self A} (P : Self -> Prop) (m : Method Self A) : Prop :=
  forall w, P (obj w) -> gen (snd (m w)) = gen w.

Definition has_shape (t : tensor3) (n0 n1 n2 : nat) : Prop :=
  dim0 t = n0 /\ dim1 t = n1 /\ dim2 t = n2.

(** a mask argument of an attention call on queries of [tgt_len] positions
    and keys of [seq_len] positions in a batch of [bs]: absent, or of shape
    (bs, seq_len) with as many queries as keys *)
Definition mask_fits (mask : option tensor2) (bs tgt_len seq_len : nat) : Prop :=
  match mask with
  | None => True
  | Some m => rows m = bs /\ cols m = seq_len /\ tgt_len = seq_len
  end.

(** a linear layer with a weight of shape (o, i) and a bias of length o *)
Definition wf_linear (i o : nat) (l : Linear.t) : Prop :=
  Linear.in_features l = i /\ Linear.out_features l = o /\
  len (Linear.bias l) = o.

Definition wf_norm (d : nat) (n : LayerNorm.t) : Prop :=
  LayerNorm.normalized_shape n = d /\ len (LayerNorm.weight n) = d /\
  len (LayerNorm.bias n) = d.

(** a head projecting [d] features to [dh] *)
Definition wf_head (d dh : nat) (h : SelfAttention.t) : Prop :=
  wf_linear d dh (SelfAttention.query h) /\ wf_linear d dh (SelfAttention.key h) /\
  wf_linear d dh (SelfAttention.value h).

(** an attention block of [n] heads projecting [d] features to [dh], with
    an output projection from [dh] features to [d_out] *)
Definition wf_attention (d dh d_out n : nat) (m : MultiHeadedAttention.t) : Prop :=
  length (MultiHeadedAttention.attentions m) = n /\
  Forall (wf_head d dh) (MultiHeadedAttention.attentions m) /\
  wf_linear dh d_out (MultiHeadedAttention.output m).

(** an attention block with exactly one head, of the full width [d] *)
Definition single_head (d : nat) (m : MultiHeadedAttention.t) : Prop :=
  wf_attention d d d 1 m.

(** a feed-forward block from [d] features to [d] through some hidden width *)
Definition wf_ffn (d : nat) (f : Sequential.t) : Prop :=
  exists d_ff, wf_linear d d_ff (Sequential.item0 f) /\
               wf_linear d_ff d (Sequential.item3 f).

Definition wf_encoder_layer (d : nat) (l : EncoderLayer.t) : Prop :=
  single_head d (EncoderLayer.attn l) /\ wf_ffn d (EncoderLayer.ffn l) /\
  wf_norm d (EncoderLayer.attn_norm l) /\ wf_norm d (EncoderLayer.ffn_norm l).

Definition wf_decoder_layer (d : nat) (l : DecoderLayer.t) : Prop :=
  single_head d (DecoderLayer.masked_attn l) /\ single_head d (DecoderLayer.attn l) /\
  wf_ffn d (DecoderLayer.ffn l) /\
  wf_norm d (DecoderLayer.masked_attn_norm l) /\
  wf_norm d (DecoderLayer.attn_norm l) /\ wf_norm d (DecoderLayer.ffn_norm l).

(** a model of one-head layers of width [d] *)
Definition wf_model (d : nat) (m : Transformer.t) : Prop :=
  Forall (wf_encoder_layer d) (Encoder.enc_layers (Transformer.encoder m)) /\
  Forall (wf_decoder_layer d) (Decoder.dec_layers (Transformer.decoder m)).

(** ** Vocabulary of the propagation of [nan] *)

(** every element of batch element [b] of [t] is [nan] *)
Definition poisoned (t : tensor3) (b : nat) : Prop :=
  forall i c, i < dim1 t -> c < dim2 t -> at3 t b i c = NaN.

(** the mask has a 0 in row [b]: it drops a key of batch element [b] *)
Definition drops_a_key (mask : tensor2) (b : nat) : Prop :=
  exists j, j < cols mask /\ eq0 (at2 mask b j) = true.

(** ** [EncoderLayer.forward] after the call of [self.attn]

    The lines of [EncoderLayer.forward] that follow the attention call, from
    the sum [x + self.attn(...)] on, as a method of the attention output
    [a]. *)
Definition encoder_layer_tail (x a : tensor3) : Method EncoderLayer.t tensor3 :=
  x <- lift (torch.add x a) ;;
  x <- call EncoderLayer.attn_norm EncoderLayer.set_attn_norm (LayerNorm.forward x) ;;
  f <- call EncoderLayer.ffn EncoderLayer.set_ffn (Sequential.forward x) ;;
  x <- lift (torch.add x f) ;;
  x <- call EncoderLayer.ffn_norm EncoderLayer.set_ffn_norm (LayerNorm.forward x) ;;
  ret x.

(** * Properties *)

(** ** Laws of the method monad

    Three properties of a method are proved by following its text:
    [frame] (the receiving object is left as it was), [det] (the result does
    not depend on the generator, for receivers satisfying a predicate) and
    [rt] (the only exception raised is [RuntimeError]). *)

Section MethodLaws.

Context {Self T A B : Type}.

Lemma frame_ret (a : A) : frame (ret a : Method Self A).
Proof. intros w. reflexivity. Qed.

Lemma frame_lift (r : Res A) : frame (lift r : Method Self A).
Proof. intros w. reflexivity. Qed.

Lemma frame_this : frame (this : Method Self Self).
Proof. intros w. reflexivity. Qed.

Lemma frame_with_gen (c : M Rng A) : frame (with_gen c : Method Self A).
Proof. intros w. unfold with_gen. destruct (c (gen w)). reflexivity. Qed.

Lemma frame_bind (m : Method Self A) (f : A -> Method Self B) :
  frame m -> (forall a, frame (f a)) -> frame (bind m f).
Proof.
  intros Hm Hf w. unfold bind. specialize (Hm w).
  destruct (m w) as [[a | e] w']; simpl in *.
  - rewrite Hf. exact Hm.
  - exact Hm.
Qed.

Lemma frame_call (get : Self -> T) (set : T -> Self -> Self) (m : Method T A) :
  (forall s, set (get s) s = s) -> frame m -> frame (call get set m).
Proof.
  intros Hlens Hm w. unfold call.
  specialize (Hm {| obj := get (obj w); gen := gen w |}).
  destruct (m _) as [r w']; simpl in *. rewrite Hm. apply Hlens.
Qed.

Lemma visit_same (step : A -> B -> Method T A) :
  (forall a b, frame (step a b)) ->
  forall l acc arg g, snd (fst (visit step l acc arg g)) = l.
Proof.
  intros Hs l. induction l as [| x rest IH]; intros acc arg g; simpl.
  - reflexivity.
  - pose proof (Hs acc arg {| obj := x; gen := g |}) as Hx.
    destruct (step acc arg _) as [[a | e] w]; simpl in *.
    + specialize (IH a arg (gen w)).
      destruct (visit step rest a arg (gen w)) as [[r rest'] g']; simpl in *.
      congruence.
    + congruence.
Qed.

Lemma frame_for_each (get : Self -> list T) (set : list T -> Self -> Self)
    (step : A -> B -> Method T A) acc arg :
  (forall s, set (get s) s = s) -> (forall a b, frame (step a b)) ->
  frame (for_each get set step acc arg).
Proof.
  intros Hlens Hs w. unfold for_each.
  pose proof (visit_same step Hs (get (obj w)) acc arg (gen w)) as H.
  destruct (visit _ _ _ _ _) as [[r l] g]; simpl in *. subst l. apply Hlens.
Qed.

Lemma comprehend_same (f : B -> Method T A) :
  (forall b, frame (f b)) ->
  forall l arg g, snd (fst (comprehend f l arg g)) = l.
Proof.
  intros Hf l. induction l as [| x rest IH]; intros arg g; simpl.
  - reflexivity.
  - pose proof (Hf arg {| obj := x; gen := g |}) as Hx.
    destruct (f arg _) as [[a | e] w]; simpl in *.
    + specialize (IH arg (gen w)).
      destruct (comprehend f rest arg (gen w)) as [[[tl | e] rest'] g'];
        simpl in *; congruence.
    + congruence.
Qed.

Lemma frame_list_of (get : Self -> list T) (set : list T -> Self -> Self)
    (f : B -> Method T A) arg :
  (forall s, set (get s) s = s) -> (forall b, frame (f b)) ->
  frame (list_of get set f arg).
Proof.
  intros Hlens Hf w. unfold list_of.
  pose proof (comprehend_same f Hf (get (obj w)) arg (gen w)) as H.
  destruct (comprehend _ _ _ _) as [[r l] g]; simpl in *. subst l. apply Hlens.
Qed.

(** *** independence of the generator *)

Lemma det_ret (P : Self -> Prop) (a : A) : det P (ret a).
Proof. intros w1 w2 _ _. reflexivity. Qed.

Lemma det_lift (P : Self -> Prop) (r : Res A) : det P (lift r).
Proof. intros w1 w2 _ _. reflexivity. Qed.

Lemma det_this (P : Self -> Prop) : det P (this : Method Self Self).
Proof. intros w1 w2 H _. simpl. now rewrite H. Qed.

Lemma det_bind (P : Self -> Prop) (m : Method Self A) (f : A -> Method Self B) :
  det P m -> frame m -> (forall a, det P (f a)) -> det P (bind m f).
Proof.
  intros Hm Hfr Hf w1 w2 Hobj HP. unfold bind.
  pose proof (Hm w1 w2 Hobj HP) as Hres.
  pose proof (Hfr w1) as H1. pose proof (Hfr w2) as H2.
  destruct (m w1) as [[a1 | e1] w1'], (m w2) as [[a2 | e2] w2'];
    simpl in *; try congruence.
  inversion Hres; subst a2. apply Hf; congruence.
Qed.

(** binding [self] first, the rest may use what [P] says of it *)
Lemma det_bind_this (P : Self -> Prop) (f : Self -> Method Self B) :
  (forall s, P s -> det (fun s' => s' = s) (f s)) -> det P (bind this f).
Proof.
  intros Hf w1 w2 Hobj HP. unfold bind, this. rewrite <- Hobj.
  apply (Hf (obj w1) HP); congruence.
Qed.

Lemma det_call (P : Self -> Prop) (Q : T -> Prop)
    (get : Self -> T) (set : T -> Self -> Self) (m : Method T A) :
  (forall s, P s -> Q (get s)) -> det Q m -> det P (call get set m).
Proof.
  intros HPQ Hm w1 w2 Hobj HP. unfold call.
  pose proof (Hm {| obj := get (obj w1); gen := gen w1 |}
                 {| obj := get (obj w2); gen := gen w2 |}) as H.
  simpl in H. rewrite Hobj in H at 1. specialize (H eq_refl (HPQ _ HP)).
  destruct (m _) as [r1 w1'], (m _) as [r2 w2']. exact H.
Qed.

Lemma visit_det (Q : T -> Prop) (step : A -> B -> Method T A) :
  (forall a b, det Q (step a b)) ->
  forall l acc arg g1 g2, Forall Q l ->
    fst (fst (visit step l acc arg g1)) = fst (fst (visit step l acc arg g2)).
Proof.
  intros Hs l. induction l as [| x rest IH]; intros acc arg g1 g2 HQ; simpl.
  - reflexivity.
  - inversion HQ as [| ? ? Hx Hrest]; subst.
    pose proof (Hs acc arg {| obj := x; gen := g1 |} {| obj := x; gen := g2 |}
                   eq_refl Hx) as H.
    destruct (step acc arg _) as [[a1 | e1] w1], (step acc arg _) as [[a2 | e2] w2];
      simpl in *; try congruence.
    inversion H; subst a2.
    specialize (IH a1 arg (gen w1) (gen w2) Hrest).
    destruct (visit step rest a1 arg (gen w1)) as [[r1 l1] g1'],
             (visit step rest a1 arg (gen w2)) as [[r2 l2] g2']. exact IH.
Qed.

Lemma det_for_each (P : Self -> Prop) (Q : T -> Prop)
    (get : Self -> list T) (set : list T -> Self -> Self)
    (step : A -> B -> Method T A) acc arg :
  (forall s, P s -> Forall Q (get s)) -> (forall a b, det Q (step a b)) ->
  det P (for_each get set step acc arg).
Proof.
  intros HPQ Hs w1 w2 Hobj HP. unfold for_each.
  pose proof (visit_det Q step Hs (get (obj w1)) acc arg (gen w1) (gen w2) (HPQ _ HP)) as H.
  rewrite <- Hobj.
  destruct (visit _ _ _ _ (gen w1)) as [[r1 l1] g1],
           (visit _ _ _ _ (gen w2)) as [[r2 l2] g2]. exact H.
Qed.

Lemma comprehend_det (Q : T -> Prop) (f : B -> Method T A) :
  (forall b, det Q (f b)) ->
  forall l arg g1 g2, Forall Q l ->
    fst (fst (comprehend f l arg g1)) = fst (fst (comprehend f l arg g2)).
Proof.
  intros Hf l. induction l as [| x rest IH]; intros arg g1 g2 HQ; simpl.
  - reflexivity.
  - inversion HQ as [| ? ? Hx Hrest]; subst.
    pose proof (Hf arg {| obj := x; gen := g1 |} {| obj := x; gen := g2 |}
                   eq_refl Hx) as H.
    destruct (f arg _) as [[a1 | e1] w1], (f arg _) as [[a2 | e2] w2];
      simpl in *; try congruence.
    inversion H; subst a2.
    specialize (IH arg (gen w1) (gen w2) Hrest).
    destruct (comprehend f rest arg (gen w1)) as [[[t1 | e1] l1] g1'],
             (comprehend f rest arg (gen w2)) as [[[t2 | e2] l2] g2'];
      simpl in *; congruence.
Qed.

Lemma det_list_of (P : Self -> Prop) (Q : T -> Prop)
    (get : Self -> list T) (set : list T -> Self -> Self)
    (f : B -> Method T A) arg :
  (forall s, P s -> Forall Q (get s)) -> (forall b, det Q (f b)) ->
  det P (list_of get set f arg).
Proof.
  intros HPQ Hf w1 w2 Hobj HP. unfold list_of.
  pose proof (comprehend_det Q f Hf (get (obj w1)) arg (gen w1) (gen w2) (HPQ _ HP)) as H.
  rewrite <- Hobj.
  destruct (comprehend _ _ _ (gen w1)) as [[r1 l1] g1],
           (comprehend _ _ _ (gen w2)) as [[r2 l2] g2]. exact H.
Qed.

End MethodLaws.

Ltac lens := now intros [].

Ltac frame_step :=
  first [ apply frame_ret | apply frame_lift | apply frame_this
        | apply frame_with_gen
        | apply frame_call; [ lens | ]
        | apply frame_for_each; [ lens | intros ]
        | apply frame_list_of; [ lens | intros ]
        | apply frame_bind; [ | intros ] ].

Ltac det_step :=
  first [ apply det_ret | apply det_lift | apply det_this
        | apply det_bind; [ | | intros ] ].

(** ** No method assigns to its receiver *)

Lemma Linear_forward_frame x : frame (Linear.forward x).
Proof. unfold Linear.forward. repeat frame_step. Qed.

Lemma LayerNorm_forward_frame x : frame (LayerNorm.forward x).
Proof. unfold LayerNorm.forward. repeat frame_step. Qed.

Lemma Dropout_forward_frame x : frame (Dropout.forward x).
Proof. unfold Dropout.forward. repeat frame_step. Qed.

Lemma SelfAttention_attention_frame q k v mask :
  frame (SelfAttention.attention q k v mask).
Proof.
  unfold SelfAttention.attention; cbv zeta.
  repeat (frame_step; try apply Linear_forward_frame).
  destruct mask; repeat frame_step.
Qed.

Lemma SelfAttention_forward_frame q k v mask :
  frame (SelfAttention.forward q k v mask).
Proof.
  unfold SelfAttention.forward.
  apply frame_bind; [ apply SelfAttention_attention_frame | intros; frame_step ].
Qed.

Lemma MultiHeadedAttention_forward_frame q k v mask :
  frame (MultiHeadedAttention.forward q k v mask).
Proof.
  unfold MultiHeadedAttention.forward.
  repeat (frame_step; try apply Linear_forward_frame).
  destruct b as [[[q' k'] v'] mask']. apply SelfAttention_forward_frame.
Qed.

Lemma Sequential_forward_frame x : frame (Sequential.forward x).
Proof.
  unfold Sequential.forward; cbv zeta.
  repeat (frame_step; try apply Linear_forward_frame;
          try apply Dropout_forward_frame).
Qed.

Lemma EncoderLayer_forward_frame src src_mask :
  frame (EncoderLayer.forward src src_mask).
Proof.
  unfold EncoderLayer.forward; cbv zeta.
  repeat (frame_step; try apply MultiHeadedAttention_forward_frame;
          try apply LayerNorm_forward_frame; try apply Sequential_forward_frame).
Qed.

Lemma DecoderLayer_forward_frame tgt enc tgt_mask enc_mask :
  frame (DecoderLayer.forward tgt enc tgt_mask enc_mask).
Proof.
  unfold DecoderLayer.forward; cbv zeta.
  repeat (frame_step; try apply MultiHeadedAttention_forward_frame;
          try apply LayerNorm_forward_frame; try apply Sequential_forward_frame).
Qed.

Lemma Encoder_forward_frame src src_mask : frame (Encoder.forward src src_mask).
Proof.
  unfold Encoder.forward; cbv zeta. frame_step. apply EncoderLayer_forward_frame.
Qed.

Lemma Decoder_forward_frame tgt enc tgt_mask enc_mask :
  frame (Decoder.forward tgt enc tgt_mask enc_mask).
Proof.
  unfold Decoder.forward; cbv zeta. frame_step.
  destruct b as [[enc' tm] em]. apply DecoderLayer_forward_frame.
Qed.

Lemma Transformer_forward_frame src tgt src_mask tgt_mask :
  frame (Transformer.forward src tgt src_mask tgt_mask).
Proof.
  unfold Transformer.forward.
  repeat (frame_step; try apply Encoder_forward_frame;
          try apply Decoder_forward_frame).
Qed.

(** C9.  A forward pass leaves every parameter unchanged: whatever the
    inputs, the generator and the outcome (a result or an exception), the
    model object after [Transformer.forward] (all linear weights and biases,
    all layer-norm scale and shift vectors, every mode flag) is the model
    object before it. *)
Theorem forward_leaves_parameters_unchanged :
  forall (src tgt : tensor3) (src_mask tgt_mask : option tensor2)
         (model : Transformer.t) (g : Rng),
    obj (snd (Transformer.forward src tgt src_mask tgt_mask
                {| obj := model; gen := g |})) = model.
Proof.
  intros. apply (Transformer_forward_frame src tgt src_mask tgt_mask
                   {| obj := model; gen := g |}).
Qed.

(** ** In evaluation mode the generator is not consulted *)

Lemma Linear_forward_det P x : det P (Linear.forward x).
Proof. unfold Linear.forward. repeat det_step. apply frame_this. Qed.

Lemma LayerNorm_forward_det P x : det P (LayerNorm.forward x).
Proof. unfold LayerNorm.forward. repeat det_step. apply frame_this. Qed.

Lemma Dropout_forward_det x : det Dropout.eval_mode (Dropout.forward x).
Proof.
  unfold Dropout.forward. apply det_bind_this. intros s Hs w1 w2 _ _.
  unfold Dropout.eval_mode in Hs. unfold with_gen, torch.dropout.
  rewrite Hs. reflexivity.
Qed.

Lemma SelfAttention_attention_det P q k v mask :
  det P (SelfAttention.attention q k v mask).
Proof.
  unfold SelfAttention.attention; cbv zeta.
  repeat (first
    [ apply det_call with (Q := fun _ => True);
        [ trivial | apply Linear_forward_det ]
    | apply frame_call; [ lens | apply Linear_forward_frame ]
    | apply frame_lift
    | det_step ]).
  - destruct mask; repeat (first [ apply frame_lift | det_step ]).
  - destruct mask; repeat frame_step.
Qed.

Lemma SelfAttention_forward_det P q k v mask :
  det P (SelfAttention.forward q k v mask).
Proof.
  unfold SelfAttention.forward. apply det_bind.
  - apply SelfAttention_attention_det.
  - apply SelfAttention_attention_frame.
  - intros. apply det_lift.
Qed.

Lemma MultiHeadedAttention_forward_det P q k v mask :
  det P (MultiHeadedAttention.forward q k v mask).
Proof.
  unfold MultiHeadedAttention.forward.
  apply det_bind; [ | | intros; apply det_bind; [ | | intros; apply det_bind ] ].
  - apply det_list_of with (Q := fun _ => True).
    + intros s _. apply Forall_forall. trivial.
    + intros [[[q' k'] v'] mask']. apply SelfAttention_forward_det.
  - frame_step. destruct b as [[[q' k'] v'] mask']. apply SelfAttention_forward_frame.
  - apply det_lift.
  - apply frame_lift.
  - apply det_call with (Q := fun _ => True); [ trivial | apply Linear_forward_det ].
  - frame_step. apply Linear_forward_frame.
  - intros. apply det_ret.
Qed.

Lemma Sequential_forward_det x : det Sequential.eval_mode (Sequential.forward x).
Proof.
  unfold Sequential.forward; cbv zeta.
  repeat (first
    [ apply det_call with (Q := fun _ => True);
        [ trivial | apply Linear_forward_det ]
    | apply det_call with (Q := Dropout.eval_mode);
        [ now intros s [H2 H4] | apply Dropout_forward_det ]
    | apply frame_call; [ lens | first [ apply Linear_forward_frame
                                       | apply Dropout_forward_frame ] ]
    | det_step ]).
Qed.

Lemma EncoderLayer_forward_det src src_mask :
  det EncoderLayer.eval_mode (EncoderLayer.forward src src_mask).
Proof.
  unfold EncoderLayer.forward; cbv zeta.
  repeat (first
    [ apply det_call with (Q := fun _ => True);
        [ trivial | first [ apply MultiHeadedAttention_forward_det
                          | apply LayerNorm_forward_det ] ]
    | apply det_call with (Q := Sequential.eval_mode);
        [ now intros s [H1 H2] | apply Sequential_forward_det ]
    | apply frame_call; [ lens | first [ apply MultiHeadedAttention_forward_frame
                                       | apply LayerNorm_forward_frame
                                       | apply Sequential_forward_frame ] ]
    | apply frame_lift
    | det_step ]).
Qed.

Lemma DecoderLayer_forward_det tgt enc tgt_mask enc_mask :
  det DecoderLayer.eval_mode (DecoderLayer.forward tgt enc tgt_mask enc_mask).
Proof.
  unfold DecoderLayer.forward; cbv zeta.
  repeat (first
    [ apply det_call with (Q := fun _ => True);
        [ trivial | first [ apply MultiHeadedAttention_forward_det
                          | apply LayerNorm_forward_det ] ]
    | apply det_call with (Q := Sequential.eval_mode);
        [ now intros s [H1 [H2 H3]] | apply Sequential_forward_det ]
    | apply frame_call; [ lens | first [ apply MultiHeadedAttention_forward_frame
                                       | apply LayerNorm_forward_frame
                                       | apply Sequential_forward_frame ] ]
    | apply frame_lift
    | det_step ]).
Qed.

Lemma Encoder_forward_det src src_mask :
  det Encoder.eval_mode (Encoder.forward src src_mask).
Proof.
  unfold Encoder.forward; cbv zeta.
  apply det_for_each with (Q := EncoderLayer.eval_mode).
  - intros s Hs. exact Hs.
  - intros. apply EncoderLayer_forward_det.
Qed.

Lemma Decoder_forward_det tgt enc tgt_mask enc_mask :
  det Decoder.eval_mode (Decoder.forward tgt enc tgt_mask enc_mask).
Proof.
  unfold Decoder.forward; cbv zeta.
  apply det_for_each with (Q := DecoderLayer.eval_mode).
  - intros s Hs. exact Hs.
  - intros a [[enc' tm] em]. apply DecoderLayer_forward_det.
Qed.

Lemma Transformer_forward_det src tgt src_mask tgt_mask :
  det Transformer.eval_mode (Transformer.forward src tgt src_mask tgt_mask).
Proof.
  unfold Transformer.forward.
  apply det_bind; [ | | intros; apply det_bind ].
  - apply det_call with (Q := Encoder.eval_mode);
      [ now intros s [H1 H2] | apply Encoder_forward_det ].
  - frame_step. apply Encoder_forward_frame.
  - apply det_call with (Q := Decoder.eval_mode);
      [ now intros s [H1 H2] | apply Decoder_forward_det ].
  - frame_step. apply Decoder_forward_frame.
  - intros. apply det_ret.
Qed.

(** C8.  With dropout disabled (the model in evaluation mode), two runs of
    [Transformer.forward] on the same model and the same inputs return the
    same outcome: whatever the state of the random generator in each run,
    and in particular when the second run starts in the state the first one
    left. *)
Theorem forward_deterministic_in_eval_mode :
  forall (model : Transformer.t) (src tgt : tensor3)
         (src_mask tgt_mask : option tensor2) (g1 g2 : Rng),
    Transformer.eval_mode model ->
    fst (Transformer.forward src tgt src_mask tgt_mask {| obj := model; gen := g1 |})
    = fst (Transformer.forward src tgt src_mask tgt_mask {| obj := model; gen := g2 |}) /\
    fst (Transformer.forward src tgt src_mask tgt_mask {| obj := model; gen := g1 |})
    = fst (Transformer.forward src tgt src_mask tgt_mask
             (snd (Transformer.forward src tgt src_mask tgt_mask
                     {| obj := model; gen := g1 |}))).
Proof.
  intros model src tgt src_mask tgt_mask g1 g2 Heval. split.
  - apply Transformer_forward_det; [ reflexivity | exact Heval ].
  - apply Transformer_forward_det; [ | exact Heval ].
    symmetry. apply Transformer_forward_frame.
Qed.

(** ** The exceptions of a forward pass are shape errors *)

Section RaiseLaws.

Context {Self T A B : Type}.

Lemma rt_ret {St} (a : A) : rt (ret a : M St A).
Proof. intros s e H. discriminate. Qed.

Lemma rt_lift {St} (r : Res A) : rt_res r -> rt (lift r : M St A).
Proof. intros Hr s e H. apply Hr. exact H. Qed.

Lemma rt_this : rt (this : Method Self Self).
Proof. intros s e H. discriminate. Qed.

Lemma rt_bind {St} (m : M St A) (f : A -> M St B) :
  rt m -> (forall a, rt (f a)) -> rt (bind m f).
Proof.
  intros Hm Hf s e. unfold bind. specialize (Hm s).
  destruct (m s) as [[a | e'] s']; simpl in *.
  - apply Hf.
  - intros H. apply Hm. congruence.
Qed.

Lemma rt_with_gen (c : M Rng A) : rt c -> rt (with_gen c : Method Self A).
Proof.
  intros Hc w e. unfold with_gen. specialize (Hc (gen w)).
  destruct (c (gen w)) as [r g]. exact (Hc e).
Qed.

Lemma rt_call (get : Self -> T) (set : T -> Self -> Self) (m : Method T A) :
  rt m -> rt (call get set m).
Proof.
  intros Hm w e. unfold call.
  specialize (Hm {| obj := get (obj w); gen := gen w |}).
  destruct (m _) as [r w']. exact (Hm e).
Qed.

Lemma visit_rt (step : A -> B -> Method T A) :
  (forall a b, rt (step a b)) ->
  forall l acc arg g e, fst (fst (visit step l acc arg g)) = Raise e ->
                        e = RuntimeError.
Proof.
  intros Hs l. induction l as [| x rest IH]; intros acc arg g e; simpl.
  - discriminate.
  - pose proof (Hs acc arg {| obj := x; gen := g |}) as Hx.
    destruct (step acc arg _) as [[a | e'] w]; simpl in *.
    + specialize (IH a arg (gen w) e).
      destruct (visit step rest a arg (gen w)) as [[r rest'] g']. exact IH.
    + apply Hx.
Qed.

Lemma rt_for_each (get : Self -> list T) (set : list T -> Self -> Self)
    (step : A -> B -> Method T A) acc arg :
  (forall a b, rt (step a b)) -> rt (for_each get set step acc arg).
Proof.
  intros Hs w e. unfold for_each.
  pose proof (visit_rt step Hs (get (obj w)) acc arg (gen w) e) as H.
  destruct (visit _ _ _ _ _) as [[r l] g]. exact H.
Qed.

Lemma comprehend_rt (f : B -> Method T A) :
  (forall b, rt (f b)) ->
  forall l arg g e, fst (fst (comprehend f l arg g)) = Raise e ->
                    e = RuntimeError.
Proof.
  intros Hf l. induction l as [| x rest IH]; intros arg g e; simpl.
  - discriminate.
  - pose proof (Hf arg {| obj := x; gen := g |}) as Hx.
    destruct (f arg _) as [[a | e'] w]; simpl in *.
    + specialize (IH arg (gen w) e).
      destruct (comprehend f rest arg (gen w)) as [[[tl | e''] rest'] g'];
        simpl in *; [ discriminate | exact IH ].
    + intros H. apply Hx. congruence.
Qed.

Lemma rt_list_of (get : Self -> list T) (set : list T -> Self -> Self)
    (f : B -> Method T A) arg :
  (forall b, rt (f b)) -> rt (list_of get set f arg).
Proof.
  intros Hf w e. unfold list_of.
  pose proof (comprehend_rt f Hf (get (obj w)) arg (gen w) e) as H.
  destruct (comprehend _ _ _ _) as [[r l] g]. exact H.
Qed.

End RaiseLaws.

Ltac rt_if :=
  intros e; repeat match goal with
                   | |- context [if ?c then _ else _] => destruct c
                   | |- context [match ?c with Some _ => _ | None => _ end] => destruct c
                   end; congruence.

Lemma linear_rt x w b : rt_res (torch.linear x w b).
Proof. unfold torch.linear. rt_if. Qed.

Lemma bmm_rt x y : rt_res (torch.bmm x y).
Proof. unfold torch.bmm. rt_if. Qed.

Lemma expand_rt t n0 n1 n2 : rt_res (torch.expand t n0 n1 n2).
Proof. unfold torch.expand. rt_if. Qed.

Lemma masked_fill_rt t m v : rt_res (torch.masked_fill t m v).
Proof. unfold torch.masked_fill. rt_if. Qed.

Lemma softmax1_rt t : rt_res (torch.softmax t 1).
Proof. intros e. simpl. discriminate. Qed.

Lemma add_rt x y : rt_res (torch.add x y).
Proof. unfold torch.add. rt_if. Qed.

Lemma layer_norm_rt x d w b eps : rt_res (torch.layer_norm x d w b eps).
Proof. unfold torch.layer_norm. rt_if. Qed.

Lemma cat2_1_rt x y : rt_res (torch.cat2 x y 1).
Proof. unfold torch.cat2. rt_if. Qed.

Lemma cat1_rt ts : rt_res (torch.cat ts 1).
Proof.
  induction ts as [| x rest IH]; intros e; simpl.
  - congruence.
  - destruct rest as [| y rest'].
    + discriminate.
    + destruct (torch.cat (y :: rest') 1) as [c | e'].
      * apply cat2_1_rt.
      * intros H. apply IH. congruence.
Qed.

Lemma dropout_rt x p tr : rt (torch.dropout x p tr).
Proof. intros g e. unfold torch.dropout. destruct tr; simpl; discriminate. Qed.

Ltac rt_step :=
  first [ apply rt_ret | apply rt_this
        | apply rt_lift;
          first [ apply linear_rt | apply bmm_rt | apply expand_rt
                | apply masked_fill_rt | apply softmax1_rt | apply add_rt
                | apply layer_norm_rt | apply cat1_rt ]
        | apply rt_with_gen; apply dropout_rt
        | apply rt_call
        | apply rt_for_each; intros
        | apply rt_list_of; intros
        | apply rt_bind; [ | intros ] ].

Lemma Linear_forward_rt x : rt (Linear.forward x).
Proof. unfold Linear.forward. repeat rt_step. Qed.

Lemma LayerNorm_forward_rt x : rt (LayerNorm.forward x).
Proof. unfold LayerNorm.forward. repeat rt_step. Qed.

Lemma Dropout_forward_rt x : rt (Dropout.forward x).
Proof. unfold Dropout.forward. repeat rt_step. Qed.

Lemma SelfAttention_attention_rt q k v mask :
  rt (SelfAttention.attention q k v mask).
Proof.
  unfold SelfAttention.attention; cbv zeta.
  repeat (rt_step; try apply Linear_forward_rt).
  destruct mask; repeat rt_step.
Qed.

Lemma SelfAttention_forward_rt q k v mask : rt (SelfAttention.forward q k v mask).
Proof.
  unfold SelfAttention.forward.
  apply rt_bind; [ apply SelfAttention_attention_rt | intros; rt_step ].
Qed.

Lemma MultiHeadedAttention_forward_rt q k v mask :
  rt (MultiHeadedAttention.forward q k v mask).
Proof.
  unfold MultiHeadedAttention.forward.
  repeat (rt_step; try apply Linear_forward_rt).
  destruct b as [[[q' k'] v'] mask']. apply SelfAttention_forward_rt.
Qed.

Lemma Sequential_forward_rt x : rt (Sequential.forward x).
Proof.
  unfold Sequential.forward; cbv zeta.
  repeat (rt_step; try apply Linear_forward_rt; try apply Dropout_forward_rt).
Qed.

Lemma EncoderLayer_forward_rt src src_mask : rt (EncoderLayer.forward src src_mask).
Proof.
  unfold EncoderLayer.forward; cbv zeta.
  repeat (rt_step; try apply MultiHeadedAttention_forward_rt;
          try apply LayerNorm_forward_rt; try apply Sequential_forward_rt).
Qed.

Lemma DecoderLayer_forward_rt tgt enc tgt_mask enc_mask :
  rt (DecoderLayer.forward tgt enc tgt_mask enc_mask).
Proof.
  unfold DecoderLayer.forward; cbv zeta.
  repeat (rt_step; try apply MultiHeadedAttention_forward_rt;
          try apply LayerNorm_forward_rt; try apply Sequential_forward_rt).
Qed.

Lemma Encoder_forward_rt src src_mask : rt (Encoder.forward src src_mask).
Proof.
  unfold Encoder.forward; cbv zeta. rt_step. apply EncoderLayer_forward_rt.
Qed.

Lemma Decoder_forward_rt tgt enc tgt_mask enc_mask :
  rt (Decoder.forward tgt enc tgt_mask enc_mask).
Proof.
  unfold Decoder.forward; cbv zeta. rt_step.
  destruct b as [[enc' tm] em]. apply DecoderLayer_forward_rt.
Qed.

(** ** Reading a successful run backwards *)

Lemma bind_Ok_inv {St A B} (m : M St A) (f : A -> M St B) s b s' :
  bind m f s = (Ok b, s') ->
  exists a s1, m s = (Ok a, s1) /\ f a s1 = (Ok b, s').
Proof.
  unfold bind. destruct (m s) as [[a | e] s1]; intros H.
  - exists a, s1. split; [ reflexivity | exact H ].
  - discriminate.
Qed.

Lemma lift_Ok_inv {St A} (r : Res A) (s s' : St) a :
  lift r s = (Ok a, s') -> r = Ok a /\ s' = s.
Proof. unfold lift. intros H. inversion H. split; reflexivity. Qed.

Lemma ret_Ok_inv {St A} (x a : A) (s s' : St) :
  ret x s = (Ok a, s') -> a = x /\ s' = s.
Proof. unfold ret. intros H. inversion H. split; reflexivity. Qed.

Lemma call_Linear_forward {Self} (get : Self -> Linear.t) set x (w : World Self) :
  call get set (Linear.forward x) w
  = (torch.linear x (Linear.weight (get (obj w))) (Linear.bias (get (obj w))),
     {| obj := set (get (obj w)) (obj w); gen := gen w |}).
Proof. reflexivity. Qed.

(** a method that cannot return raises [RuntimeError] *)
Lemma rt_not_Ok {St A} (m : M St A) s :
  rt m -> (forall a s', m s <> (Ok a, s')) -> fst (m s) = Raise RuntimeError.
Proof.
  intros Hrt Hno. specialize (Hrt s).
  destruct (m s) as [[a | e] s'] eqn:E; simpl in *.
  - exfalso. apply (Hno a s'). reflexivity.
  - rewrite (Hrt e eq_refl). reflexivity.
Qed.

Lemma attention_inv q k v mask s g weights value_ w' :
  SelfAttention.attention q k v mask {| obj := s; gen := g |}
    = (Ok (weights, value_), w') ->
  exists query_ key_ prod sc,
    torch.linear q (Linear.weight (SelfAttention.query s))
                   (Linear.bias (SelfAttention.query s)) = Ok query_ /\
    torch.linear k (Linear.weight (SelfAttention.key s))
                   (Linear.bias (SelfAttention.key s)) = Ok key_ /\
    torch.linear v (Linear.weight (SelfAttention.value s))
                   (Linear.bias (SelfAttention.value s)) = Ok value_ /\
    torch.bmm query_ (torch.transpose12 key_) = Ok prod /\
    masking q k mask
      (torch.div_scalar prod (Num.sqrt (of_nat (dim2 key_)))) sc /\
    torch.softmax sc 1 = Ok weights.
Proof.
  unfold SelfAttention.attention; cbv zeta. intros H.
  destruct s as [Lq Lk Lv Dr].
  apply bind_Ok_inv in H. destruct H as (query_ & w1 & H1 & H).
  rewrite call_Linear_forward in H1. simpl in H1. injection H1 as H1 <-.
  apply bind_Ok_inv in H. destruct H as (key_ & w2 & H2 & H).
  rewrite call_Linear_forward in H2. simpl in H2. injection H2 as H2 <-.
  apply bind_Ok_inv in H. destruct H as (val & w3 & H3 & H).
  rewrite call_Linear_forward in H3. simpl in H3. injection H3 as H3 <-.
  apply bind_Ok_inv in H. destruct H as (prod & w4 & H4 & H).
  apply lift_Ok_inv in H4. destruct H4 as [H4 ->].
  apply bind_Ok_inv in H. destruct H as (sc & w5 & H5 & H).
  apply bind_Ok_inv in H. destruct H as (wts & w6 & H6 & H).
  apply lift_Ok_inv in H6. destruct H6 as [H6 ->].
  apply ret_Ok_inv in H. destruct H as [H ->]. injection H as <- <-.
  exists query_, key_, prod, sc. simpl.
  repeat split; try assumption.
  unfold masking. destruct mask as [mask |].
  - apply bind_Ok_inv in H5. destruct H5 as (em & w7 & H7 & H5).
    apply lift_Ok_inv in H7. destruct H7 as [H7 ->].
    apply bind_Ok_inv in H5. destruct H5 as (sm & w8 & H8 & H5).
    apply lift_Ok_inv in H8. destruct H8 as [H8 ->].
    apply bind_Ok_inv in H5. destruct H5 as (s1 & w9 & H9 & H5).
    apply lift_Ok_inv in H9. destruct H9 as [H9 ->].
    apply lift_Ok_inv in H5. destruct H5 as [H5 _].
    exists em, sm, s1. repeat split; assumption.
  - apply ret_Ok_inv in H5. destruct H5 as [H5 _]. exact H5.
Qed.

(** ** Calls that cannot return *)

Lemma never_ok_raises {Self A} (m : Method Self A) s g :
  rt m -> never_ok m s -> fst (m {| obj := s; gen := g |}) = Raise RuntimeError.
Proof. intros Hrt Hno. apply rt_not_Ok; [ exact Hrt | apply Hno ]. Qed.

Lemma never_ok_bind {Self A B} (m : Method Self A) (f : A -> Method Self B) s :
  never_ok m s -> never_ok (bind m f) s.
Proof.
  intros Hm g b w' H. apply bind_Ok_inv in H. destruct H as (a & w1 & H1 & _).
  exact (Hm g a w1 H1).
Qed.

Lemma never_ok_call {Self T A} (get : Self -> T) set (m : Method T A) s :
  never_ok m (get s) -> never_ok (call get set m) s.
Proof.
  intros Hm g a w'. unfold call; simpl.
  destruct (m {| obj := get s; gen := g |}) as [r w1] eqn:E. intros H.
  injection H as -> _. exact (Hm g a w1 E).
Qed.

(** after a first action that keeps the receiver, a continuation that
    cannot return *)
Lemma never_ok_bind_then {Self A B} (m : Method Self A) (f : A -> Method Self B) s :
  frame m -> (forall a, never_ok (f a) s) -> never_ok (bind m f) s.
Proof.
  intros Hfr Hf g b w' H. apply bind_Ok_inv in H. destruct H as (a & w1 & H1 & H2).
  pose proof (Hfr {| obj := s; gen := g |}) as Hs. rewrite H1 in Hs. simpl in Hs.
  destruct w1 as [s1 g1]. simpl in Hs. subst s1. exact (Hf a g1 b w' H2).
Qed.

Lemma never_ok_visit_head {T A B} (step : A -> B -> Method T A) x rest acc arg g :
  never_ok (step acc arg) x ->
  forall a, fst (fst (visit step (x :: rest) acc arg g)) <> Ok a.
Proof.
  intros Hx a. simpl.
  destruct (step acc arg {| obj := x; gen := g |}) as [[a' | e] w] eqn:E.
  - exfalso. exact (Hx g a' w E).
  - simpl. discriminate.
Qed.

Lemma never_ok_for_each {Self T A B} (get : Self -> list T) set
    (step : A -> B -> Method T A) acc arg s x rest :
  get s = x :: rest -> never_ok (step acc arg) x ->
  never_ok (for_each get set step acc arg) s.
Proof.
  intros Hl Hx g a w'. unfold for_each; simpl. rewrite Hl.
  pose proof (never_ok_visit_head step x rest acc arg g Hx a) as H.
  destruct (visit step (x :: rest) acc arg g) as [[r l] g']. simpl in H.
  intros E. injection E as -> _. apply H. reflexivity.
Qed.

Lemma comprehend_Ok_inv {T A B} (f : B -> Method T A) arg :
  forall l g outs l' g',
    comprehend f l arg g = (Ok outs, l', g') ->
    Forall2 (fun x a => exists g1 w1, f arg {| obj := x; gen := g1 |} = (Ok a, w1))
            l outs.
Proof.
  induction l as [| x rest IH]; intros g outs l' g'; simpl.
  - intros H. injection H as <- _ _. constructor.
  - destruct (f arg {| obj := x; gen := g |}) as [[a | e] w] eqn:E.
    + destruct (comprehend f rest arg (gen w)) as [[[tl | e] rest'] g''] eqn:E';
        intros H; [ | discriminate ].
      injection H as <- _ _. constructor.
      * exists g, w. exact E.
      * exact (IH _ _ _ _ E').
    + discriminate.
Qed.

Lemma list_of_Ok_inv {Self T A B} (get : Self -> list T) set
    (f : B -> Method T A) arg (w : World Self) outs w' :
  list_of get set f arg w = (Ok outs, w') ->
  exists l' g',
    comprehend f (get (obj w)) arg (gen w) = (Ok outs, l', g') /\
    w' = {| obj := set l' (obj w); gen := g' |}.
Proof.
  unfold list_of.
  destruct (comprehend f (get (obj w)) arg (gen w)) as [[r l'] g'].
  intros H. injection H as -> <-. exists l', g'. split; reflexivity.
Qed.

(** *** shapes along [MultiHeadedAttention.forward] *)

Lemma linear_Ok_shape x w b y :
  torch.linear x w b = Ok y ->
  dim2 x = cols w /\ dim0 y = dim0 x /\ dim1 y = dim1 x /\ dim2 y = rows w.
Proof.
  unfold torch.linear.
  destruct ((dim2 x =? cols w) && ((len b =? rows w) || (len b =? 1))) eqn:E;
    [ | discriminate ].
  intros H. injection H as <-. simpl.
  apply andb_prop in E. destruct E as [E _]. apply Nat.eqb_eq in E. tauto.
Qed.

Lemma bmm_Ok_shape x y z :
  torch.bmm x y = Ok z ->
  dim0 x = dim0 y /\ dim2 x = dim1 y /\
  dim0 z = dim0 x /\ dim1 z = dim1 x /\ dim2 z = dim2 y.
Proof.
  unfold torch.bmm.
  destruct ((dim0 x =? dim0 y) && (dim2 x =? dim1 y)) eqn:E; [ | discriminate ].
  intros H. injection H as <-. simpl.
  apply andb_prop in E. destruct E as [E1 E2].
  apply Nat.eqb_eq in E1. apply Nat.eqb_eq in E2. tauto.
Qed.

Lemma SelfAttention_forward_width q k v mask s g out w' :
  SelfAttention.forward q k v mask {| obj := s; gen := g |} = (Ok out, w') ->
  dim2 out = Linear.out_features (SelfAttention.value s).
Proof.
  unfold SelfAttention.forward. intros H.
  apply bind_Ok_inv in H. destruct H as ([weights value_] & w1 & H1 & H).
  apply lift_Ok_inv in H. destruct H as [H _]. simpl in H.
  apply attention_inv in H1.
  destruct H1 as (query_ & key_ & prod & sc & _ & _ & Hv & _).
  apply linear_Ok_shape in Hv. apply bmm_Ok_shape in H.
  unfold Linear.out_features. lia.
Qed.

Lemma cat1_Ok_shape ts x :
  torch.cat ts 1 = Ok x ->
  exists t rest, ts = t :: rest /\ dim2 x = dim2 t.
Proof.
  destruct ts as [| t rest]; simpl; [ discriminate | ].
  intros H. exists t, rest. split; [ reflexivity | ].
  destruct rest as [| t' rest'].
  - injection H as <-. reflexivity.
  - destruct (torch.cat (t' :: rest') 1) as [y | e]; [ | discriminate ].
    unfold torch.cat2 in H.
    destruct ((dim0 t =? dim0 y) && (dim2 t =? dim2 y)); [ | discriminate ].
    injection H as <-. reflexivity.
Qed.

Lemma MultiHeadedAttention_forward_inv q k v mask m g out w' :
  MultiHeadedAttention.forward q k v mask {| obj := m; gen := g |} = (Ok out, w') ->
  exists heads x,
    Forall2 (fun h a => exists g1 w1,
                 SelfAttention.forward q k v mask {| obj := h; gen := g1 |} = (Ok a, w1))
            (MultiHeadedAttention.attentions m) heads /\
    torch.cat heads 1 = Ok x /\
    torch.linear x (Linear.weight (MultiHeadedAttention.output m))
                   (Linear.bias (MultiHeadedAttention.output m)) = Ok out.
Proof.
  unfold MultiHeadedAttention.forward. intros H.
  apply bind_Ok_inv in H. destruct H as (heads & w1 & H1 & H).
  apply list_of_Ok_inv in H1. destruct H1 as (l' & g' & H1 & ->). simpl in H1.
  apply comprehend_Ok_inv in H1.
  apply bind_Ok_inv in H. destruct H as (x & w2 & H2 & H).
  apply lift_Ok_inv in H2. destruct H2 as [H2 ->].
  apply bind_Ok_inv in H. destruct H as (y & w3 & H3 & H).
  rewrite call_Linear_forward in H3. simpl in H3. injection H3 as H3 _.
  apply ret_Ok_inv in H. destruct H as [-> _].
  exists heads, x. repeat split; assumption.
Qed.

Lemma MultiHeadedAttention_mismatch_never_ok q k v mask m :
  heads_mismatch m -> never_ok (MultiHeadedAttention.forward q k v mask) m.
Proof.
  intros Hbad g out w' H.
  apply MultiHeadedAttention_forward_inv in H.
  destruct H as (heads & x & Hheads & Hcat & Hlin).
  apply cat1_Ok_shape in Hcat. destruct Hcat as (t & rest & -> & Hx).
  apply linear_Ok_shape in Hlin. destruct Hlin as [Hlin _].
  inversion Hheads as [| h a hs0 as0 Hh Hrest Eh Ea]; subst.
  unfold heads_mismatch in Hbad. rewrite <- Eh in Hbad.
  inversion Hbad as [| ? ? Hne _]; subst.
  destruct Hh as (g1 & w1 & Hh). apply SelfAttention_forward_width in Hh.
  apply Hne. unfold Linear.in_features. lia.
Qed.

Lemma MultiHeadedAttention_heads_never_ok q k v mask m :
  (forall h, In h (MultiHeadedAttention.attentions m) ->
             never_ok (SelfAttention.forward q k v mask) h) ->
  never_ok (MultiHeadedAttention.forward q k v mask) m.
Proof.
  intros Hall g out w' H.
  apply MultiHeadedAttention_forward_inv in H.
  destruct H as (heads & x & Hheads & Hcat & _).
  apply cat1_Ok_shape in Hcat. destruct Hcat as (t & rest & -> & _).
  inversion Hheads as [| h a hs0 as0 Hh Hrest Eh Ea]; subst.
  destruct Hh as (g1 & w1 & Hh).
  apply (Hall h) in Hh; [ exact Hh | rewrite <- Eh; left; reflexivity ].
Qed.

Lemma EncoderLayer_never_ok src src_mask l :
  never_ok (MultiHeadedAttention.forward src src src src_mask) (EncoderLayer.attn l) ->
  never_ok (EncoderLayer.forward src src_mask) l.
Proof.
  intros H. unfold EncoderLayer.forward; cbv zeta.
  apply never_ok_bind. apply never_ok_call. exact H.
Qed.

Lemma DecoderLayer_never_ok tgt enc tgt_mask enc_mask l :
  never_ok (MultiHeadedAttention.forward tgt tgt tgt tgt_mask)
           (DecoderLayer.masked_attn l) ->
  never_ok (DecoderLayer.forward tgt enc tgt_mask enc_mask) l.
Proof.
  intros H. unfold DecoderLayer.forward; cbv zeta.
  apply never_ok_bind. apply never_ok_call. exact H.
Qed.

Lemma Encoder_never_ok src src_mask e l rest :
  Encoder.enc_layers e = l :: rest ->
  never_ok (EncoderLayer.forward src src_mask) l ->
  never_ok (Encoder.forward src src_mask) e.
Proof.
  intros Hl H. unfold Encoder.forward; cbv zeta.
  apply never_ok_for_each with (x := l) (rest := rest); assumption.
Qed.

Lemma Decoder_never_ok tgt enc tgt_mask enc_mask d l rest :
  Decoder.dec_layers d = l :: rest ->
  never_ok (DecoderLayer.forward tgt enc tgt_mask enc_mask) l ->
  never_ok (Decoder.forward tgt enc tgt_mask enc_mask) d.
Proof.
  intros Hl H. unfold Decoder.forward; cbv zeta.
  apply never_ok_for_each with (x := l) (rest := rest); assumption.
Qed.

Lemma Transformer_forward_rt src tgt src_mask tgt_mask :
  rt (Transformer.forward src tgt src_mask tgt_mask).
Proof.
  unfold Transformer.forward.
  repeat (rt_step; try apply Encoder_forward_rt; try apply Decoder_forward_rt).
Qed.

Lemma Transformer_never_ok_encoder src tgt src_mask tgt_mask m :
  never_ok (Encoder.forward src src_mask) (Transformer.encoder m) ->
  never_ok (Transformer.forward src tgt src_mask tgt_mask) m.
Proof.
  intros H. unfold Transformer.forward.
  apply never_ok_bind. apply never_ok_call. exact H.
Qed.

Lemma Transformer_never_ok_decoder src tgt src_mask tgt_mask m :
  (forall enc_out,
      never_ok (Decoder.forward tgt enc_out src_mask tgt_mask) (Transformer.decoder m)) ->
  never_ok (Transformer.forward src tgt src_mask tgt_mask) m.
Proof.
  intros H. unfold Transformer.forward.
  apply never_ok_bind_then.
  - apply frame_call; [ lens | apply Encoder_forward_frame ].
  - intros enc_out. apply never_ok_bind. apply never_ok_call. apply H.
Qed.

(** ** What the constructors build *)

Lemma builds_ret {A} (a : A) (P : A -> Prop) : P a -> builds (ret a) P.
Proof. intros H g. exists a, g. split; [ reflexivity | exact H ]. Qed.

Lemma builds_bind {A B} (m : Ctor A) (f : A -> Ctor B) (P : A -> Prop) (Q : B -> Prop) :
  builds m P -> (forall a, P a -> builds (f a) Q) -> builds (bind m f) Q.
Proof.
  intros Hm Hf g. destruct (Hm g) as (a & g1 & E & Ha).
  destruct (Hf a Ha g1) as (b & g2 & E2 & Hb).
  exists b, g2. unfold bind. rewrite E. split; assumption.
Qed.

Lemma builds_repeat {A} (c : Ctor A) (P : A -> Prop) n :
  builds c P -> builds (repeat_ctor n c) (fun xs => length xs = n /\ Forall P xs).
Proof.
  intros Hc. induction n as [| n IH]; simpl.
  - apply builds_ret. split; [ reflexivity | constructor ].
  - apply builds_bind with (P := P); [ exact Hc | intros x Hx ].
    apply builds_bind with (P := fun xs => length xs = n /\ Forall P xs);
      [ exact IH | intros xs [Hlen Hall] ].
    apply builds_ret. split; [ simpl; congruence | constructor; assumption ].
Qed.

Lemma Linear_init_builds (i o : Z) :
  (0 <= i)%Z -> (0 <= o)%Z ->
  builds (Linear.init i o)
         (fun m => Linear.in_features m = Z.to_nat i /\
                   Linear.out_features m = Z.to_nat o).
Proof.
  intros Hi Ho g. unfold Linear.init.
  destruct ((i <? 0)%Z || (o <? 0)%Z) eqn:E.
  - apply orb_prop in E. destruct E as [E | E]; apply Z.ltb_lt in E; lia.
  - eexists _, _. split; [ reflexivity | ]. split; reflexivity.
Qed.

Lemma LayerNorm_init_builds (d : Z) :
  (0 <= d)%Z ->
  builds (LayerNorm.init d) (fun m => LayerNorm.normalized_shape m = Z.to_nat d).
Proof.
  intros Hd g. unfold LayerNorm.init.
  destruct (d <? 0)%Z eqn:E; [ apply Z.ltb_lt in E; lia | ].
  eexists _, _. split; reflexivity.
Qed.

Lemma Dropout_init_default_builds :
  builds (Dropout.init dropout_default) (fun m => Dropout.training m = true).
Proof.
  intros g. unfold Dropout.init, dropout_default.
  destruct (Rlt_dec (3 / 10) 0) as [H | _]; [ lra | ].
  destruct (Rlt_dec 1 (3 / 10)) as [H | _]; [ lra | ].
  eexists _, _. split; reflexivity.
Qed.

Lemma SelfAttention_init_builds (d o : Z) :
  (0 <= d)%Z -> (0 <= o)%Z ->
  builds (SelfAttention.init d o dropout_default)
         (fun h => Linear.out_features (SelfAttention.value h) = Z.to_nat o /\
                   Linear.out_features (SelfAttention.key h) = Z.to_nat o /\
                   Linear.out_features (SelfAttention.query h) = Z.to_nat o).
Proof.
  intros Hd Ho. unfold SelfAttention.init.
  eapply builds_bind; [ apply (Linear_init_builds d o Hd Ho) | intros q [_ Hq] ].
  eapply builds_bind; [ apply (Linear_init_builds d o Hd Ho) | intros k [_ Hk] ].
  eapply builds_bind; [ apply (Linear_init_builds d o Hd Ho) | intros v [_ Hv] ].
  eapply builds_bind; [ apply Dropout_init_default_builds | intros dr _ ].
  apply builds_ret. simpl. tauto.
Qed.

Lemma MultiHeadedAttention_init_builds (d h : Z) p :
  (0 <= d)%Z -> (1 <= h)%Z ->
  builds (MultiHeadedAttention.init d h p) (built_attention d h).
Proof.
  intros Hd Hh. unfold MultiHeadedAttention.init, floordiv.
  destruct (h =? 0)%Z eqn:E; [ apply Z.eqb_eq in E; lia | ].
  assert (0 <= d / h)%Z as Hq by (apply Z.div_pos; lia).
  intros g. unfold bind at 1. unfold lift.
  revert g. change (builds
    (bind (repeat_ctor (Z.to_nat h) (SelfAttention.init d (d / h) dropout_default))
       (fun attentions =>
          bind (Linear.init d d)
            (fun output =>
               ret {| MultiHeadedAttention.d_model := d;
                      MultiHeadedAttention.num_heads := h;
                      MultiHeadedAttention.dropout := p;
                      MultiHeadedAttention.attn_output_size := (d / h)%Z;
                      MultiHeadedAttention.attentions := attentions;
                      MultiHeadedAttention.output := output |})))
    (built_attention d h)).
  eapply builds_bind.
  - apply builds_repeat. apply (SelfAttention_init_builds d (d / h) Hd Hq).
  - intros hs [Hlen Hall].
    eapply builds_bind; [ apply (Linear_init_builds d d Hd Hd) | intros o [Ho _] ].
    apply builds_ret. unfold built_attention; simpl.
    repeat split; try assumption.
    eapply Forall_impl; [ | exact Hall ]. simpl. tauto.
Qed.

Lemma built_attention_mismatch d h m :
  (1 <= d)%Z -> (2 <= h)%Z -> built_attention d h m -> heads_mismatch m.
Proof.
  intros Hd Hh (_ & _ & _ & _ & Hall & Hout). unfold heads_mismatch.
  eapply Forall_impl; [ | exact Hall ]. simpl. intros a Ha. rewrite Ha, Hout.
  assert (d / h < d)%Z by (apply Z.div_lt; lia).
  assert (0 <= d / h)%Z by (apply Z.div_pos; lia). lia.
Qed.

Lemma Sequential_init_builds (d : Z) :
  (0 <= d)%Z ->
  builds (Sequential.init d d_ff_default dropout_default) (fun _ => True).
Proof.
  intros Hd. unfold Sequential.init, d_ff_default.
  eapply builds_bind; [ apply (Linear_init_builds d 2048); lia | intros ? _ ].
  eapply builds_bind; [ apply Dropout_init_default_builds | intros ? _ ].
  eapply builds_bind; [ apply (Linear_init_builds 2048 d); lia | intros ? _ ].
  eapply builds_bind; [ apply Dropout_init_default_builds | intros ? _ ].
  apply builds_ret. exact I.
Qed.

Lemma EncoderLayer_init_builds (d h : Z) :
  (0 <= d)%Z -> (1 <= h)%Z ->
  builds (EncoderLayer.init d h d_ff_default dropout_default)
         (fun l => built_attention d h (EncoderLayer.attn l)).
Proof.
  intros Hd Hh. unfold EncoderLayer.init.
  eapply builds_bind; [ apply (MultiHeadedAttention_init_builds d h _ Hd Hh) | intros a Ha ].
  eapply builds_bind; [ apply (Sequential_init_builds d Hd) | intros ? _ ].
  eapply builds_bind; [ apply (LayerNorm_init_builds d Hd) | intros ? _ ].
  eapply builds_bind; [ apply (LayerNorm_init_builds d Hd) | intros ? _ ].
  apply builds_ret. exact Ha.
Qed.

Lemma DecoderLayer_init_builds (d h : Z) :
  (0 <= d)%Z -> (1 <= h)%Z ->
  builds (DecoderLayer.init d h d_ff_default dropout_default)
         (fun l => built_attention d h (DecoderLayer.masked_attn l) /\
                   built_attention d h (DecoderLayer.attn l)).
Proof.
  intros Hd Hh. unfold DecoderLayer.init.
  eapply builds_bind; [ apply (MultiHeadedAttention_init_builds d h _ Hd Hh) | intros a Ha ].
  eapply builds_bind; [ apply (MultiHeadedAttention_init_builds d h _ Hd Hh) | intros b Hb ].
  eapply builds_bind; [ apply (Sequential_init_builds d Hd) | intros ? _ ].
  eapply builds_bind; [ apply (LayerNorm_init_builds d Hd) | intros ? _ ].
  eapply builds_bind; [ apply (LayerNorm_init_builds d Hd) | intros ? _ ].
  eapply builds_bind; [ apply (LayerNorm_init_builds d Hd) | intros ? _ ].
  apply builds_ret. split; assumption.
Qed.

Lemma Transformer_init_builds (d h ne nd : Z) :
  (0 <= d)%Z -> (1 <= h)%Z ->
  builds (Transformer.init d h ne nd) (built_transformer d h ne nd).
Proof.
  intros Hd Hh. unfold Transformer.init, Encoder.init, Decoder.init.
  eapply builds_bind.
  - eapply builds_bind.
    + apply builds_repeat. apply (EncoderLayer_init_builds d h Hd Hh).
    + intros ls Hls. apply builds_ret with (P := fun e =>
        length (Encoder.enc_layers e) = Z.to_nat ne /\
        Forall (fun l => built_attention d h (EncoderLayer.attn l)) (Encoder.enc_layers e)).
      exact Hls.
  - intros e [He1 He2]. eapply builds_bind.
    + eapply builds_bind.
      * apply builds_repeat. apply (DecoderLayer_init_builds d h Hd Hh).
      * intros ls Hls. apply builds_ret with (P := fun e =>
          length (Decoder.dec_layers e) = Z.to_nat nd /\
          Forall (fun l => built_attention d h (DecoderLayer.masked_attn l) /\
                           built_attention d h (DecoderLayer.attn l))
                 (Decoder.dec_layers e)).
        exact Hls.
    + intros dc [Hd1 Hd2]. apply builds_ret. unfold built_transformer; simpl. tauto.
Qed.

(** ** Shapes: the concatenation axis *)

Lemma nonempty_of_length {A} (l : list A) n :
  length l = n -> 1 <= n -> exists x rest, l = x :: rest.
Proof. destruct l as [| x rest]; simpl; intros; [ lia | eauto ]. Qed.

Lemma built_transformer_never_ok d h ne nd m src tgt src_mask tgt_mask :
  (1 <= d)%Z -> (2 <= h)%Z -> (1 <= ne \/ 1 <= nd)%Z ->
  built_transformer d h ne nd m ->
  never_ok (Transformer.forward src tgt src_mask tgt_mask) m.
Proof.
  intros Hd Hh Hn (Hle & Hld & He & Hdc).
  destruct (Z_le_gt_dec 1 ne) as [Hne | Hne].
  - apply Transformer_never_ok_encoder.
    assert (1 <= Z.to_nat ne) as Hpos by lia.
    destruct (nonempty_of_length _ _ Hle Hpos) as (l & rest & El).
    apply Encoder_never_ok with (l := l) (rest := rest); [ exact El | ].
    apply EncoderLayer_never_ok. apply MultiHeadedAttention_mismatch_never_ok.
    rewrite El in He. inversion He; subst.
    apply (built_attention_mismatch d h); assumption.
  - apply Transformer_never_ok_decoder. intros enc_out.
    assert (1 <= Z.to_nat nd) as Hpos by lia.
    destruct (nonempty_of_length _ _ Hld Hpos) as (l & rest & El).
    apply Decoder_never_ok with (l := l) (rest := rest); [ exact El | ].
    apply DecoderLayer_never_ok. apply MultiHeadedAttention_mismatch_never_ok.
    rewrite El in Hdc. inversion Hdc as [| ? ? [Hm _] _]; subst.
    apply (built_attention_mismatch d h); assumption.
Qed.

(** C2 (the code departs from the claim).  The heads are concatenated along
    axis 1, the position axis, so the concatenation keeps the width [d_head]
    of one head.  With two heads or more [d_head < d_model], and the output
    projection rejects its input: a model constructed with [d_model >= 1],
    [num_heads >= 2] and at least one layer raises [RuntimeError] in
    [Transformer.forward], for every input. *)
Theorem forward_raises_with_two_heads_or_more :
  forall (d_model num_heads num_encoders num_decoders : Z) (g : Rng),
    (1 <= d_model)%Z -> (2 <= num_heads)%Z ->
    (1 <= num_encoders \/ 1 <= num_decoders)%Z ->
    exists model g',
      Transformer.init d_model num_heads num_encoders num_decoders g = (Ok model, g') /\
      forall src tgt src_mask tgt_mask g0,
        fst (Transformer.forward src tgt src_mask tgt_mask {| obj := model; gen := g0 |})
        = Raise RuntimeError.
Proof.
  intros d h ne nd g Hd Hh Hn.
  destruct (Transformer_init_builds d h ne nd ltac:(lia) ltac:(lia) g)
    as (model & g' & E & Hb).
  exists model, g'. split; [ exact E | ].
  intros src tgt src_mask tgt_mask g0.
  apply never_ok_raises; [ apply Transformer_forward_rt | ].
  eapply built_transformer_never_ok; eassumption.
Qed.

(** the shape example of the specification: d_model = 16, num_heads = 4 *)
Lemma forward_raises_with_two_heads_or_more_witness :
  exists model g',
    Transformer.init 16 4 1 1 Example.gen0 = (Ok model, g') /\
    forall src tgt src_mask tgt_mask g0,
      fst (Transformer.forward src tgt src_mask tgt_mask {| obj := model; gen := g0 |})
      = Raise RuntimeError.
Proof.
  apply (forward_raises_with_two_heads_or_more 16 4 1 1 Example.gen0); lia.
Defined.

(** ** The masks handed to the decoder *)

Lemma expand_Ok_inv t n0 n1 n2 r :
  torch.expand t n0 n1 n2 = Ok r ->
  (dim0 t = n0 \/ dim0 t = 1) /\ (dim1 t = n1 \/ dim1 t = 1) /\
  (dim2 t = n2 \/ dim2 t = 1) /\
  r = mk3 n0 n1 n2
        (fun b i j => at3 t (torch.bidx (dim0 t) b) (torch.bidx (dim1 t) i)
                            (torch.bidx (dim2 t) j)).
Proof.
  unfold torch.expand.
  destruct (((dim0 t =? n0) || (dim0 t =? 1)) && ((dim1 t =? n1) || (dim1 t =? 1)) &&
            ((dim2 t =? n2) || (dim2 t =? 1))) eqn:E; [ | discriminate ].
  intros H. injection H as <-.
  apply andb_prop in E. destruct E as [E E3].
  apply andb_prop in E. destruct E as [E1 E2].
  apply orb_prop in E1. apply orb_prop in E2. apply orb_prop in E3.
  rewrite !Nat.eqb_eq in E1, E2, E3. tauto.
Qed.

Lemma SelfAttention_mask_length_never_ok x mask h :
  cols mask <> dim1 x -> cols mask <> 1 ->
  never_ok (SelfAttention.forward x x x (Some mask)) h.
Proof.
  intros H1 H2. unfold SelfAttention.forward. apply never_ok_bind.
  intros g [weights value_] w' H. apply attention_inv in H.
  destruct H as (query_ & key_ & prod & sc & _ & _ & _ & _ & Hm & _).
  destruct Hm as (em & sm & s1 & Hem & _).
  apply expand_Ok_inv in Hem. simpl in Hem. tauto.
Qed.

(** C3 (the code departs from the claim).  [Transformer.forward] hands
    [src_mask] to the decoder's self-attention (and [tgt_mask] to the
    cross-attention): with at least one decoder layer, a source mask whose
    length is neither the target length nor 1 makes the self-attention over
    the target raise [RuntimeError], whatever the target mask is. *)
Theorem forward_raises_when_source_mask_length_differs_from_target :
  forall (model : Transformer.t) (layer : DecoderLayer.t) (rest : list DecoderLayer.t)
         (src tgt : tensor3) (src_mask : tensor2) (tgt_mask : option tensor2) (g : Rng),
    Decoder.dec_layers (Transformer.decoder model) = layer :: rest ->
    cols src_mask <> dim1 tgt -> cols src_mask <> 1 ->
    fst (Transformer.forward src tgt (Some src_mask) tgt_mask {| obj := model; gen := g |})
    = Raise RuntimeError.
Proof.
  intros model layer rest src tgt src_mask tgt_mask g Hl H1 H2.
  apply never_ok_raises; [ apply Transformer_forward_rt | ].
  apply Transformer_never_ok_decoder. intros enc_out.
  apply Decoder_never_ok with (l := layer) (rest := rest); [ exact Hl | ].
  apply DecoderLayer_never_ok. apply MultiHeadedAttention_heads_never_ok.
  intros h _. apply SelfAttention_mask_length_never_ok; assumption.
Qed.

(** one head, a source of 3 positions and a target of 1, each with its own
    mask of ones *)
Lemma forward_raises_when_source_mask_length_differs_from_target_witness :
  fst (Transformer.forward (Example.seq_of_ones 3) (Example.seq_of_ones 1)
         (Some (Example.mask_of [1; 1; 1]%R)) (Some (Example.mask_of [1]%R))
         {| obj := Example.model; gen := Example.gen0 |})
  = Raise RuntimeError.
Proof.
  apply (forward_raises_when_source_mask_length_differs_from_target
           Example.model Example.dec_layer []).
  - reflexivity.
  - simpl. lia.
  - simpl. lia.
Defined.

(** ** Construction *)

Lemma raises_bind {A B} (m : Ctor A) (f : A -> Ctor B) e :
  raises m e -> raises (bind m f) e.
Proof.
  intros Hm g. unfold bind. specialize (Hm g).
  destruct (m g) as [[a | e'] g']; simpl in *; congruence.
Qed.

Lemma raises_bind_then {A B} (m : Ctor A) (f : A -> Ctor B) (P : A -> Prop) e :
  builds m P -> (forall a, raises (f a) e) -> raises (bind m f) e.
Proof.
  intros Hm Hf g. unfold bind. destruct (Hm g) as (a & g1 & E & _).
  rewrite E. apply Hf.
Qed.

Lemma raises_repeat {A} (c : Ctor A) e n :
  raises c e -> 1 <= n -> raises (repeat_ctor n c) e.
Proof.
  intros Hc Hn. destruct n as [| n]; [ lia | ]. simpl.
  apply raises_bind. exact Hc.
Qed.

Lemma MultiHeadedAttention_init_zero_heads d p :
  raises (MultiHeadedAttention.init d 0 p) ZeroDivisionError.
Proof. intros g. reflexivity. Qed.

Lemma Transformer_init_zero_heads d ne nd :
  (1 <= ne \/ 1 <= nd)%Z -> raises (Transformer.init d 0 ne nd) ZeroDivisionError.
Proof.
  intros Hn. unfold Transformer.init.
  destruct (Z_le_gt_dec 1 ne) as [Hne | Hne].
  - apply raises_bind. unfold Encoder.init. apply raises_bind.
    apply raises_repeat; [ | lia ].
    unfold EncoderLayer.init. apply raises_bind.
    apply MultiHeadedAttention_init_zero_heads.
  - apply raises_bind_then with (P := fun _ => True).
    + unfold Encoder.init. replace (Z.to_nat ne) with 0 by lia. simpl.
      intros g. eexists _, _. split; [ reflexivity | exact I ].
    + intros enc. apply raises_bind. unfold Decoder.init. apply raises_bind.
      apply raises_repeat; [ | lia ].
      unfold DecoderLayer.init. apply raises_bind.
      apply MultiHeadedAttention_init_zero_heads.
Qed.

Lemma built_transformer_blocks d h ne nd m :
  built_transformer d h ne nd m ->
  Forall (built_attention d h) (attention_blocks m) /\
  length (attention_blocks m) = Z.to_nat ne + 2 * Z.to_nat nd.
Proof.
  intros (Hle & Hld & He & Hd). unfold attention_blocks. split.
  - apply Forall_app. split.
    + apply Forall_map. exact He.
    + apply Forall_flat_map. eapply Forall_impl; [ | exact Hd ].
      simpl. intros l [H1 H2]. constructor; [ exact H1 | ].
      constructor; [ exact H2 | constructor ].
  - rewrite length_app, length_map, Hle. f_equal. rewrite <- Hld.
    clear. induction (Decoder.dec_layers (Transformer.decoder m)) as [| x l IH];
      simpl; [ reflexivity | ]. simpl in IH. rewrite IH. lia.
Qed.

(** C7 (as amended).  The constructor validates nothing by itself and takes
    the head width as the floor of [d_model / num_heads].  With zero heads
    and at least one layer it fails at construction time, with Python's
    [ZeroDivisionError]; with [d_model >= 0] and [num_heads >= 1] it succeeds
    whether or not [num_heads] divides [d_model], and in every attention
    block [d_model == num_heads * d_head] holds exactly when it does. *)
Theorem construction_takes_floor_of_head_width :
  forall (d_model num_heads num_encoders num_decoders : Z) (g : Rng),
    ((1 <= num_encoders \/ 1 <= num_decoders)%Z ->
     fst (Transformer.init d_model 0 num_encoders num_decoders g)
     = Raise ZeroDivisionError) /\
    ((0 <= d_model)%Z -> (1 <= num_heads)%Z ->
     exists model g',
       Transformer.init d_model num_heads num_encoders num_decoders g = (Ok model, g') /\
       Forall (fun a =>
                 MultiHeadedAttention.attn_output_size a = (d_model / num_heads)%Z /\
                 (d_model = num_heads * MultiHeadedAttention.attn_output_size a
                  <-> (num_heads | d_model))%Z)
              (attention_blocks model)).
Proof.
  intros d h ne nd g. split.
  - intros Hn. apply Transformer_init_zero_heads. exact Hn.
  - intros Hd Hh.
    destruct (Transformer_init_builds d h ne nd Hd Hh g) as (model & g' & E & Hb).
    exists model, g'. split; [ exact E | ].
    apply built_transformer_blocks in Hb. destruct Hb as [Hb _].
    eapply Forall_impl; [ | exact Hb ]. simpl.
    intros a (_ & _ & Ha & _). split; [ exact Ha | ]. rewrite Ha.
    rewrite Z.div_exact by lia. apply Z.mod_divide. lia.
Qed.

Lemma construction_takes_floor_of_head_width_witness :
  fst (Transformer.init 6 0 1 1 Example.gen0) = Raise ZeroDivisionError /\
  exists model g',
    Transformer.init 6 4 1 1 Example.gen0 = (Ok model, g') /\
    Forall (fun a =>
              MultiHeadedAttention.attn_output_size a = (6 / 4)%Z /\
              (6 = 4 * MultiHeadedAttention.attn_output_size a <-> (4 | 6))%Z)
           (attention_blocks model).
Proof.
  destruct (construction_takes_floor_of_head_width 6 4 1 1 Example.gen0) as [H0 H1].
  split.
  - apply (proj1 (construction_takes_floor_of_head_width 6 0 1 1 Example.gen0)). lia.
  - apply H1; lia.
Defined.

(** C7, the claim as stated fails: [d_model = 5] with [num_heads = 2] is
    accepted by the constructor, which builds three attention blocks of head
    width 2, although 2 * 2 is not 5. *)
Lemma construction_accepts_indivisible_d_model :
  exists model g',
    Transformer.init 5 2 1 1 Example.gen0 = (Ok model, g') /\
    length (attention_blocks model) = 3 /\
    Forall (fun a => MultiHeadedAttention.attn_output_size a = 2%Z /\
                     (2 * MultiHeadedAttention.attn_output_size a <> 5)%Z)
           (attention_blocks model).
Proof.
  destruct (Transformer_init_builds 5 2 1 1 ltac:(lia) ltac:(lia) Example.gen0)
    as (model & g' & E & Hb).
  exists model, g'. split; [ exact E | ].
  apply built_transformer_blocks in Hb. destruct Hb as [Hb Hlen].
  split; [ exact Hlen | ].
  eapply Forall_impl; [ | exact Hb ]. simpl.
  intros a (_ & _ & Ha & _). rewrite Ha.
  split; [ reflexivity | intros H; vm_compute in H; discriminate H ].
Qed.

(** ** Softmax on a vector of finite and [-inf] entries *)

Section Softmax.

Local Open Scope R_scope.

Lemma is_fin_inv a : is_fin a -> exists r, a = Fin r.
Proof. destruct a; simpl; intros H; try contradiction. eauto. Qed.

Lemma maxs_all_ninf n x :
  (forall k, (k < n)%nat -> x k = NInf) -> Num.maxs n x = NInf.
Proof.
  induction n as [| n IH]; intros H; simpl.
  - reflexivity.
  - rewrite IH by (intros; apply H; lia). rewrite H by lia. reflexivity.
Qed.

Lemma maxs_maskable n x :
  maskable n x ->
  (Num.maxs n x = NInf /\ forall k, (k < n)%nat -> x k = NInf) \/
  (exists m, Num.maxs n x = Fin m).
Proof.
  induction n as [| n IH]; intros H; simpl.
  - left. split; [ reflexivity | intros; lia ].
  - destruct IH as [[E Hall] | [m E]]; [ intros k Hk; apply H; lia | | ];
      rewrite E; destruct (H n ltac:(lia)) as [En | Hf].
    + left. rewrite En. split; [ reflexivity | ].
      intros k Hk. destruct (Nat.eq_dec k n) as [-> | Hne];
        [ exact En | apply Hall; lia ].
    + right. apply is_fin_inv in Hf. destruct Hf as [r ->]. exists r. reflexivity.
    + right. rewrite En. exists m. reflexivity.
    + right. apply is_fin_inv in Hf. destruct Hf as [r ->].
      exists (Rmax m r). reflexivity.
Qed.

Lemma maxs_some_finite n x :
  maskable n x -> some_finite n x -> exists m, Num.maxs n x = Fin m.
Proof.
  intros Hm (k & Hk & Hf). destruct (maxs_maskable n x Hm) as [[_ Hall] | H].
  - rewrite (Hall k Hk) in Hf. contradiction.
  - exact H.
Qed.

(** the exponentials of a maskable vector, shifted by a finite [m] *)
Lemma exp_shift_maskable n x m k :
  maskable n x -> (k < n)%nat ->
  exists e, Num.exp (Num.sub (x k) (Fin m)) = Fin e /\ 0 <= e /\
            (is_fin (x k) -> 0 < e) /\ (x k = NInf -> e = 0).
Proof.
  intros H Hk. destruct (H k Hk) as [E | Hf].
  - rewrite E. simpl. exists 0. repeat split; try lra; contradiction.
  - apply is_fin_inv in Hf. destruct Hf as [r E]. rewrite E. simpl.
    exists (exp (r + - m)). pose proof (exp_pos (r + - m)).
    repeat split; try lra. intros; discriminate.
Qed.

Lemma sum_exp_shift n x m :
  maskable n x ->
  exists s, Num.sum n (fun k => Num.exp (Num.sub (x k) (Fin m))) = Fin s /\
            0 <= s /\ (some_finite n x -> 0 < s).
Proof.
  induction n as [| n IH]; intros H; simpl.
  - exists 0. repeat split; try lra. intros (k & Hk & _). lia.
  - destruct IH as (s & Es & Hs0 & Hs); [ intros k Hk; apply H; lia | ].
    destruct (exp_shift_maskable (S n) x m n H ltac:(lia)) as (e & Ee & He0 & He & _).
    rewrite Es, Ee. simpl. exists (s + e). repeat split; try lra.
    intros (k & Hk & Hf). destruct (Nat.eq_dec k n) as [-> | Hne].
    + specialize (He Hf). lra.
    + assert (0 < s) by (apply Hs; exists k; split; [ lia | exact Hf ]). lra.
Qed.

(** a masked entry of a column that keeps a finite entry gets weight 0 *)
Lemma softmax_vec_masked n x i :
  maskable n x -> some_finite n x -> (i < n)%nat -> x i = NInf ->
  torch.softmax_vec n x i = Fin 0.
Proof.
  intros Hm Hf Hi Ei. unfold torch.softmax_vec.
  destruct (maxs_some_finite n x Hm Hf) as [m Em]. rewrite Em.
  destruct (sum_exp_shift n x m Hm) as (s & Es & _ & Hs). rewrite Es.
  specialize (Hs Hf). rewrite Ei. simpl.
  destruct (Req_dec_T s 0) as [E0 | _]; [ lra | ].
  f_equal. unfold Rdiv. apply Rmult_0_l.
Qed.

(** a finite entry gets a positive weight *)
Lemma softmax_vec_finite n x i :
  maskable n x -> (i < n)%nat -> is_fin (x i) ->
  exists p, torch.softmax_vec n x i = Fin p /\ 0 < p.
Proof.
  intros Hm Hi Hfi. unfold torch.softmax_vec.
  assert (some_finite n x) as Hf by (exists i; split; assumption).
  destruct (maxs_some_finite n x Hm Hf) as [m Em]. rewrite Em.
  destruct (sum_exp_shift n x m Hm) as (s & Es & _ & Hs). rewrite Es.
  specialize (Hs Hf).
  destruct (exp_shift_maskable n x m i Hm Hi) as (e & Ee & _ & He & _).
  rewrite Ee. specialize (He Hfi). simpl.
  destruct (Req_dec_T s 0) as [E0 | _]; [ lra | ].
  exists (e / s). split; [ reflexivity | ]. apply Rdiv_lt_0_compat; assumption.
Qed.

(** a column of [-inf] only: every weight is [nan] *)
Lemma softmax_vec_all_masked n x i :
  (forall k, (k < n)%nat -> x k = NInf) -> (i < n)%nat ->
  torch.softmax_vec n x i = NaN.
Proof.
  intros Hall Hi. unfold torch.softmax_vec.
  rewrite (maxs_all_ninf n x Hall), (Hall i Hi). reflexivity.
Qed.

(** entries with the same score get the same weight *)
Lemma softmax_vec_same n x i i' :
  x i = x i' -> torch.softmax_vec n x i = torch.softmax_vec n x i'.
Proof. intros E. unfold torch.softmax_vec. rewrite E. reflexivity. Qed.

Lemma sum_scaled n (e : nat -> num) (r : nat -> R) s :
  s <> 0 ->
  (forall k, (k < n)%nat -> e k = Fin (r k)) ->
  exists t, Num.sum n e = Fin t /\
            Num.sum n (fun k => Num.div (e k) (Fin s)) = Fin (t / s).
Proof.
  intros Hs. induction n as [| n IH]; intros He; simpl.
  - exists 0. split; [ reflexivity | ]. f_equal. unfold Rdiv. now rewrite Rmult_0_l.
  - destruct IH as (t & Et & Ed); [ intros k Hk; apply He; lia | ].
    rewrite Et, Ed, (He n) by lia. simpl.
    destruct (Req_dec_T s 0) as [E0 | _]; [ contradiction | ].
    exists (t + r n). split; [ reflexivity | ]. f_equal. field. exact Hs.
Qed.

(** the weights of a column that keeps a finite entry sum to 1 *)
Lemma softmax_vec_sums_to_one n x :
  maskable n x -> some_finite n x ->
  Num.sum n (torch.softmax_vec n x) = Fin 1.
Proof.
  intros Hm Hf.
  destruct (maxs_some_finite n x Hm Hf) as [m Em].
  destruct (sum_exp_shift n x m Hm) as (s & Es & _ & Hs). specialize (Hs Hf).
  assert (exists r : nat -> R, forall k, (k < n)%nat ->
             Num.exp (Num.sub (x k) (Fin m)) = Fin (r k)) as [r Hr].
  { exists (fun k => match Num.exp (Num.sub (x k) (Fin m)) with
                     | Fin e => e | _ => 0 end).
    intros k Hk.
    destruct (exp_shift_maskable n x m k Hm Hk) as (e & Ee & _). rewrite Ee.
    reflexivity. }
  destruct (sum_scaled n (fun k => Num.exp (Num.sub (x k) (Fin m))) r s
              ltac:(lra) Hr) as (t & Et & Ed).
  rewrite Es in Et. injection Et as <-.
  unfold torch.softmax_vec. rewrite Em, Es.
  change (Num.sum n (fun i => Num.div (Num.exp (Num.sub (x i) (Fin m))) (Fin s))
          = Fin 1).
  rewrite Ed. f_equal. field. lra.
Qed.

End Softmax.

(** ** The attention weights of one head *)

Lemma bdim_refl a : torch.bdim a a = Some a.
Proof. unfold torch.bdim. now rewrite Nat.eqb_refl. Qed.

Lemma bidx_lt d i : i < d -> torch.bidx d i = i.
Proof.
  unfold torch.bidx. intros H. destruct (d =? 1) eqn:E; [ | reflexivity ].
  apply Nat.eqb_eq in E. lia.
Qed.

Lemma linear_Ok_eq x l y :
  torch.linear x (Linear.weight l) (Linear.bias l) = Ok y ->
  y = mk3 (dim0 x) (dim1 x) (Linear.out_features l) (projected l x).
Proof.
  unfold torch.linear.
  destruct ((dim2 x =? cols (Linear.weight l)) &&
            ((len (Linear.bias l) =? rows (Linear.weight l)) ||
             (len (Linear.bias l) =? 1))); [ | discriminate ].
  intros H. injection H as <-. reflexivity.
Qed.

Lemma linear_Ok_intro x l :
  accepts l x ->
  torch.linear x (Linear.weight l) (Linear.bias l)
  = Ok (mk3 (dim0 x) (dim1 x) (Linear.out_features l) (projected l x)).
Proof.
  intros [H1 H2]. unfold torch.linear.
  unfold Linear.in_features in H1. unfold Linear.out_features in H2.
  replace ((dim2 x =? cols (Linear.weight l)) &&
           ((len (Linear.bias l) =? rows (Linear.weight l)) ||
            (len (Linear.bias l) =? 1))) with true; [ reflexivity | ].
  symmetry. apply andb_true_intro. split; [ now apply Nat.eqb_eq | ].
  apply orb_true_intro. left. now apply Nat.eqb_eq.
Qed.

Lemma bmm_Ok_eq x y z :
  torch.bmm x y = Ok z ->
  z = mk3 (dim0 x) (dim1 x) (dim2 y)
        (fun b i j => Num.sum (dim2 x) (fun k => Num.mul (at3 x b i k) (at3 y b k j))).
Proof.
  unfold torch.bmm.
  destruct ((dim0 x =? dim0 y) && (dim2 x =? dim1 y)); [ | discriminate ].
  intros H. injection H as <-. reflexivity.
Qed.

Lemma masked_fill_Ok_eq t m v r :
  torch.masked_fill t m v = Ok r ->
  dim0 t = bdim0 m -> dim1 t = bdim1 m -> dim2 t = bdim2 m ->
  r = mk3 (dim0 t) (dim1 t) (dim2 t)
        (fun b i j =>
           if bat3 m (torch.bidx (dim0 t) b) (torch.bidx (dim1 t) i)
                     (torch.bidx (dim2 t) j)
           then v
           else at3 t (torch.bidx (dim0 t) b) (torch.bidx (dim1 t) i)
                      (torch.bidx (dim2 t) j)).
Proof.
  unfold torch.masked_fill. intros H E0 E1 E2. rewrite <- E0, <- E1, <- E2 in H.
  rewrite !bdim_refl in H. injection H as <-. reflexivity.
Qed.

Lemma eq0_subsequent i j :
  eq0 (Num.sub one (if i + 1 <=? j then one else zero)) = (i <? j).
Proof.
  unfold Nat.ltb. rewrite Nat.add_1_r.
  destruct (S i <=? j); unfold eq0, Num.sub, Num.add, Num.neg, one, zero;
    destruct (Req_dec_T _ 0) as [E | E]; try reflexivity; exfalso; lra.
Qed.

(** the scaled scores and the weights, read off a successful run *)
Lemma attention_scores_inv q k v mask h g weights value_ w' :
  SelfAttention.attention q k v mask {| obj := h; gen := g |}
    = (Ok (weights, value_), w') ->
  exists sc,
    masking q k mask (mk3 (dim0 q) (dim1 q) (dim1 k) (scaled_scores h q k)) sc /\
    weights = mk3 (dim0 sc) (dim1 sc) (dim2 sc)
                (fun b i j => torch.softmax_vec (dim1 sc) (fun i' => at3 sc b i' j) i).
Proof.
  intros H. apply attention_inv in H.
  destruct H as (query_ & key_ & prod & sc & Hq & Hk & _ & Hp & Hm & Hs).
  apply linear_Ok_eq in Hq. apply linear_Ok_eq in Hk. subst query_ key_.
  apply bmm_Ok_eq in Hp. subst prod. simpl in Hm.
  exists sc. split; [ exact Hm | ].
  simpl in Hs. injection Hs as <-. reflexivity.
Qed.

(** the masked scores of a self-attention call with a mask of the shape of
    the input *)
Lemma masking_self x mask f sc :
  masking x x (Some mask) (mk3 (dim0 x) (dim1 x) (dim1 x) f) sc ->
  rows mask = dim0 x -> cols mask = dim1 x ->
  dim0 sc = dim0 x /\ dim1 sc = dim1 x /\ dim2 sc = dim1 x /\
  forall b i j, b < dim0 x -> i < dim1 x -> j < dim1 x ->
    at3 sc b i j
    = if i <? j then NInf else if eq0 (at2 mask b j) then NInf else f b i j.
Proof.
  intros (em & sm & s1 & Hem & Hsm & H1 & H2) Hr Hc.
  apply expand_Ok_inv in Hem. destruct Hem as (_ & _ & _ & ->).
  apply expand_Ok_inv in Hsm. destruct Hsm as (_ & _ & _ & ->).
  apply masked_fill_Ok_eq in H1; try reflexivity. subst s1.
  apply masked_fill_Ok_eq in H2; try reflexivity. subst sc. simpl.
  repeat split; try reflexivity.
  intros b i j Hb Hi Hj.
  rewrite !(bidx_lt (dim0 x) b Hb), !(bidx_lt (dim1 x) i Hi), !(bidx_lt (dim1 x) j Hj).
  rewrite Hr, Hc.
  rewrite !(bidx_lt (dim0 x) b Hb), !(bidx_lt (dim1 x) j Hj).
  rewrite <- (eq0_subsequent i j). reflexivity.
Qed.

Lemma add_fin a b : is_fin a -> is_fin b -> is_fin (Num.add a b).
Proof. destruct a, b; simpl; tauto. Qed.

Lemma mul_fin a b : is_fin a -> is_fin b -> is_fin (Num.mul a b).
Proof. destruct a, b; simpl; tauto. Qed.

Lemma sum_fin n f : (forall k, k < n -> is_fin (f k)) -> is_fin (Num.sum n f).
Proof.
  induction n as [| n IH]; intros H; simpl.
  - exact I.
  - apply add_fin; [ apply IH; intros; apply H; lia | apply H; lia ].
Qed.

Lemma div_sqrt_fin a n : is_fin a -> 0 < n -> is_fin (Num.div a (Num.sqrt (of_nat n))).
Proof.
  intros Ha Hn. apply is_fin_inv in Ha. destruct Ha as [r ->].
  unfold of_nat, Num.sqrt.
  assert (0 < INR n)%R as Hpos by (apply lt_0_INR; exact Hn).
  destruct (Rlt_dec (INR n) 0) as [H | _]; [ lra | ].
  pose proof (sqrt_lt_R0 (INR n) Hpos) as Hs. simpl.
  destruct (Req_dec_T (sqrt (INR n)) 0) as [E | _]; [ lra | exact I ].
Qed.

Lemma projected_finite l x b i o :
  accepts l x -> finite_linear l -> finite3 x ->
  b < dim0 x -> i < dim1 x -> o < Linear.out_features l ->
  is_fin (projected l x b i o).
Proof.
  intros [Hin Hb] [Hw Hbias] Hx Hb0 Hi Ho. unfold projected.
  unfold Linear.in_features in Hin. unfold Linear.out_features in Hb, Ho.
  apply add_fin.
  - apply sum_fin. intros k Hk. apply mul_fin.
    + apply Hx; try assumption. lia.
    + apply Hw; assumption.
  - apply Hbias. rewrite bidx_lt; lia.
Qed.

Lemma scaled_scores_finite h q k v b i j :
  head_accepts h q k v -> finite_head h -> finite3 q -> finite3 k ->
  b < dim0 q -> b < dim0 k -> i < dim1 q -> j < dim1 k ->
  is_fin (scaled_scores h q k b i j).
Proof.
  intros (Hq & Hk & _ & Hw) (Fq & Fk & Hpos) Xq Xk Hbq Hbk Hi Hj.
  unfold scaled_scores. apply div_sqrt_fin; [ | exact Hpos ].
  apply sum_fin. intros c Hc. apply mul_fin.
  - apply projected_finite; assumption.
  - apply projected_finite; try assumption. lia.
Qed.

Lemma bind_Ok_intro {St A B} (m : M St A) (f : A -> M St B) s a s1 :
  m s = (Ok a, s1) -> bind m f s = f a s1.
Proof. intros E. unfold bind. rewrite E. reflexivity. Qed.

Lemma bmm_Ok_intro x y :
  dim0 x = dim0 y -> dim2 x = dim1 y ->
  exists z, torch.bmm x y = Ok z.
Proof.
  intros H0 H1. unfold torch.bmm. rewrite H0, H1, !Nat.eqb_refl. simpl. eauto.
Qed.

Lemma expand_Ok_intro t n0 n1 n2 :
  dim0 t = n0 \/ dim0 t = 1 -> dim1 t = n1 \/ dim1 t = 1 -> dim2 t = n2 \/ dim2 t = 1 ->
  exists r, torch.expand t n0 n1 n2 = Ok r.
Proof.
  intros H0 H1 H2. unfold torch.expand.
  replace (((dim0 t =? n0) || (dim0 t =? 1)) && ((dim1 t =? n1) || (dim1 t =? 1)) &&
           ((dim2 t =? n2) || (dim2 t =? 1))) with true; [ eauto | ].
  symmetry. rewrite !andb_true_iff, !orb_true_iff, !Nat.eqb_eq. tauto.
Qed.

Lemma masked_fill_Ok_intro t m v :
  dim0 t = bdim0 m -> dim1 t = bdim1 m -> dim2 t = bdim2 m ->
  exists r, torch.masked_fill t m v = Ok r.
Proof.
  intros E0 E1 E2. unfold torch.masked_fill. rewrite <- E0, <- E1, <- E2.
  rewrite !bdim_refl. eauto.
Qed.

(** a well-formed head returns on a call without mask *)
Lemma attention_None_Ok h q k v g :
  head_accepts h q k v -> dim0 q = dim0 k ->
  exists weights value_ w',
    SelfAttention.attention q k v None {| obj := h; gen := g |}
    = (Ok (weights, value_), w').
Proof.
  intros (Hq & Hk & Hv & Hw) Hb. destruct h as [Lq Lk Lv Dr]. simpl in *.
  unfold SelfAttention.attention; cbv zeta.
  erewrite bind_Ok_intro
    by (rewrite call_Linear_forward; simpl; rewrite (linear_Ok_intro q Lq Hq); reflexivity).
  erewrite bind_Ok_intro
    by (rewrite call_Linear_forward; simpl; rewrite (linear_Ok_intro k Lk Hk); reflexivity).
  erewrite bind_Ok_intro
    by (rewrite call_Linear_forward; simpl; rewrite (linear_Ok_intro v Lv Hv); reflexivity).
  destruct (bmm_Ok_intro
              (mk3 (dim0 q) (dim1 q) (Linear.out_features Lq) (projected Lq q))
              (torch.transpose12
                 (mk3 (dim0 k) (dim1 k) (Linear.out_features Lk) (projected Lk k))))
    as [prod Hp]; [ exact Hb | exact Hw | ].
  erewrite bind_Ok_intro by (unfold lift; rewrite Hp; reflexivity).
  erewrite bind_Ok_intro by reflexivity.
  erewrite bind_Ok_intro by reflexivity.
  unfold ret. eauto.
Qed.

(** the masking block returns on scores and a mask of the shape of a
    self-attention call *)
Lemma masking_block_Ok {St} (x : tensor3) (mask : tensor2) (scores : tensor3) (s : St) :
  dim0 scores = dim0 x -> dim1 scores = dim1 x -> dim2 scores = dim1 x ->
  rows mask = dim0 x -> cols mask = dim1 x ->
  exists sc,
    (expanded_mask <-
       lift (torch.expand (torch.unsqueeze1 mask) (dim0 x) (dim1 x) (dim1 x)) ;;
     subsequent_mask <-
       lift (torch.expand
               (torch.unsqueeze0
                  (torch.rsub one (torch.triu (torch.ones (dim1 x) (dim1 x)) 1)))
               (dim0 x) (dim1 x) (dim1 x)) ;;
     scores <- lift (torch.masked_fill scores (torch.eq_zero expanded_mask) NInf) ;;
     lift (torch.masked_fill scores (torch.eq_zero subsequent_mask) NInf)) s
    = (Ok sc, s).
Proof.
  intros E0 E1 E2 Hr Hc.
  destruct (expand_Ok_intro (torch.unsqueeze1 mask) (dim0 x) (dim1 x) (dim1 x))
    as [em Hem]; simpl; auto.
  destruct (expand_Ok_intro
              (torch.unsqueeze0
                 (torch.rsub one (torch.triu (torch.ones (dim1 x) (dim1 x)) 1)))
              (dim0 x) (dim1 x) (dim1 x)) as [sm Hsm]; simpl; auto.
  pose proof Hem as Hem'. apply expand_Ok_inv in Hem'. destruct Hem' as (_ & _ & _ & Eem).
  pose proof Hsm as Hsm'. apply expand_Ok_inv in Hsm'. destruct Hsm' as (_ & _ & _ & Esm).
  destruct (masked_fill_Ok_intro scores (torch.eq_zero em) NInf) as [s1 Hs1];
    [ subst em; exact E0 | subst em; exact E1 | subst em; exact E2 | ].
  pose proof Hs1 as Es1. apply masked_fill_Ok_eq in Es1;
    [ | subst em; exact E0 | subst em; exact E1 | subst em; exact E2 ].
  destruct (masked_fill_Ok_intro s1 (torch.eq_zero sm) NInf) as [s2 Hs2];
    [ subst s1 sm; exact E0 | subst s1 sm; exact E1 | subst s1 sm; exact E2 | ].
  exists s2.
  erewrite bind_Ok_intro by (unfold lift; rewrite Hem; reflexivity).
  erewrite bind_Ok_intro by (unfold lift; rewrite Hsm; reflexivity).
  erewrite bind_Ok_intro by (unfold lift; rewrite Hs1; reflexivity).
  unfold lift. rewrite Hs2. reflexivity.
Qed.

(** a well-formed head returns on a self-attention call with a mask of the
    shape of the input *)
Lemma attention_self_Ok h x mask g :
  head_accepts h x x x -> rows mask = dim0 x -> cols mask = dim1 x ->
  exists weights value_ w',
    SelfAttention.attention x x x (Some mask) {| obj := h; gen := g |}
    = (Ok (weights, value_), w').
Proof.
  intros (Hq & Hk & Hv & Hw) Hr Hc. destruct h as [Lq Lk Lv Dr]. simpl in *.
  unfold SelfAttention.attention; cbv zeta.
  erewrite bind_Ok_intro
    by (rewrite call_Linear_forward; simpl; rewrite (linear_Ok_intro x Lq Hq); reflexivity).
  erewrite bind_Ok_intro
    by (rewrite call_Linear_forward; simpl; rewrite (linear_Ok_intro x Lk Hk); reflexivity).
  erewrite bind_Ok_intro
    by (rewrite call_Linear_forward; simpl; rewrite (linear_Ok_intro x Lv Hv); reflexivity).
  destruct (bmm_Ok_intro
              (mk3 (dim0 x) (dim1 x) (Linear.out_features Lq) (projected Lq x))
              (torch.transpose12
                 (mk3 (dim0 x) (dim1 x) (Linear.out_features Lk) (projected Lk x))))
    as [prod Hp]; [ reflexivity | exact Hw | ].
  erewrite bind_Ok_intro by (unfold lift; rewrite Hp; reflexivity).
  apply bmm_Ok_eq in Hp. subst prod.
  match goal with
  | |- context [torch.masked_fill ?t (torch.eq_zero _) NInf] =>
      match goal with
      | |- exists _ _ _, bind _ _ ?w = _ =>
          destruct (masking_block_Ok x mask t w) as [sc Hsc];
            [ reflexivity | reflexivity | reflexivity | exact Hr | exact Hc | ]
      end
  end.
  erewrite bind_Ok_intro by exact Hsc.
  erewrite bind_Ok_intro by reflexivity.
  unfold ret. eauto.
Qed.

Lemma maxs_ext n x y :
  (forall k, k < n -> x k = y k) -> Num.maxs n x = Num.maxs n y.
Proof.
  induction n as [| n IH]; intros H; simpl; [ reflexivity | ].
  rewrite IH by (intros; apply H; lia). rewrite H by lia. reflexivity.
Qed.

Lemma sum_ext n x y :
  (forall k, k < n -> x k = y k) -> Num.sum n x = Num.sum n y.
Proof.
  induction n as [| n IH]; intros H; simpl; [ reflexivity | ].
  rewrite IH by (intros; apply H; lia). rewrite H by lia. reflexivity.
Qed.

Lemma softmax_vec_ext n x y i :
  (forall k, k < n -> x k = y k) -> i < n ->
  torch.softmax_vec n x i = torch.softmax_vec n y i.
Proof.
  intros H Hi. unfold torch.softmax_vec.
  rewrite (maxs_ext n x y H), (H i Hi).
  f_equal. apply sum_ext. intros k Hk. rewrite (H k Hk). reflexivity.
Qed.

(** a self-attention call with a mask returns, and its weights are the
    softmax of the masked columns *)
Lemma attention_self_weights h x mask g :
  head_accepts h x x x -> rows mask = dim0 x -> cols mask = dim1 x ->
  exists weights value_ w',
    SelfAttention.attention x x x (Some mask) {| obj := h; gen := g |}
    = (Ok (weights, value_), w') /\
    forall b i j, b < dim0 x -> i < dim1 x -> j < dim1 x ->
      at3 weights b i j
      = torch.softmax_vec (dim1 x) (masked_column h x mask b j) i.
Proof.
  intros Hh Hr Hc.
  destruct (attention_self_Ok h x mask g Hh Hr Hc) as (weights & value_ & w' & E).
  exists weights, value_, w'. split; [ exact E | ].
  apply attention_scores_inv in E. destruct E as (sc & Hm & ->).
  apply masking_self in Hm; try assumption.
  destruct Hm as (_ & E1 & _ & Hat). simpl.
  intros b i j Hb Hi Hj. rewrite E1.
  apply softmax_vec_ext; [ | exact Hi ].
  intros i' Hi'. apply Hat; assumption.
Qed.

Lemma masked_column_maskable h x mask b j :
  head_accepts h x x x -> finite_head h -> finite3 x ->
  b < dim0 x -> j < dim1 x ->
  maskable (dim1 x) (masked_column h x mask b j).
Proof.
  intros Hh Hf Hx Hb Hj i Hi. unfold masked_column.
  destruct (i <? j); [ left; reflexivity | ].
  destruct (eq0 (at2 mask b j)); [ left; reflexivity | ].
  right. apply (scaled_scores_finite h x x x); assumption.
Qed.

Lemma masked_column_diagonal h x mask b j :
  head_accepts h x x x -> finite_head h -> finite3 x ->
  b < dim0 x -> j < dim1 x -> eq0 (at2 mask b j) = false ->
  is_fin (masked_column h x mask b j j).
Proof.
  intros Hh Hf Hx Hb Hj Hm. unfold masked_column.
  rewrite Nat.ltb_irrefl, Hm. apply (scaled_scores_finite h x x x); assumption.
Qed.

(** a later key that the mask keeps gets weight 0; a key that the mask
    drops gets [nan] from every query *)
Lemma attention_self_later_key h x mask g :
  head_accepts h x x x -> finite_head h -> finite3 x ->
  rows mask = dim0 x -> cols mask = dim1 x ->
  exists weights value_ w',
    SelfAttention.attention x x x (Some mask) {| obj := h; gen := g |}
    = (Ok (weights, value_), w') /\
    (forall b i j, b < dim0 x -> i < j -> j < dim1 x ->
       eq0 (at2 mask b j) = false -> at3 weights b i j = Fin 0) /\
    (forall b i j, b < dim0 x -> i < dim1 x -> j < dim1 x ->
       eq0 (at2 mask b j) = true -> at3 weights b i j = NaN).
Proof.
  intros Hh Hf Hx Hr Hc.
  destruct (attention_self_weights h x mask g Hh Hr Hc)
    as (weights & value_ & w' & E & Hat).
  exists weights, value_, w'. split; [ exact E | ]. split.
  - intros b i j Hb Hij Hj Hm. rewrite Hat by lia.
    apply softmax_vec_masked.
    + apply masked_column_maskable; assumption.
    + exists j. split; [ exact Hj | ]. apply masked_column_diagonal; assumption.
    + lia.
    + unfold masked_column. apply Nat.ltb_lt in Hij. rewrite Hij. reflexivity.
  - intros b i j Hb Hi Hj Hm. rewrite Hat by assumption.
    apply softmax_vec_all_masked; [ | exact Hi ].
    intros k Hk. unfold masked_column. rewrite Hm.
    destruct (k <? j); reflexivity.
Qed.

(** ** Sums of non-negative finite terms *)

Section Sums.

Local Open Scope R_scope.

Lemma sum_nonneg n (f : nat -> num) (r : nat -> R) :
  (forall k, (k < n)%nat -> f k = Fin (r k) /\ 0 <= r k) ->
  exists t, Num.sum n f = Fin t /\ 0 <= t /\ forall i, (i < n)%nat -> r i <= t.
Proof.
  induction n as [| n IH]; intros H; simpl.
  - exists 0. repeat split; try lra. intros; lia.
  - destruct IH as (t & Et & Ht & Hle); [ intros k Hk; apply H; lia | ].
    destruct (H n ltac:(lia)) as [En Hn]. rewrite Et, En. simpl.
    exists (t + r n). repeat split; try lra.
    intros i Hi. destruct (Nat.eq_dec i n) as [-> | Hne]; [ lra | ].
    specialize (Hle i ltac:(lia)). lra.
Qed.

Lemma sum_nonneg_two n (f : nat -> num) (r : nat -> R) i i' :
  (forall k, (k < n)%nat -> f k = Fin (r k) /\ 0 <= r k) ->
  (i < i')%nat -> (i' < n)%nat ->
  exists t, Num.sum n f = Fin t /\ r i + r i' <= t.
Proof.
  induction n as [| n IH]; intros H Hii Hi'; [ lia | ]. simpl.
  destruct (H n ltac:(lia)) as [En Hn]. rewrite En.
  destruct (Nat.eq_dec i' n) as [-> | Hne].
  - destruct (sum_nonneg n f r) as (t & Et & _ & Hle);
      [ intros k Hk; apply H; lia | ].
    rewrite Et. simpl. exists (t + r n). split; [ reflexivity | ].
    specialize (Hle i Hii). lra.
  - destruct IH as (t & Et & Ht); [ intros k Hk; apply H; lia | exact Hii | lia | ].
    rewrite Et. simpl. exists (t + r n). split; [ reflexivity | lra ].
Qed.

(** a sum whose terms after the first are 0 *)
Lemma sum_first_only n (f : nat -> num) p :
  (1 <= n)%nat -> f 0%nat = Fin p ->
  (forall j, (0 < j)%nat -> (j < n)%nat -> f j = Fin 0) ->
  exists t, Num.sum n f = Fin t /\ t = p.
Proof.
  induction n as [| n IH]; intros Hn H0 Hrest; [ lia | ]. simpl.
  destruct n as [| n].
  - simpl. rewrite H0. simpl. exists (0 + p). split; [ reflexivity | lra ].
  - destruct IH as (t & Et & Ht); [ lia | exact H0 | intros; apply Hrest; lia | ].
    rewrite Et, (Hrest (S n)) by lia. simpl.
    exists (t + 0). split; [ reflexivity | lra ].
Qed.

(** with two finite entries, each of them gets a weight below 1 *)
Lemma softmax_vec_below_one n x i i' :
  maskable n x -> (i < n)%nat -> (i' < n)%nat -> i <> i' ->
  is_fin (x i) -> is_fin (x i') ->
  exists p, torch.softmax_vec n x i = Fin p /\ 0 < p < 1.
Proof.
  intros Hm Hi Hi' Hne Hfi Hfi'.
  assert (some_finite n x) as Hf by (exists i; split; assumption).
  destruct (maxs_some_finite n x Hm Hf) as [m Em].
  set (f := fun k => Num.exp (Num.sub (x k) (Fin m))).
  set (r := fun k => match f k with Fin e => e | _ => 0 end).
  assert (forall k, (k < n)%nat -> f k = Fin (r k) /\ 0 <= r k) as Hr.
  { intros k Hk. unfold r.
    destruct (exp_shift_maskable n x m k Hm Hk) as (e & Ee & He & _).
    fold (f k) in Ee. rewrite Ee. split; [ reflexivity | exact He ]. }
  assert (0 < r i /\ 0 < r i') as [Hri Hri'].
  { destruct (exp_shift_maskable n x m i Hm Hi) as (e & Ee & _ & He & _).
    destruct (exp_shift_maskable n x m i' Hm Hi') as (e' & Ee' & _ & He' & _).
    destruct (Hr i Hi) as [Ei _]. destruct (Hr i' Hi') as [Ei' _].
    unfold f in Ei, Ei'. rewrite Ee in Ei. rewrite Ee' in Ei'.
    injection Ei as Ei. injection Ei' as Ei'. rewrite <- Ei, <- Ei'. split; auto. }
  assert (exists t, Num.sum n f = Fin t /\ r i + r i' <= t) as (t & Et & Ht).
  { destruct (Nat.lt_ge_cases i i') as [Hlt | Hge].
    - apply sum_nonneg_two; assumption.
    - destruct (sum_nonneg_two n f r i' i Hr ltac:(lia) Hi) as (t & Et & Ht).
      exists t. split; [ exact Et | lra ]. }
  unfold torch.softmax_vec. rewrite Em.
  change (exists p, Num.div (f i) (Num.sum n f) = Fin p /\ 0 < p < 1).
  rewrite Et. destruct (Hr i Hi) as [Ei _]. rewrite Ei. simpl.
  destruct (Req_dec_T t 0) as [E0 | _]; [ lra | ].
  exists (r i / t). split; [ reflexivity | ]. split.
  - apply Rdiv_lt_0_compat; lra.
  - apply Rmult_lt_reg_r with (r := t); [ lra | ].
    unfold Rdiv. rewrite Rmult_assoc, Rinv_l by lra. lra.
Qed.

End Sums.

Lemma eq0_one : eq0 one = false.
Proof. unfold eq0, one. destruct (Req_dec_T 1 0) as [E | _]; [ lra | reflexivity ]. Qed.

Lemma eq0_zero : eq0 zero = true.
Proof. unfold eq0, zero. destruct (Req_dec_T 0 0) as [_ | E]; [ reflexivity | lra ]. Qed.

(** ** C1: the axis of the softmax *)

(** C1 (the code departs from the claim).  [torch.softmax(scores, dim=1)]
    normalises over axis 1 of [scores], the query axis.  For every
    well-formed head, finite input of at least two positions and mask of
    ones, a self-attention call returns weights that sum to 1 over the
    queries for every key, while the weights of the first query sum over the
    key axis to less than 1. *)
Theorem softmax_normalises_over_queries_not_keys :
  forall (h : SelfAttention.t) (x : tensor3) (mask : tensor2) (g : Rng),
    head_accepts h x x x -> finite_head h -> finite3 x ->
    rows mask = dim0 x -> cols mask = dim1 x ->
    (forall b j, b < rows mask -> j < cols mask -> at2 mask b j = one) ->
    2 <= dim1 x ->
    exists weights value_ w',
      SelfAttention.attention x x x (Some mask) {| obj := h; gen := g |}
      = (Ok (weights, value_), w') /\
      (forall b j, b < dim0 x -> j < dim1 x ->
         Num.sum (dim1 x) (fun i => at3 weights b i j) = Fin 1) /\
      (forall b, b < dim0 x ->
         exists p, Num.sum (dim1 x) (fun j => at3 weights b 0 j) = Fin p /\
                   (0 < p < 1)%R).
Proof.
  intros h x mask g Hh Hf Hx Hr Hc Hones HT.
  destruct (attention_self_weights h x mask g Hh Hr Hc)
    as (weights & value_ & w' & E & Hat).
  exists weights, value_, w'. split; [ exact E | ].
  assert (forall b j, b < dim0 x -> j < dim1 x -> eq0 (at2 mask b j) = false) as Hm.
  { intros b j Hb Hj. rewrite Hones by lia. apply eq0_one. }
  split.
  - intros b j Hb Hj.
    rewrite (sum_ext (dim1 x) (fun i => at3 weights b i j)
               (torch.softmax_vec (dim1 x) (masked_column h x mask b j)))
      by (intros i Hi; apply Hat; assumption).
    apply softmax_vec_sums_to_one.
    + apply masked_column_maskable; assumption.
    + exists j. split; [ exact Hj | ].
      apply masked_column_diagonal; auto.
  - intros b Hb.
    assert (forall i, i < dim1 x -> is_fin (masked_column h x mask b 0 i)) as Hcol.
    { intros i Hi. unfold masked_column. simpl. rewrite Hm by lia.
      apply (scaled_scores_finite h x x x); try assumption; lia. }
    destruct (softmax_vec_below_one (dim1 x) (masked_column h x mask b 0) 0 1)
      as (p & Ep & Hp); try lia.
    + apply masked_column_maskable; try assumption. lia.
    + apply Hcol. lia.
    + apply Hcol. lia.
    + destruct (sum_first_only (dim1 x) (fun j => at3 weights b 0 j) p)
        as (t & Et & ->).
      * lia.
      * rewrite Hat by lia. exact Ep.
      * intros j Hj0 Hj. rewrite Hat by lia.
        apply softmax_vec_masked.
        -- apply masked_column_maskable; assumption.
        -- exists j. split; [ exact Hj | ]. apply masked_column_diagonal; auto.
        -- lia.
        -- unfold masked_column. apply Nat.ltb_lt in Hj0. rewrite Hj0. reflexivity.
      * exists p. split; [ exact Et | exact Hp ].
Qed.

(** *** the example head on sequences of ones *)

Lemma example_lin_accepts w b n : accepts (Example.lin w b) (Example.seq_of_ones n).
Proof. split; reflexivity. Qed.

Lemma example_head_accepts n :
  head_accepts Example.head (Example.seq_of_ones n) (Example.seq_of_ones n)
               (Example.seq_of_ones n).
Proof. repeat split. Qed.

Lemma example_lin_finite w b : finite_linear (Example.lin w b).
Proof. split; intros; exact I. Qed.

Lemma example_head_finite : finite_head Example.head.
Proof.
  split; [ apply example_lin_finite | split; [ apply example_lin_finite | ] ].
  unfold Linear.out_features. simpl. lia.
Qed.

Lemma example_seq_finite n : finite3 (Example.seq_of_ones n).
Proof. intros b i j _ _ _. exact I. Qed.

Lemma example_mask_ones b j :
  b < 1 -> j < 2 -> at2 (Example.mask_of [1; 1]%R) b j = one.
Proof. intros _ Hj. destruct j as [| [| j]]; [ reflexivity | reflexivity | lia ]. Qed.

Lemma softmax_normalises_over_queries_not_keys_witness :
  exists weights value_ w',
    SelfAttention.attention (Example.seq_of_ones 2) (Example.seq_of_ones 2)
      (Example.seq_of_ones 2) (Some (Example.mask_of [1; 1]%R))
      {| obj := Example.head; gen := Example.gen0 |}
    = (Ok (weights, value_), w') /\
    (forall b j, b < 1 -> j < 2 ->
       Num.sum 2 (fun i => at3 weights b i j) = Fin 1) /\
    (forall b, b < 1 ->
       exists p, Num.sum 2 (fun j => at3 weights b 0 j) = Fin p /\ (0 < p < 1)%R).
Proof.
  apply (softmax_normalises_over_queries_not_keys Example.head
           (Example.seq_of_ones 2) (Example.mask_of [1; 1]%R) Example.gen0).
  - apply example_head_accepts.
  - apply example_head_finite.
  - apply example_seq_finite.
  - reflexivity.
  - reflexivity.
  - apply example_mask_ones.
  - simpl. lia.
Defined.

(** the weights of the example head on two positions with a mask of ones:
    [[1/2, 0], [1/2, 1]]; the rows sum to 1/2 and 3/2 *)
Lemma example_attention_weights :
  exists weights value_ w',
    SelfAttention.attention (Example.seq_of_ones 2) (Example.seq_of_ones 2)
      (Example.seq_of_ones 2) (Some (Example.mask_of [1; 1]%R))
      {| obj := Example.head; gen := Example.gen0 |}
    = (Ok (weights, value_), w') /\
    at3 weights 0 0 0 = Fin (1 / 2) /\ at3 weights 0 0 1 = Fin 0 /\
    at3 weights 0 1 0 = Fin (1 / 2) /\ at3 weights 0 1 1 = Fin 1 /\
    Num.sum 2 (fun j => at3 weights 0 0 j) = Fin (1 / 2) /\
    Num.sum 2 (fun j => at3 weights 0 1 j) = Fin (3 / 2).
Proof.
  pose (x := Example.seq_of_ones 2). pose (mask := Example.mask_of [1; 1]%R).
  destruct (attention_self_weights Example.head x mask Example.gen0
              (example_head_accepts 2) eq_refl eq_refl)
    as (weights & value_ & w' & E & Hat).
  exists weights, value_, w'. split; [ exact E | ].
  assert (forall j, j < 2 -> eq0 (at2 mask 0 j) = false) as Hm.
  { intros j Hj. unfold mask. rewrite example_mask_ones by lia. apply eq0_one. }
  assert (forall j, j < 2 ->
            maskable 2 (masked_column Example.head x mask 0 j)) as Hmk.
  { intros j Hj. apply (masked_column_maskable Example.head x mask 0 j);
      [ apply example_head_accepts | apply example_head_finite
      | apply example_seq_finite | simpl; lia | exact Hj ]. }
  assert (forall j, j < 2 ->
            is_fin (masked_column Example.head x mask 0 j j)) as Hdiag.
  { intros j Hj. apply (masked_column_diagonal Example.head x mask 0 j);
      [ apply example_head_accepts | apply example_head_finite
      | apply example_seq_finite | simpl; lia | exact Hj | apply Hm; exact Hj ]. }
  assert (forall j, j < 2 ->
            some_finite 2 (masked_column Example.head x mask 0 j)) as Hsf.
  { intros j Hj. exists j. split; [ exact Hj | apply Hdiag; exact Hj ]. }
  (* column of key 0: two equal finite scores *)
  destruct (softmax_vec_finite 2 (masked_column Example.head x mask 0 0) 0
              (Hmk 0 ltac:(lia)) ltac:(lia) (Hdiag 0 ltac:(lia))) as (p0 & E00 & _).
  assert (torch.softmax_vec 2 (masked_column Example.head x mask 0 0) 1 = Fin p0)
    as E10.
  { rewrite <- E00. apply softmax_vec_same. reflexivity. }
  pose proof (softmax_vec_sums_to_one 2 _ (Hmk 0 ltac:(lia)) (Hsf 0 ltac:(lia))) as S0.
  simpl in S0. rewrite E00, E10 in S0. simpl in S0. injection S0 as S0.
  (* column of key 1: the first query is masked *)
  assert (torch.softmax_vec 2 (masked_column Example.head x mask 0 1) 0 = Fin 0)
    as E01.
  { apply softmax_vec_masked;
      [ apply Hmk; lia | apply Hsf; lia | lia | reflexivity ]. }
  destruct (softmax_vec_finite 2 (masked_column Example.head x mask 0 1) 1
              (Hmk 1 ltac:(lia)) ltac:(lia) (Hdiag 1 ltac:(lia))) as (p1 & E11 & _).
  pose proof (softmax_vec_sums_to_one 2 _ (Hmk 1 ltac:(lia)) (Hsf 1 ltac:(lia))) as S1.
  simpl in S1. rewrite E01, E11 in S1. simpl in S1. injection S1 as S1.
  assert (at3 weights 0 0 0 = Fin p0) as W00 by (rewrite Hat by (simpl; lia); exact E00).
  assert (at3 weights 0 1 0 = Fin p0) as W10 by (rewrite Hat by (simpl; lia); exact E10).
  assert (at3 weights 0 0 1 = Fin 0) as W01 by (rewrite Hat by (simpl; lia); exact E01).
  assert (at3 weights 0 1 1 = Fin p1) as W11 by (rewrite Hat by (simpl; lia); exact E11).
  simpl. rewrite W00, W01, W10, W11. simpl.
  repeat split; f_equal; lra.
Qed.

(** ** C5, C6: what the masks do to the weights *)

(** C5 (the code departs from the claim).  In a self-attention call with a
    mask, the weight from a query to a later key is exactly 0 when the mask
    keeps that key, and is [nan] when the mask drops it: the weight depends
    on the content of the mask. *)
Theorem later_key_weight_is_zero_or_nan :
  forall (h : SelfAttention.t) (x : tensor3) (mask : tensor2) (g : Rng),
    head_accepts h x x x -> finite_head h -> finite3 x ->
    rows mask = dim0 x -> cols mask = dim1 x ->
    exists weights value_ w',
      SelfAttention.attention x x x (Some mask) {| obj := h; gen := g |}
      = (Ok (weights, value_), w') /\
      forall b i j, b < dim0 x -> i < j -> j < dim1 x ->
        at3 weights b i j = if eq0 (at2 mask b j) then NaN else Fin 0.
Proof.
  intros h x mask g Hh Hf Hx Hr Hc.
  destruct (attention_self_later_key h x mask g Hh Hf Hx Hr Hc)
    as (weights & value_ & w' & E & Hzero & Hnan).
  exists weights, value_, w'. split; [ exact E | ].
  intros b i j Hb Hij Hj. destruct (eq0 (at2 mask b j)) eqn:Em.
  - apply Hnan; try assumption. lia.
  - apply Hzero; assumption.
Qed.

(** two positions, the second one marked invalid: the weight from query 0
    to key 1 is [nan] *)
Lemma later_key_weight_is_zero_or_nan_witness :
  exists weights value_ w',
    SelfAttention.attention (Example.seq_of_ones 2) (Example.seq_of_ones 2)
      (Example.seq_of_ones 2) (Some (Example.mask_of [1; 0]%R))
      {| obj := Example.head; gen := Example.gen0 |}
    = (Ok (weights, value_), w') /\
    at3 weights 0 0 1 = NaN.
Proof.
  destruct (later_key_weight_is_zero_or_nan Example.head
              (Example.seq_of_ones 2) (Example.mask_of [1; 0]%R) Example.gen0)
    as (weights & value_ & w' & E & H).
  - apply example_head_accepts.
  - apply example_head_finite.
  - apply example_seq_finite.
  - reflexivity.
  - reflexivity.
  - exists weights, value_, w'. split; [ exact E | ].
    rewrite (H 0 0 1) by (simpl; lia).
    change (at2 (Example.mask_of [1; 0]%R) 0 1) with zero.
    rewrite eq0_zero. reflexivity.
Defined.

(** C6 (the code departs from the claim).  When the mask marks key [j] of a
    batch element invalid, the whole column of scores of that key is [-inf],
    and the softmax over the query axis returns [nan], not 0, as the weight
    of that key from every query. *)
Theorem dropped_key_weight_is_nan :
  forall (h : SelfAttention.t) (x : tensor3) (mask : tensor2) (g : Rng),
    head_accepts h x x x -> rows mask = dim0 x -> cols mask = dim1 x ->
    exists weights value_ w',
      SelfAttention.attention x x x (Some mask) {| obj := h; gen := g |}
      = (Ok (weights, value_), w') /\
      forall b i j, b < dim0 x -> i < dim1 x -> j < dim1 x ->
        eq0 (at2 mask b j) = true -> at3 weights b i j = NaN.
Proof.
  intros h x mask g Hh Hr Hc.
  destruct (attention_self_weights h x mask g Hh Hr Hc)
    as (weights & value_ & w' & E & Hat).
  exists weights, value_, w'. split; [ exact E | ].
  intros b i j Hb Hi Hj Hm. rewrite Hat by assumption.
  apply softmax_vec_all_masked; [ | exact Hi ].
  intros k Hk. unfold masked_column. rewrite Hm.
  destruct (k <? j); reflexivity.
Qed.

(** two positions, the first one marked invalid: key 0 gets [nan] from
    both queries *)
Lemma dropped_key_weight_is_nan_witness :
  exists weights value_ w',
    SelfAttention.attention (Example.seq_of_ones 2) (Example.seq_of_ones 2)
      (Example.seq_of_ones 2) (Some (Example.mask_of [0; 1]%R))
      {| obj := Example.head; gen := Example.gen0 |}
    = (Ok (weights, value_), w') /\
    at3 weights 0 0 0 = NaN /\ at3 weights 0 1 0 = NaN.
Proof.
  destruct (dropped_key_weight_is_nan Example.head
              (Example.seq_of_ones 2) (Example.mask_of [0; 1]%R) Example.gen0)
    as (weights & value_ & w' & E & H).
  - apply example_head_accepts.
  - reflexivity.
  - reflexivity.
  - exists weights, value_, w'. split; [ exact E | ].
    split; apply H; simpl; try lia; apply eq0_zero.
Defined.

(** ** C8: a model in evaluation mode, and what training mode does *)

Lemma example_model_eval_mode : Transformer.eval_mode (Transformer.eval Example.model).
Proof.
  unfold Transformer.eval_mode, Encoder.eval_mode, Decoder.eval_mode,
    EncoderLayer.eval_mode, DecoderLayer.eval_mode,
    MultiHeadedAttention.eval_mode, Sequential.eval_mode,
    SelfAttention.eval_mode, Dropout.eval_mode.
  simpl. repeat constructor.
Qed.

Lemma forward_deterministic_in_eval_mode_witness :
  Transformer.eval_mode (Transformer.eval Example.model) /\
  shape_of (fst (Transformer.forward (Example.seq_of_ones 2) (Example.seq_of_ones 2)
                   (Some (Example.mask_of [1; 1]%R)) (Some (Example.mask_of [1; 1]%R))
                   {| obj := Transformer.eval Example.model; gen := Example.gen0 |}))
  = Some (1, 2, 1) /\
  fst (Transformer.forward (Example.seq_of_ones 2) (Example.seq_of_ones 2)
         (Some (Example.mask_of [1; 1]%R)) (Some (Example.mask_of [1; 1]%R))
         {| obj := Transformer.eval Example.model; gen := Example.gen0 |})
  = fst (Transformer.forward (Example.seq_of_ones 2) (Example.seq_of_ones 2)
           (Some (Example.mask_of [1; 1]%R)) (Some (Example.mask_of [1; 1]%R))
           {| obj := Transformer.eval Example.model; gen := Example.gen1 |}).
Proof.
  split; [ apply example_model_eval_mode | ].
  split; [ vm_compute; reflexivity | ].
  exact (proj1 (forward_deterministic_in_eval_mode (Transformer.eval Example.model)
                  (Example.seq_of_ones 2) (Example.seq_of_ones 2)
                  (Some (Example.mask_of [1; 1]%R)) (Some (Example.mask_of [1; 1]%R))
                  Example.gen0 Example.gen1 example_model_eval_mode)).
Defined.

(** in training mode the outcome of a dropout layer does depend on the
    generator: the same input is kept under one tape and zeroed under
    another *)
Lemma dropout_in_training_depends_on_generator :
  exists o1 o2,
    fst (Dropout.forward (Example.seq_of_ones 1)
           {| obj := Example.drop true; gen := Example.gen0 |}) = Ok o1 /\
    fst (Dropout.forward (Example.seq_of_ones 1)
           {| obj := Example.drop true; gen := Example.gen1 |}) = Ok o2 /\
    at3 o1 0 0 0 <> at3 o2 0 0 0.
Proof.
  eexists. eexists. split; [ reflexivity | ]. split; [ reflexivity | ].
  simpl. unfold draw, dropout_default. simpl.
  destruct (Rlt_dec (/ 2) (3 / 10)) as [H | _]; [ lra | ].
  destruct (Rlt_dec 0 (3 / 10)) as [_ | H]; [ | lra ].
  simpl. intros H. injection H as H.
  assert (/ (1 - 3 / 10) = 10 / 7)%R as E by (field; lra).
  rewrite E in H. lra.
Qed.

(** ** Which calls a forward pass makes *)

Lemma call_Ok_inv {Self T A} (get : Self -> T) set (m : Method T A) w a w' :
  call get set m w = (Ok a, w') ->
  exists w1, m {| obj := get (obj w); gen := gen w |} = (Ok a, w1).
Proof.
  unfold call. destruct (m {| obj := get (obj w); gen := gen w |}) as [r w1].
  intros H. injection H as -> _. exists w1. reflexivity.
Qed.

Lemma for_each_Ok_first {Self T A B} (get : Self -> list T) set
    (step : A -> B -> Method T A) acc arg (w : World Self) a w' x rest :
  for_each get set step acc arg w = (Ok a, w') -> get (obj w) = x :: rest ->
  exists a1 w1, step acc arg {| obj := x; gen := gen w |} = (Ok a1, w1).
Proof.
  unfold for_each. intros H Hl. rewrite Hl in H. simpl in H.
  destruct (step acc arg {| obj := x; gen := gen w |}) as [[a1 | e] w1].
  - exists a1, w1. reflexivity.
  - discriminate.
Qed.

(** the heads of an attention block all ran on the arguments of the block *)
Lemma MultiHeadedAttention_forward_heads q k v mask m g out w' :
  MultiHeadedAttention.forward q k v mask {| obj := m; gen := g |} = (Ok out, w') ->
  Forall (fun h => exists g1 a w1,
              SelfAttention.forward q k v mask {| obj := h; gen := g1 |} = (Ok a, w1))
         (MultiHeadedAttention.attentions m).
Proof.
  intros H. apply MultiHeadedAttention_forward_inv in H.
  destruct H as (heads & x & Hheads & _).
  induction Hheads as [| h a hs outs (g1 & w1 & Hh) _ IH]; constructor.
  - exists g1, a, w1. exact Hh.
  - exact IH.
Qed.

(** an encoder layer that returns has run every head of its attention block
    on [(src, src, src, src_mask)] *)
Lemma EncoderLayer_forward_heads src src_mask layer g out w' :
  EncoderLayer.forward src src_mask {| obj := layer; gen := g |} = (Ok out, w') ->
  Forall (fun h => exists g1 a w1,
              SelfAttention.forward src src src src_mask {| obj := h; gen := g1 |}
              = (Ok a, w1))
         (MultiHeadedAttention.attentions (EncoderLayer.attn layer)).
Proof.
  unfold EncoderLayer.forward; cbv zeta. intros H.
  apply bind_Ok_inv in H. destruct H as (a & w1 & H1 & _).
  apply call_Ok_inv in H1. destruct H1 as (w2 & H1). simpl in H1.
  exact (MultiHeadedAttention_forward_heads _ _ _ _ _ _ _ _ H1).
Qed.

(** a forward pass that returns has run the self-attention heads of the
    first decoder layer on [(tgt, tgt, tgt, src_mask)]: the mask of the
    source, on the target sequence *)
Lemma Transformer_forward_decoder_self_attention_mask
    src tgt src_mask tgt_mask model g out w' layer rest :
  Transformer.forward src tgt src_mask tgt_mask {| obj := model; gen := g |}
    = (Ok out, w') ->
  Decoder.dec_layers (Transformer.decoder model) = layer :: rest ->
  Forall (fun h => exists g1 a w1,
              SelfAttention.forward tgt tgt tgt src_mask {| obj := h; gen := g1 |}
              = (Ok a, w1))
         (MultiHeadedAttention.attentions (DecoderLayer.masked_attn layer)).
Proof.
  unfold Transformer.forward. intros H Hl.
  apply bind_Ok_inv in H. destruct H as (enc_out & w1 & H1 & H).
  pose proof (frame_call Transformer.encoder Transformer.set_encoder
                (Encoder.forward src src_mask) ltac:(lens)
                (Encoder_forward_frame src src_mask) {| obj := model; gen := g |}) as Hfr.
  rewrite H1 in Hfr. simpl in Hfr.
  apply bind_Ok_inv in H. destruct H as (dec_out & w2 & H2 & _).
  apply call_Ok_inv in H2. destruct H2 as (w3 & H2). rewrite Hfr in H2.
  unfold Decoder.forward in H2; cbv zeta in H2.
  destruct (for_each_Ok_first _ _ _ _ _ _ _ _ layer rest H2 Hl) as (a1 & w4 & H4).
  unfold DecoderLayer.forward in H4; cbv zeta in H4.
  apply bind_Ok_inv in H4. destruct H4 as (a & w5 & H5 & _).
  apply call_Ok_inv in H5. destruct H5 as (w6 & H5). simpl in H5.
  exact (MultiHeadedAttention_forward_heads _ _ _ _ _ _ _ _ H5).
Qed.

(** ** Runs of the one-head example model *)

(** the example model returns a tensor of shape (batch, tgt_len, d_model) *)
Lemma example_forward_returns :
  shape_of (fst (Transformer.forward (Example.seq_of_ones 2) (Example.seq_of_ones 2)
                   (Some (Example.mask_of [1; 1]%R)) (Some (Example.mask_of [1; 1]%R))
                   {| obj := Example.model; gen := Example.gen0 |}))
  = Some (1, 2, 1).
Proof. vm_compute. reflexivity. Qed.

(** a source of 3 positions and a target of 1: with the two masks in the
    order of the parameters of [Decoder.forward] the pass would return; as
    [Transformer.forward] passes them it raises *)
Lemma example_masks_in_declared_order :
  shape_of (fst (bind (call Transformer.encoder Transformer.set_encoder
                         (Encoder.forward (Example.seq_of_ones 3)
                            (Some (Example.mask_of [1; 1; 1]%R))))
                   (fun enc_out =>
                      call Transformer.decoder Transformer.set_decoder
                        (Decoder.forward (Example.seq_of_ones 1) enc_out
                           (Some (Example.mask_of [1]%R))
                           (Some (Example.mask_of [1; 1; 1]%R))))
                   {| obj := Example.model; gen := Example.gen0 |}))
  = Some (1, 1, 1) /\
  fst (Transformer.forward (Example.seq_of_ones 3) (Example.seq_of_ones 1)
         (Some (Example.mask_of [1; 1; 1]%R)) (Some (Example.mask_of [1]%R))
         {| obj := Example.model; gen := Example.gen0 |})
  = Raise RuntimeError.
Proof. split; vm_compute; reflexivity. Qed.

(** * Shape contracts of the forward methods *)

(** ** Total runs of methods *)

Section Returns.

Context {Self T A B : Type}.

Lemma returns_ret (s : Self) (a : A) (P : A -> Prop) : P a -> returns (ret a) s P.
Proof. intros H g. exists a, g. split; [ reflexivity | exact H ]. Qed.

Lemma returns_lift (s : Self) (r : Res A) (a : A) (P : A -> Prop) :
  r = Ok a -> P a -> returns (lift r) s P.
Proof. intros -> H g. exists a, g. split; [ reflexivity | exact H ]. Qed.

Lemma returns_bind (m : Method Self A) (f : A -> Method Self B) s
    (P : A -> Prop) (Q : B -> Prop) :
  returns m s P -> (forall a, P a -> returns (f a) s Q) -> returns (bind m f) s Q.
Proof.
  intros Hm Hf g. destruct (Hm g) as (a & g1 & E & Ha).
  destruct (Hf a Ha g1) as (b & g2 & E2 & Hb).
  exists b, g2. unfold bind. rewrite E. split; assumption.
Qed.

Lemma returns_call (get : Self -> T) (set : T -> Self -> Self) (m : Method T A) s
    (P : A -> Prop) :
  set (get s) s = s -> returns m (get s) P -> returns (call get set m) s P.
Proof.
  intros Hlens Hm g. destruct (Hm g) as (a & g1 & E & Ha).
  exists a, g1. unfold call. simpl. rewrite E. simpl. rewrite Hlens.
  split; [ reflexivity | exact Ha ].
Qed.

Lemma returns_weaken (m : Method Self A) s (P Q : A -> Prop) :
  returns m s P -> (forall a, P a -> Q a) -> returns m s Q.
Proof.
  intros Hm HPQ g. destruct (Hm g) as (a & g1 & E & Ha).
  exists a, g1. split; [ exact E | apply HPQ; exact Ha ].
Qed.

(** a loop over members that all return, with an invariant of the
    accumulator *)
Lemma visit_returns (step : A -> B -> Method T A) (I : A -> Prop) arg :
  forall l, Forall (fun x => forall acc, I acc -> returns (step acc arg) x I) l ->
  forall acc g, I acc ->
    exists a g', visit step l acc arg g = (Ok a, l, g') /\ I a.
Proof.
  induction l as [| x rest IH]; intros Hl acc g Hacc; simpl.
  - exists acc, g. split; [ reflexivity | exact Hacc ].
  - inversion Hl as [| ? ? Hx Hrest]; subst.
    destruct (Hx acc Hacc g) as (a & g1 & E & Ha). rewrite E. simpl.
    destruct (IH Hrest a g1 Ha) as (a' & g2 & E' & Ha'). rewrite E'.
    exists a', g2. split; [ reflexivity | exact Ha' ].
Qed.

Lemma returns_for_each (get : Self -> list T) (set : list T -> Self -> Self)
    (step : A -> B -> Method T A) (I : A -> Prop) acc arg s :
  set (get s) s = s ->
  Forall (fun x => forall acc, I acc -> returns (step acc arg) x I) (get s) ->
  I acc -> returns (for_each get set step acc arg) s I.
Proof.
  intros Hlens Hl Hacc g. unfold for_each. simpl.
  destruct (visit_returns step I arg (get s) Hl acc g Hacc) as (a & g' & E & Ha).
  rewrite E. rewrite Hlens. exists a, g'. split; [ reflexivity | exact Ha ].
Qed.

(** a comprehension over members that all return *)
Lemma comprehend_returns (f : B -> Method T A) (P : A -> Prop) arg :
  forall l, Forall (fun x => returns (f arg) x P) l ->
  forall g, exists outs g',
    comprehend f l arg g = (Ok outs, l, g') /\
    Forall P outs /\ length outs = length l.
Proof.
  induction l as [| x rest IH]; intros Hl g; simpl.
  - exists [], g. repeat split. constructor.
  - inversion Hl as [| ? ? Hx Hrest]; subst.
    destruct (Hx g) as (a & g1 & E & Ha). rewrite E. simpl.
    destruct (IH Hrest g1) as (outs & g2 & E' & Houts & Hlen). rewrite E'.
    exists (a :: outs), g2. repeat split.
    + constructor; assumption.
    + simpl. congruence.
Qed.

Lemma returns_list_of (get : Self -> list T) (set : list T -> Self -> Self)
    (f : B -> Method T A) (P : A -> Prop) arg s :
  set (get s) s = s -> Forall (fun x => returns (f arg) x P) (get s) ->
  returns (list_of get set f arg) s
          (fun outs => Forall P outs /\ length outs = length (get s)).
Proof.
  intros Hlens Hl g. unfold list_of. simpl.
  destruct (comprehend_returns f P arg (get s) Hl g) as (outs & g' & E & H).
  rewrite E. rewrite Hlens. exists outs, g'. split; [ reflexivity | exact H ].
Qed.

End Returns.

(** a method that keeps its receiver and returns, returns in the sense of
    [returns] *)
Lemma returns_of_frame {Self A} (m : Method Self A) s (P : A -> Prop) :
  frame m ->
  (forall g, exists a w', m {| obj := s; gen := g |} = (Ok a, w') /\ P a) ->
  returns m s P.
Proof.
  intros Hfr H g. destruct (H g) as (a & w' & E & Ha).
  pose proof (Hfr {| obj := s; gen := g |}) as Hs. rewrite E in Hs. simpl in Hs.
  destruct w' as [s' g']. simpl in Hs. subst s'.
  exists a, g'. split; [ exact E | exact Ha ].
Qed.

(** ** The layers of torch.nn *)

Lemma Linear_forward_returns i o l x :
  wf_linear i o l -> dim2 x = i ->
  returns (Linear.forward x) l (fun y => has_shape y (dim0 x) (dim1 x) o).
Proof.
  intros (Hi & Ho & Hb) Hx g.
  assert (accepts l x) as Hacc by (split; congruence).
  exists (mk3 (dim0 x) (dim1 x) (Linear.out_features l) (projected l x)), g.
  split.
  - unfold Linear.forward, bind, this, lift. simpl.
    rewrite (linear_Ok_intro x l Hacc). reflexivity.
  - repeat split; simpl; congruence.
Qed.

Lemma layer_norm_Ok_intro x d w b eps :
  dim2 x = d -> len w = d -> len b = d ->
  exists y, torch.layer_norm x d w b eps = Ok y /\
            has_shape y (dim0 x) (dim1 x) (dim2 x).
Proof.
  intros H1 H2 H3. unfold torch.layer_norm.
  rewrite H1, H2, H3, !Nat.eqb_refl. simpl.
  eexists. split; [ reflexivity | ]. repeat split; simpl; try congruence.
Qed.

Lemma LayerNorm_forward_returns d n x :
  wf_norm d n -> dim2 x = d ->
  returns (LayerNorm.forward x) n (fun y => has_shape y (dim0 x) (dim1 x) d).
Proof.
  intros (Hn & Hw & Hb) Hx g.
  destruct (layer_norm_Ok_intro x (LayerNorm.normalized_shape n)
              (LayerNorm.weight n) (LayerNorm.bias n) (LayerNorm.eps n))
    as (y & E & Hy); try congruence.
  exists y, g. split.
  - unfold LayerNorm.forward, bind, this, lift. simpl. rewrite E. reflexivity.
  - destruct Hy as (H0 & H1 & H2). repeat split; congruence.
Qed.

(** dropout returns a tensor of the shape of its input, in training mode
    and outside it *)
Lemma Dropout_forward_returns dr x :
  returns (Dropout.forward x) dr (fun y => has_shape y (dim0 x) (dim1 x) (dim2 x)).
Proof.
  intros g. unfold Dropout.forward, bind, this, with_gen, torch.dropout. simpl.
  destruct (Dropout.training dr); simpl.
  - eexists _, _. split; [ reflexivity | ]. repeat split.
  - exists x, g. split; [ reflexivity | ]. repeat split.
Qed.

Lemma add_Ok_same x y n0 n1 n2 :
  has_shape x n0 n1 n2 -> has_shape y n0 n1 n2 ->
  exists z, torch.add x y = Ok z /\ has_shape z n0 n1 n2.
Proof.
  intros (X0 & X1 & X2) (Y0 & Y1 & Y2). unfold torch.add.
  rewrite X0, X1, X2, Y0, Y1, Y2, !bdim_refl.
  eexists. split; [ reflexivity | ]. repeat split.
Qed.

Lemma Sequential_forward_returns d f x bs n :
  wf_ffn d f -> has_shape x bs n d ->
  returns (Sequential.forward x) f (fun y => has_shape y bs n d).
Proof.
  intros (d_ff & H0 & H3) (X0 & X1 & X2). destruct f as [l0 d2 l3 d4]. simpl in *.
  unfold Sequential.forward; cbv zeta.
  eapply returns_bind.
  { apply returns_call; [ reflexivity | ].
    apply (Linear_forward_returns d d_ff l0 x H0 X2). }
  intros y (Y0 & Y1 & Y2).
  eapply returns_bind.
  { apply returns_call; [ reflexivity | ]. apply Dropout_forward_returns. }
  intros y2 (Z0 & Z1 & Z2). simpl in Z0, Z1, Z2.
  eapply returns_bind.
  { apply returns_call; [ reflexivity | ].
    apply (Linear_forward_returns d_ff d l3 y2 H3). congruence. }
  intros y3 (U0 & U1 & U2).
  eapply returns_bind.
  { apply returns_call; [ reflexivity | ]. apply Dropout_forward_returns. }
  intros y4 (V0 & V1 & V2).
  apply returns_ret. repeat split; congruence.
Qed.

(** ** SelfAttention.forward *)

(** a well-formed head returns on a call with a mask that fits queries and
    keys of the same length *)
Lemma attention_Some_Ok h q k v mask g :
  head_accepts h q k v -> dim0 q = dim0 k -> dim1 q = dim1 k ->
  rows mask = dim0 q -> cols mask = dim1 q ->
  exists weights value_ w',
    SelfAttention.attention q k v (Some mask) {| obj := h; gen := g |}
    = (Ok (weights, value_), w').
Proof.
  intros (Hq & Hk & Hv & Hw) Hb Hlen Hr Hc. destruct h as [Lq Lk Lv Dr]. simpl in *.
  unfold SelfAttention.attention; cbv zeta.
  erewrite bind_Ok_intro
    by (rewrite call_Linear_forward; simpl; rewrite (linear_Ok_intro q Lq Hq); reflexivity).
  erewrite bind_Ok_intro
    by (rewrite call_Linear_forward; simpl; rewrite (linear_Ok_intro k Lk Hk); reflexivity).
  erewrite bind_Ok_intro
    by (rewrite call_Linear_forward; simpl; rewrite (linear_Ok_intro v Lv Hv); reflexivity).
  destruct (bmm_Ok_intro
              (mk3 (dim0 q) (dim1 q) (Linear.out_features Lq) (projected Lq q))
              (torch.transpose12
                 (mk3 (dim0 k) (dim1 k) (Linear.out_features Lk) (projected Lk k))))
    as [prod Hp]; [ exact Hb | exact Hw | ].
  erewrite bind_Ok_intro by (unfold lift; rewrite Hp; reflexivity).
  apply bmm_Ok_eq in Hp. subst prod. simpl. rewrite <- Hlen.
  match goal with
  | |- context [torch.masked_fill ?t (torch.eq_zero _) NInf] =>
      match goal with
      | |- exists _ _ _, bind _ _ ?w = _ =>
          destruct (masking_block_Ok q mask t w) as [sc Hsc];
            [ reflexivity | reflexivity | reflexivity | exact Hr | exact Hc | ]
      end
  end.
  erewrite bind_Ok_intro by exact Hsc.
  erewrite bind_Ok_intro by reflexivity.
  unfold ret. eauto.
Qed.

Lemma attention_Ok h q k v mask g :
  head_accepts h q k v -> dim0 q = dim0 k ->
  mask_fits mask (dim0 q) (dim1 q) (dim1 k) ->
  exists weights value_ w',
    SelfAttention.attention q k v mask {| obj := h; gen := g |}
    = (Ok (weights, value_), w').
Proof.
  intros Hh Hb Hm. destruct mask as [m |].
  - destruct Hm as (Hr & Hc & Hlen).
    apply attention_Some_Ok; try assumption. congruence.
  - apply attention_None_Ok; assumption.
Qed.

(** the shape of the weights: (batch, queries, keys) *)
Lemma attention_weights_shape h q k v mask g weights value_ w' :
  SelfAttention.attention q k v mask {| obj := h; gen := g |}
    = (Ok (weights, value_), w') ->
  mask_fits mask (dim0 q) (dim1 q) (dim1 k) ->
  has_shape weights (dim0 q) (dim1 q) (dim1 k) /\
  has_shape value_ (dim0 v) (dim1 v) (Linear.out_features (SelfAttention.value h)).
Proof.
  intros E Hm. split.
  - apply attention_scores_inv in E. destruct E as (sc & Hsc & ->). simpl.
    destruct mask as [m |].
    + destruct Hm as (Hr & Hc & Hlen).
      unfold masking in Hsc. rewrite <- Hlen in Hsc.
      pose proof (masking_self q m (scaled_scores h q k) sc Hsc Hr
                    ltac:(congruence)) as (S0 & S1 & S2 & _).
      repeat split; simpl; congruence.
    + simpl in Hsc. subst sc. repeat split.
  - apply attention_inv in E.
    destruct E as (query_ & key_ & prod & sc & _ & _ & Hv & _).
    apply linear_Ok_shape in Hv. unfold Linear.out_features.
    destruct Hv as (_ & V0 & V1 & V2). repeat split; assumption.
Qed.

Lemma head_accepts_of_wf d dh h q k v :
  wf_head d dh h -> dim2 q = d -> dim2 k = d -> dim2 v = d -> head_accepts h q k v.
Proof.
  intros ((Q1 & Q2 & Q3) & (K1 & K2 & K3) & (V1 & V2 & V3)) Hq Hk Hv.
  repeat split; congruence.
Qed.

Lemma SelfAttention_forward_returns d dh h q k v mask bs tgt_len seq_len :
  wf_head d dh h ->
  has_shape q bs tgt_len d -> has_shape k bs seq_len d -> has_shape v bs seq_len d ->
  mask_fits mask bs tgt_len seq_len ->
  returns (SelfAttention.forward q k v mask) h
          (fun out => has_shape out bs tgt_len dh).
Proof.
  intros Hh (Q0 & Q1 & Q2) (K0 & K1 & K2) (V0 & V1 & V2) Hm.
  apply returns_of_frame; [ apply SelfAttention_forward_frame | ].
  intros g.
  assert (mask_fits mask (dim0 q) (dim1 q) (dim1 k)) as Hm' by (rewrite Q0, Q1, K1; exact Hm).
  destruct (attention_Ok h q k v mask g
              (head_accepts_of_wf d dh h q k v Hh Q2 K2 V2) ltac:(congruence) Hm')
    as (weights & value_ & w1 & E).
  destruct (attention_weights_shape h q k v mask g weights value_ w1 E Hm')
    as ((W0 & W1 & W2) & (U0 & U1 & U2)).
  destruct (bmm_Ok_intro weights value_) as [out Hout]; [ congruence | congruence | ].
  exists out, w1. split.
  - unfold SelfAttention.forward.
    erewrite bind_Ok_intro by exact E. simpl. unfold lift. rewrite Hout. reflexivity.
  - apply bmm_Ok_shape in Hout. destruct Hout as (_ & _ & O0 & O1 & O2).
    destruct Hh as (_ & _ & (_ & V3 & _)).
    repeat split; congruence.
Qed.

(** ** MultiHeadedAttention.forward *)

(** concatenating [n >= 1] tensors of shape (bs, len, dh) along axis 1 *)
Lemma cat1_Ok_intro bs len dh ts :
  Forall (fun t => has_shape t bs len dh) ts -> ts <> [] ->
  exists x, torch.cat ts 1 = Ok x /\ has_shape x bs (length ts * len) dh.
Proof.
  induction ts as [| t rest IH]; intros Hall Hne; [ contradiction | ].
  inversion Hall as [| ? ? (T0 & T1 & T2) Hrest]; subst.
  destruct rest as [| t' rest'].
  - exists t. split; [ reflexivity | ]. simpl. repeat split; try reflexivity. lia.
  - destruct (IH Hrest ltac:(discriminate)) as (y & Ey & Y0 & Y1 & Y2).
    change (torch.cat (t :: t' :: rest') 1)
      with (match torch.cat (t' :: rest') 1 with
            | Ok y => torch.cat2 t y 1
            | Raise e => Raise e
            end).
    rewrite Ey. unfold torch.cat2. rewrite Y0, Y2, !Nat.eqb_refl. simpl.
    eexists. split; [ reflexivity | ]. repeat split; simpl.
    rewrite Y1. simpl. lia.
Qed.

Lemma MultiHeadedAttention_forward_returns d dh d_out n m q k v mask bs tgt_len seq_len :
  wf_attention d dh d_out n m -> 1 <= n ->
  has_shape q bs tgt_len d -> has_shape k bs seq_len d -> has_shape v bs seq_len d ->
  mask_fits mask bs tgt_len seq_len ->
  returns (MultiHeadedAttention.forward q k v mask) m
          (fun out => has_shape out bs (n * tgt_len) d_out).
Proof.
  intros (Hlen & Hheads & Hout) Hn Hq Hk Hv Hm.
  unfold MultiHeadedAttention.forward.
  eapply returns_bind.
  { apply returns_list_of with (P := fun a => has_shape a bs tgt_len dh).
    - destruct m; reflexivity.
    - eapply Forall_impl; [ | exact Hheads ]. simpl. intros h Hh.
      apply (SelfAttention_forward_returns d dh h q k v mask bs tgt_len seq_len);
        assumption. }
  simpl. intros heads (Hshapes & Hl).
  destruct (cat1_Ok_intro bs tgt_len dh heads Hshapes) as (x & Ex & X0 & X1 & X2).
  { intros ->. simpl in Hl. lia. }
  eapply returns_bind.
  { eapply returns_lift; [ exact Ex | ].
    instantiate (1 := fun x => has_shape x bs (n * tgt_len) dh).
    repeat split; congruence. }
  simpl. intros y (Y0 & Y1 & Y2).
  eapply returns_bind.
  { apply returns_call; [ destruct m; reflexivity | ].
    apply (Linear_forward_returns dh d_out _ y Hout Y2). }
  simpl. intros z (Z0 & Z1 & Z2).
  apply returns_ret. repeat split; congruence.
Qed.

(** ** EncoderLayer.forward and DecoderLayer.forward *)

Lemma norm_sublayer_returns {Self} (get : Self -> LayerNorm.t) set
    (s : Self) d x bs n :
  set (get s) s = s -> wf_norm d (get s) -> has_shape x bs n d ->
  returns (call get set (LayerNorm.forward x)) s (fun y => has_shape y bs n d).
Proof.
  intros Hlens Hn (X0 & X1 & X2).
  apply returns_call; [ exact Hlens | ].
  eapply returns_weaken; [ apply (LayerNorm_forward_returns d (get s) x Hn X2) | ].
  simpl. intros y (Y0 & Y1 & Y2). repeat split; congruence.
Qed.

Ltac shaped_step bs n d :=
  apply returns_bind with (P := fun y => has_shape y bs n d); [ | simpl ].

Ltac shaped_add x a bs n d :=
  let z := fresh "z" in
  let Ez := fresh "Ez" in
  let Hz := fresh "Hz" in
  destruct (add_Ok_same x a bs n d) as (z & Ez & Hz);
  [ assumption | assumption | ];
  shaped_step bs n d; [ apply (returns_lift _ _ z); [ exact Ez | exact Hz ] | ].

Lemma EncoderLayer_forward_returns d l src src_mask bs n :
  wf_encoder_layer d l -> has_shape src bs n d -> mask_fits src_mask bs n n ->
  returns (EncoderLayer.forward src src_mask) l (fun out => has_shape out bs n d).
Proof.
  intros (Ha & Hf & Hn1 & Hn2) Hsrc Hm.
  unfold EncoderLayer.forward; cbv zeta.
  shaped_step bs n d.
  { apply returns_call; [ destruct l; reflexivity | ].
    eapply returns_weaken.
    - apply (MultiHeadedAttention_forward_returns d d d 1 (EncoderLayer.attn l)
               src src src src_mask bs n n Ha (le_n 1) Hsrc Hsrc Hsrc Hm).
    - simpl. intros a. rewrite Nat.add_0_r. trivial. }
  intros a Ha'. shaped_add src a bs n d. intros x1 Hx1.
  shaped_step bs n d.
  { apply norm_sublayer_returns; [ destruct l; reflexivity | assumption .. ]. }
  intros x2 Hx2. shaped_step bs n d.
  { apply returns_call; [ destruct l; reflexivity | ].
    apply (Sequential_forward_returns d (EncoderLayer.ffn l) x2 bs n Hf Hx2). }
  intros f Hfs. shaped_add x2 f bs n d. intros x3 Hx3.
  shaped_step bs n d.
  { apply norm_sublayer_returns; [ destruct l; reflexivity | assumption .. ]. }
  intros x4 Hx4. apply returns_ret. exact Hx4.
Qed.

Lemma DecoderLayer_forward_returns d l tgt enc tgt_mask enc_mask bs tgt_len seq_len :
  wf_decoder_layer d l ->
  has_shape tgt bs tgt_len d -> has_shape enc bs seq_len d ->
  mask_fits tgt_mask bs tgt_len tgt_len -> mask_fits enc_mask bs tgt_len seq_len ->
  returns (DecoderLayer.forward tgt enc tgt_mask enc_mask) l
          (fun out => has_shape out bs tgt_len d).
Proof.
  intros (Ha1 & Ha2 & Hf & Hn1 & Hn2 & Hn3) Htgt Henc Hm1 Hm2.
  unfold DecoderLayer.forward; cbv zeta.
  shaped_step bs tgt_len d.
  { apply returns_call; [ destruct l; reflexivity | ].
    eapply returns_weaken.
    - apply (MultiHeadedAttention_forward_returns d d d 1 (DecoderLayer.masked_attn l)
               tgt tgt tgt tgt_mask bs tgt_len tgt_len Ha1 (le_n 1) Htgt Htgt Htgt Hm1).
    - simpl. intros a. rewrite Nat.add_0_r. trivial. }
  intros a Ha'. shaped_add tgt a bs tgt_len d. intros x1 Hx1.
  shaped_step bs tgt_len d.
  { apply norm_sublayer_returns; [ destruct l; reflexivity | assumption .. ]. }
  intros x2 Hx2. shaped_step bs tgt_len d.
  { apply returns_call; [ destruct l; reflexivity | ].
    eapply returns_weaken.
    - apply (MultiHeadedAttention_forward_returns d d d 1 (DecoderLayer.attn l)
               x2 enc enc enc_mask bs tgt_len seq_len Ha2 (le_n 1) Hx2 Henc Henc Hm2).
    - simpl. intros c. rewrite Nat.add_0_r. trivial. }
  intros c Hc. shaped_add x2 c bs tgt_len d. intros x3 Hx3.
  shaped_step bs tgt_len d.
  { apply norm_sublayer_returns; [ destruct l; reflexivity | assumption .. ]. }
  intros x4 Hx4. shaped_step bs tgt_len d.
  { apply returns_call; [ destruct l; reflexivity | ].
    apply (Sequential_forward_returns d (DecoderLayer.ffn l) x4 bs tgt_len Hf Hx4). }
  intros f Hfs. shaped_add x4 f bs tgt_len d. intros x5 Hx5.
  shaped_step bs tgt_len d.
  { apply norm_sublayer_returns; [ destruct l; reflexivity | assumption .. ]. }
  intros x6 Hx6. apply returns_ret. exact Hx6.
Qed.

(** ** Encoder.forward, Decoder.forward, Transformer.forward *)

Lemma Encoder_forward_returns d e src src_mask bs n :
  Forall (wf_encoder_layer d) (Encoder.enc_layers e) ->
  has_shape src bs n d -> mask_fits src_mask bs n n ->
  returns (Encoder.forward src src_mask) e (fun out => has_shape out bs n d).
Proof.
  intros Hl Hsrc Hm. unfold Encoder.forward; cbv zeta.
  apply returns_for_each with (I := fun out => has_shape out bs n d).
  - destruct e; reflexivity.
  - eapply Forall_impl; [ | exact Hl ]. simpl. intros l Hwf acc Hacc.
    apply (EncoderLayer_forward_returns d l acc src_mask bs n Hwf Hacc Hm).
  - exact Hsrc.
Qed.

Lemma Decoder_forward_returns d dc tgt enc tgt_mask enc_mask bs tgt_len seq_len :
  Forall (wf_decoder_layer d) (Decoder.dec_layers dc) ->
  has_shape tgt bs tgt_len d -> has_shape enc bs seq_len d ->
  mask_fits tgt_mask bs tgt_len tgt_len -> mask_fits enc_mask bs tgt_len seq_len ->
  returns (Decoder.forward tgt enc tgt_mask enc_mask) dc
          (fun out => has_shape out bs tgt_len d).
Proof.
  intros Hl Htgt Henc Hm1 Hm2. unfold Decoder.forward; cbv zeta.
  apply returns_for_each with (I := fun out => has_shape out bs tgt_len d).
  - destruct dc; reflexivity.
  - eapply Forall_impl; [ | exact Hl ]. simpl. intros l Hwf acc Hacc.
    apply (DecoderLayer_forward_returns d l acc enc tgt_mask enc_mask bs tgt_len seq_len
             Hwf Hacc Henc Hm1 Hm2).
  - exact Htgt.
Qed.

Lemma Transformer_forward_returns d m src tgt src_mask tgt_mask bs src_len tgt_len :
  wf_model d m ->
  has_shape src bs src_len d -> has_shape tgt bs tgt_len d ->
  mask_fits src_mask bs src_len src_len -> mask_fits src_mask bs tgt_len tgt_len ->
  mask_fits tgt_mask bs tgt_len src_len ->
  returns (Transformer.forward src tgt src_mask tgt_mask) m
          (fun out => has_shape out bs tgt_len d).
Proof.
  intros (He & Hd) Hsrc Htgt Hm1 Hm2 Hm3. unfold Transformer.forward.
  apply returns_bind with (P := fun y => has_shape y bs src_len d).
  { apply returns_call; [ destruct m; reflexivity | ].
    apply (Encoder_forward_returns d _ src src_mask bs src_len He Hsrc Hm1). }
  simpl. intros enc_out Henc.
  apply returns_bind with (P := fun y => has_shape y bs tgt_len d).
  { apply returns_call; [ destruct m; reflexivity | ].
    apply (Decoder_forward_returns d _ tgt enc_out src_mask tgt_mask bs tgt_len src_len
             Hd Htgt Henc Hm2 Hm3). }
  simpl. intros out Hout. apply returns_ret. exact Hout.
Qed.

(** ** What the constructors build, with one head *)

Lemma Linear_init_wf (i o : Z) :
  (0 <= i)%Z -> (0 <= o)%Z ->
  builds (Linear.init i o) (wf_linear (Z.to_nat i) (Z.to_nat o)).
Proof.
  intros Hi Ho g. unfold Linear.init.
  destruct ((i <? 0)%Z || (o <? 0)%Z) eqn:E.
  - apply orb_prop in E. destruct E as [E | E]; apply Z.ltb_lt in E; lia.
  - eexists _, _. split; [ reflexivity | ]. repeat split.
Qed.

Lemma LayerNorm_init_wf (d : Z) :
  (0 <= d)%Z -> builds (LayerNorm.init d) (wf_norm (Z.to_nat d)).
Proof.
  intros Hd g. unfold LayerNorm.init.
  destruct (d <? 0)%Z eqn:E; [ apply Z.ltb_lt in E; lia | ].
  eexists _, _. split; [ reflexivity | ]. repeat split.
Qed.

Lemma SelfAttention_init_wf (d o : Z) :
  (0 <= d)%Z -> (0 <= o)%Z ->
  builds (SelfAttention.init d o dropout_default) (wf_head (Z.to_nat d) (Z.to_nat o)).
Proof.
  intros Hd Ho. unfold SelfAttention.init.
  eapply builds_bind; [ apply (Linear_init_wf d o Hd Ho) | intros q Hq ].
  eapply builds_bind; [ apply (Linear_init_wf d o Hd Ho) | intros k Hk ].
  eapply builds_bind; [ apply (Linear_init_wf d o Hd Ho) | intros v Hv ].
  eapply builds_bind; [ apply Dropout_init_default_builds | intros dr _ ].
  apply builds_ret. repeat split; simpl; first [ apply Hq | apply Hk | apply Hv ].
Qed.

Lemma MultiHeadedAttention_init_single (d : Z) p :
  (0 <= d)%Z -> builds (MultiHeadedAttention.init d 1 p) (single_head (Z.to_nat d)).
Proof.
  intros Hd g. unfold MultiHeadedAttention.init, floordiv. simpl.
  unfold bind at 1. unfold lift. rewrite Z.div_1_r.
  revert g. change (builds
    (bind (repeat_ctor 1 (SelfAttention.init d d dropout_default))
       (fun attentions =>
          bind (Linear.init d d)
            (fun output =>
               ret {| MultiHeadedAttention.d_model := d;
                      MultiHeadedAttention.num_heads := 1;
                      MultiHeadedAttention.dropout := p;
                      MultiHeadedAttention.attn_output_size := d;
                      MultiHeadedAttention.attentions := attentions;
                      MultiHeadedAttention.output := output |})))
    (single_head (Z.to_nat d))).
  eapply builds_bind.
  - apply builds_repeat. apply (SelfAttention_init_wf d d Hd Hd).
  - intros hs [Hlen Hall].
    eapply builds_bind; [ apply (Linear_init_wf d d Hd Hd) | intros o Ho ].
    apply builds_ret. repeat split; simpl; try assumption; apply Ho.
Qed.

Lemma Sequential_init_wf (d : Z) :
  (0 <= d)%Z ->
  builds (Sequential.init d d_ff_default dropout_default) (wf_ffn (Z.to_nat d)).
Proof.
  intros Hd. unfold Sequential.init, d_ff_default.
  eapply builds_bind; [ apply (Linear_init_wf d 2048); lia | intros l0 H0 ].
  eapply builds_bind; [ apply Dropout_init_default_builds | intros ? _ ].
  eapply builds_bind; [ apply (Linear_init_wf 2048 d); lia | intros l3 H3 ].
  eapply builds_bind; [ apply Dropout_init_default_builds | intros ? _ ].
  apply builds_ret. exists (Z.to_nat 2048). split; assumption.
Qed.

Lemma EncoderLayer_init_wf (d : Z) :
  (0 <= d)%Z ->
  builds (EncoderLayer.init d 1 d_ff_default dropout_default)
         (wf_encoder_layer (Z.to_nat d)).
Proof.
  intros Hd. unfold EncoderLayer.init.
  eapply builds_bind; [ apply (MultiHeadedAttention_init_single d _ Hd) | intros a Ha ].
  eapply builds_bind; [ apply (Sequential_init_wf d Hd) | intros f Hf ].
  eapply builds_bind; [ apply (LayerNorm_init_wf d Hd) | intros n1 Hn1 ].
  eapply builds_bind; [ apply (LayerNorm_init_wf d Hd) | intros n2 Hn2 ].
  apply builds_ret. repeat split; simpl; first [ assumption | apply Ha | apply Hn1 | apply Hn2 ].
Qed.

Lemma DecoderLayer_init_wf (d : Z) :
  (0 <= d)%Z ->
  builds (DecoderLayer.init d 1 d_ff_default dropout_default)
         (wf_decoder_layer (Z.to_nat d)).
Proof.
  intros Hd. unfold DecoderLayer.init.
  eapply builds_bind; [ apply (MultiHeadedAttention_init_single d _ Hd) | intros a Ha ].
  eapply builds_bind; [ apply (MultiHeadedAttention_init_single d _ Hd) | intros b Hb ].
  eapply builds_bind; [ apply (Sequential_init_wf d Hd) | intros f Hf ].
  eapply builds_bind; [ apply (LayerNorm_init_wf d Hd) | intros n1 Hn1 ].
  eapply builds_bind; [ apply (LayerNorm_init_wf d Hd) | intros n2 Hn2 ].
  eapply builds_bind; [ apply (LayerNorm_init_wf d Hd) | intros n3 Hn3 ].
  apply builds_ret. unfold wf_decoder_layer. simpl. tauto.
Qed.

Lemma Transformer_init_wf (d ne nd : Z) :
  (0 <= d)%Z -> builds (Transformer.init d 1 ne nd) (wf_model (Z.to_nat d)).
Proof.
  intros Hd. unfold Transformer.init, Encoder.init, Decoder.init.
  eapply builds_bind.
  - eapply builds_bind.
    + apply builds_repeat. apply (EncoderLayer_init_wf d Hd).
    + intros ls [_ Hls]. apply builds_ret with (P := fun e =>
        Forall (wf_encoder_layer (Z.to_nat d)) (Encoder.enc_layers e)).
      exact Hls.
  - intros e He. eapply builds_bind.
    + eapply builds_bind.
      * apply builds_repeat. apply (DecoderLayer_init_wf d Hd).
      * intros ls [_ Hls]. apply builds_ret with (P := fun e =>
          Forall (wf_decoder_layer (Z.to_nat d)) (Decoder.dec_layers e)).
        exact Hls.
    + intros dc Hdc. apply builds_ret. split; assumption.
Qed.

(** *** the example objects are well formed *)

Lemma example_lin_wf w b : wf_linear 1 1 (Example.lin w b).
Proof. repeat split. Qed.

Lemma example_head_wf : wf_head 1 1 Example.head.
Proof. repeat split. Qed.

Lemma example_mha_single : single_head 1 Example.mha.
Proof.
  split; [ reflexivity | ]. split; [ | apply example_lin_wf ].
  constructor; [ apply example_head_wf | constructor ].
Qed.

Lemma example_ffn_wf : wf_ffn 1 Example.ffn.
Proof. exists 1. split; apply example_lin_wf. Qed.

Lemma example_norm_wf : wf_norm 1 Example.norm.
Proof. repeat split. Qed.

Lemma example_enc_layer_wf : wf_encoder_layer 1 Example.enc_layer.
Proof.
  split; [ apply example_mha_single | ]. split; [ apply example_ffn_wf | ].
  split; apply example_norm_wf.
Qed.

Lemma example_dec_layer_wf : wf_decoder_layer 1 Example.dec_layer.
Proof.
  split; [ apply example_mha_single | ]. split; [ apply example_mha_single | ].
  split; [ apply example_ffn_wf | ].
  split; [ apply example_norm_wf | ]. split; apply example_norm_wf.
Qed.

Lemma example_seq_shape n : has_shape (Example.seq_of_ones n) 1 n 1.
Proof. repeat split. Qed.

(** ** The shape contracts *)

(** X1.  [SelfAttention.forward] on a well-formed head returns a tensor of
    shape (batch, tgt_len, d_head) and leaves the head as it was: for queries
    (bs, tgt_len, d) and keys and values (bs, seq_len, d), when the mask is
    absent (any two lengths), or has shape (bs, seq_len) with
    tgt_len = seq_len. *)
Theorem SelfAttention_forward_shape :
  forall (d dh : nat) (h : SelfAttention.t) (q k v : tensor3)
         (mask : option tensor2) (bs tgt_len seq_len : nat),
    wf_head d dh h ->
    has_shape q bs tgt_len d -> has_shape k bs seq_len d -> has_shape v bs seq_len d ->
    mask_fits mask bs tgt_len seq_len ->
    returns (SelfAttention.forward q k v mask) h
            (fun out => has_shape out bs tgt_len dh).
Proof.
  intros d dh h q k v mask bs tgt_len seq_len Hh Hq Hk Hv Hm.
  apply (SelfAttention_forward_returns d dh h q k v mask bs tgt_len seq_len);
    assumption.
Qed.

(** a query of 2 positions against keys of 3, without mask *)
Lemma SelfAttention_forward_shape_witness :
  returns (SelfAttention.forward (Example.seq_of_ones 2) (Example.seq_of_ones 3)
             (Example.seq_of_ones 3) None)
          Example.head (fun out => has_shape out 1 2 1).
Proof.
  apply (SelfAttention_forward_shape 1 1 Example.head (Example.seq_of_ones 2)
           (Example.seq_of_ones 3) (Example.seq_of_ones 3) None 1 2 3).
  - apply example_head_wf.
  - apply example_seq_shape.
  - apply example_seq_shape.
  - apply example_seq_shape.
  - exact I.
Defined.

(** X2.  [MultiHeadedAttention.forward] with [n >= 1] well-formed heads of
    width [dh] and an output projection from [dh] to [d_out] returns a
    tensor of shape (batch, n * tgt_len, d_out): the heads are stacked along
    the position axis. *)
Theorem MultiHeadedAttention_forward_shape :
  forall (d dh d_out n : nat) (m : MultiHeadedAttention.t) (q k v : tensor3)
         (mask : option tensor2) (bs tgt_len seq_len : nat),
    wf_attention d dh d_out n m -> 1 <= n ->
    has_shape q bs tgt_len d -> has_shape k bs seq_len d -> has_shape v bs seq_len d ->
    mask_fits mask bs tgt_len seq_len ->
    returns (MultiHeadedAttention.forward q k v mask) m
            (fun out => has_shape out bs (n * tgt_len) d_out).
Proof.
  intros d dh d_out n m q k v mask bs tgt_len seq_len Hm Hn Hq Hk Hv Hfit.
  apply (MultiHeadedAttention_forward_returns d dh d_out n m q k v mask
           bs tgt_len seq_len); assumption.
Qed.

(** two copies of the example head: 2 positions in, 4 positions out *)
Lemma MultiHeadedAttention_forward_shape_witness :
  returns (MultiHeadedAttention.forward (Example.seq_of_ones 2) (Example.seq_of_ones 2)
             (Example.seq_of_ones 2) (Some (Example.mask_of [1; 1]%R)))
          (MultiHeadedAttention.set_attentions [Example.head; Example.head] Example.mha)
          (fun out => has_shape out 1 4 1).
Proof.
  apply (MultiHeadedAttention_forward_shape 1 1 1 2
           (MultiHeadedAttention.set_attentions [Example.head; Example.head] Example.mha)
           (Example.seq_of_ones 2) (Example.seq_of_ones 2) (Example.seq_of_ones 2)
           (Some (Example.mask_of [1; 1]%R)) 1 2 2).
  - split; [ reflexivity | ]. split; [ | apply example_lin_wf ].
    repeat constructor.
  - lia.
  - apply example_seq_shape.
  - apply example_seq_shape.
  - apply example_seq_shape.
  - repeat split.
Defined.

(** X3.  [EncoderLayer.forward] on a layer with one well-formed head keeps
    the shape of its input, (batch, length, d_model), for a mask that is
    absent or of shape (batch, length); this holds in training mode as well
    as in evaluation mode. *)
Theorem EncoderLayer_forward_shape :
  forall (d : nat) (l : EncoderLayer.t) (src : tensor3) (src_mask : option tensor2)
         (bs n : nat),
    wf_encoder_layer d l -> has_shape src bs n d -> mask_fits src_mask bs n n ->
    returns (EncoderLayer.forward src src_mask) l (fun out => has_shape out bs n d).
Proof.
  intros d l src src_mask bs n Hl Hsrc Hfit.
  apply (EncoderLayer_forward_returns d l src src_mask bs n); assumption.
Qed.

Lemma EncoderLayer_forward_shape_witness :
  returns (EncoderLayer.forward (Example.seq_of_ones 3)
             (Some (Example.mask_of [1; 1; 0]%R)))
          Example.enc_layer (fun out => has_shape out 1 3 1).
Proof.
  apply (EncoderLayer_forward_shape 1 Example.enc_layer (Example.seq_of_ones 3)
           (Some (Example.mask_of [1; 1; 0]%R)) 1 3).
  - apply example_enc_layer_wf.
  - apply example_seq_shape.
  - repeat split.
Defined.

(** X4.  [DecoderLayer.forward] on a layer with one-head blocks returns a
    tensor of the shape of the target, (batch, tgt_len, d_model), when
    [tgt_mask] is absent or of shape (batch, tgt_len) and [enc_mask] is
    absent or of shape (batch, seq_len) with tgt_len = seq_len: with
    [enc_mask] absent the encoder output may have any length. *)
Theorem DecoderLayer_forward_shape :
  forall (d : nat) (l : DecoderLayer.t) (tgt enc : tensor3)
         (tgt_mask enc_mask : option tensor2) (bs tgt_len seq_len : nat),
    wf_decoder_layer d l ->
    has_shape tgt bs tgt_len d -> has_shape enc bs seq_len d ->
    mask_fits tgt_mask bs tgt_len tgt_len -> mask_fits enc_mask bs tgt_len seq_len ->
    returns (DecoderLayer.forward tgt enc tgt_mask enc_mask) l
            (fun out => has_shape out bs tgt_len d).
Proof.
  intros d l tgt enc tgt_mask enc_mask bs tgt_len seq_len Hl Htgt Henc Hm1 Hm2.
  apply (DecoderLayer_forward_returns d l tgt enc tgt_mask enc_mask
           bs tgt_len seq_len); assumption.
Qed.

Lemma DecoderLayer_forward_shape_witness :
  returns (DecoderLayer.forward (Example.seq_of_ones 2) (Example.seq_of_ones 5)
             (Some (Example.mask_of [1; 1]%R)) None)
          Example.dec_layer (fun out => has_shape out 1 2 1).
Proof.
  apply (DecoderLayer_forward_shape 1 Example.dec_layer (Example.seq_of_ones 2)
           (Example.seq_of_ones 5) (Some (Example.mask_of [1; 1]%R)) None 1 2 5).
  - apply example_dec_layer_wf.
  - apply example_seq_shape.
  - apply example_seq_shape.
  - repeat split.
  - exact I.
Defined.

(** X5.  A model constructed with [num_heads = 1] and [d_model >= 0]
    returns from [Transformer.forward] a tensor of shape
    (batch, tgt_len, d_model) and is left as it was, for a source
    (batch, src_len, d_model) and a target (batch, tgt_len, d_model), when
    both masks are absent (any two lengths), or when src_len = tgt_len and
    each given mask has shape (batch, length). *)
Theorem forward_returns_with_one_head :
  forall (d_model num_encoders num_decoders : Z) (g : Rng),
    (0 <= d_model)%Z ->
    exists model g',
      Transformer.init d_model 1 num_encoders num_decoders g = (Ok model, g') /\
      forall (src tgt : tensor3) (src_mask tgt_mask : option tensor2)
             (bs src_len tgt_len : nat),
        has_shape src bs src_len (Z.to_nat d_model) ->
        has_shape tgt bs tgt_len (Z.to_nat d_model) ->
        mask_fits src_mask bs src_len src_len ->
        mask_fits src_mask bs tgt_len tgt_len ->
        mask_fits tgt_mask bs tgt_len src_len ->
        returns (Transformer.forward src tgt src_mask tgt_mask) model
                (fun out => has_shape out bs tgt_len (Z.to_nat d_model)).
Proof.
  intros d ne nd g Hd.
  destruct (Transformer_init_wf d ne nd Hd g) as (model & g' & E & Hwf).
  exists model, g'. split; [ exact E | ].
  intros src tgt src_mask tgt_mask bs src_len tgt_len.
  apply Transformer_forward_returns. exact Hwf.
Qed.

Lemma forward_returns_with_one_head_witness :
  exists model g',
    Transformer.init 16 1 2 2 Example.gen0 = (Ok model, g') /\
    returns (Transformer.forward (mk3 2 4 16 (fun _ _ _ => Fin 1))
               (mk3 2 4 16 (fun _ _ _ => Fin 1))
               (Some (mk2 2 4 (fun _ _ => one))) (Some (mk2 2 4 (fun _ _ => one))))
            model (fun out => has_shape out 2 4 16).
Proof.
  destruct (forward_returns_with_one_head 16 2 2 Example.gen0 ltac:(lia))
    as (model & g' & E & H).
  exists model, g'. split; [ exact E | ].
  apply (H (mk3 2 4 16 (fun _ _ _ => Fin 1)) (mk3 2 4 16 (fun _ _ _ => Fin 1))
           (Some (mk2 2 4 (fun _ _ => one))) (Some (mk2 2 4 (fun _ _ => one))) 2 4 4);
    repeat split.
Defined.

(** * The attention of an encoder layer, and a call without mask *)

(** ** C4: the causal mask in the encoder *)

(** a score of [-inf] gets the weight 0, or [nan] when the column has no
    finite maximum or holds a [nan] *)
Lemma softmax_vec_ninf n x i :
  x i = NInf -> torch.softmax_vec n x i = Fin 0 \/ torch.softmax_vec n x i = NaN.
Proof.
  intros E. unfold torch.softmax_vec. rewrite E.
  destruct (Num.maxs n x) as [m | | |].
  - change (Num.exp (Num.sub NInf (Fin m))) with (Fin 0).
    destruct (Num.sum n (fun k => Num.exp (Num.sub (x k) (Fin m)))) as [s | | |];
      simpl; auto.
    destruct (Req_dec_T s 0) as [_ | _].
    + unfold Num.Rsign.
      destruct (Rlt_dec 0 0) as [H | _]; [ lra | ]. right. reflexivity.
    + left. f_equal. unfold Rdiv. apply Rmult_0_l.
  - change (Num.exp (Num.sub NInf PInf)) with (Fin 0).
    destruct (Num.sum n (fun k => Num.exp (Num.sub (x k) PInf))) as [s | | |];
      simpl; auto.
    destruct (Req_dec_T s 0) as [_ | _].
    + unfold Num.Rsign.
      destruct (Rlt_dec 0 0) as [H | _]; [ lra | ]. right. reflexivity.
    + left. f_equal. unfold Rdiv. apply Rmult_0_l.
  - right. reflexivity.
  - right. reflexivity.
Qed.

(** in a self-attention call with a mask, whatever the mask and the values,
    the weight from a query to a later key is 0 or [nan] *)
Lemma attention_self_causal h x mask g weights value_ w' :
  SelfAttention.attention x x x (Some mask) {| obj := h; gen := g |}
    = (Ok (weights, value_), w') ->
  rows mask = dim0 x -> cols mask = dim1 x ->
  forall b i j, b < dim0 x -> i < j -> j < dim1 x ->
    at3 weights b i j = Fin 0 \/ at3 weights b i j = NaN.
Proof.
  intros E Hr Hc b i j Hb Hij Hj.
  apply attention_scores_inv in E. destruct E as (sc & Hm & ->).
  apply masking_self in Hm; try assumption.
  destruct Hm as (_ & E1 & _ & Hat). simpl.
  apply softmax_vec_ninf. rewrite Hat by lia.
  apply Nat.ltb_lt in Hij. rewrite Hij. reflexivity.
Qed.

(** a head returns the product of its weights and its projected values *)
Lemma SelfAttention_forward_inv q k v mask h g a w' :
  SelfAttention.forward q k v mask {| obj := h; gen := g |} = (Ok a, w') ->
  exists weights value_ w1,
    SelfAttention.attention q k v mask {| obj := h; gen := g |}
      = (Ok (weights, value_), w1) /\
    torch.bmm weights value_ = Ok a.
Proof.
  unfold SelfAttention.forward. intros H.
  apply bind_Ok_inv in H. destruct H as ([weights value_] & w1 & E & Hb).
  apply lift_Ok_inv in Hb. destruct Hb as [Hb _].
  exists weights, value_, w1. split; [ exact E | exact Hb ].
Qed.

(** C4 (the code departs from the claim).  What [EncoderLayer.forward]
    returns is computed from causal attention weights.  In a run that returns
    [out], with a source mask of the shape of the input (a mask of ones
    included): [self.attn] is called on [(x, x, x, src_mask)]; its result [a]
    is the output projection of the concatenation of the results of the
    heads; each head returns [bmm(weights, value)] for weights in which every
    key later than the query has the weight 0 ([nan] when the softmax of its
    column is not a number), never a weight that lets the query see the key;
    and [out] is what the rest of the layer makes of [a]. *)
Theorem encoder_self_attention_is_causal :
  forall (layer : EncoderLayer.t) (src : tensor3) (src_mask : tensor2) (g : Rng)
         (out : tensor3) (w' : World EncoderLayer.t),
    rows src_mask = dim0 src -> cols src_mask = dim1 src ->
    EncoderLayer.forward src (Some src_mask) {| obj := layer; gen := g |}
    = (Ok out, w') ->
    exists (a : tensor3) (w1 : World EncoderLayer.t) (heads : list tensor3)
           (c : tensor3),
      call EncoderLayer.attn EncoderLayer.set_attn
        (MultiHeadedAttention.forward src src src (Some src_mask))
        {| obj := layer; gen := g |} = (Ok a, w1) /\
      encoder_layer_tail src a w1 = (Ok out, w') /\
      Forall2
        (fun h o =>
           exists g1 weights value_ w2,
             SelfAttention.attention src src src (Some src_mask)
               {| obj := h; gen := g1 |} = (Ok (weights, value_), w2) /\
             torch.bmm weights value_ = Ok o /\
             forall b i j, b < dim0 src -> i < j -> j < dim1 src ->
               at3 weights b i j = Fin 0 \/ at3 weights b i j = NaN)
        (MultiHeadedAttention.attentions (EncoderLayer.attn layer)) heads /\
      torch.cat heads 1 = Ok c /\
      torch.linear c
        (Linear.weight (MultiHeadedAttention.output (EncoderLayer.attn layer)))
        (Linear.bias (MultiHeadedAttention.output (EncoderLayer.attn layer)))
      = Ok a.
Proof.
  intros layer src mask g out w' Hr Hc H.
  unfold EncoderLayer.forward in H; cbv zeta in H.
  apply bind_Ok_inv in H. destruct H as (a & w1 & H1 & H2).
  pose proof H1 as H1'. apply call_Ok_inv in H1'. destruct H1' as (w2 & H3).
  simpl in H3. apply MultiHeadedAttention_forward_inv in H3.
  destruct H3 as (heads & c & Hheads & Hcat & Hlin).
  exists a, w1, heads, c.
  split; [ exact H1 | ]. split; [ exact H2 | ].
  split; [ | split; assumption ].
  eapply Forall2_impl; [ | exact Hheads ]. simpl.
  intros h o (g1 & w3 & Hh).
  apply SelfAttention_forward_inv in Hh.
  destruct Hh as (weights & value_ & w4 & E & Hb).
  exists g1, weights, value_, w4.
  split; [ exact E | ]. split; [ exact Hb | ].
  apply (attention_self_causal h src mask g1 weights value_ w4 E Hr Hc).
Qed.

(** the example layer on two positions with a mask of ones: the layer
    returns, and in its only head the first query gives the second key the
    weight 0 *)
Lemma encoder_self_attention_is_causal_witness :
  exists out w' a w1 o c,
    EncoderLayer.forward (Example.seq_of_ones 2) (Some (Example.mask_of [1; 1]%R))
      {| obj := Example.enc_layer; gen := Example.gen0 |} = (Ok out, w') /\
    call EncoderLayer.attn EncoderLayer.set_attn
      (MultiHeadedAttention.forward (Example.seq_of_ones 2) (Example.seq_of_ones 2)
         (Example.seq_of_ones 2) (Some (Example.mask_of [1; 1]%R)))
      {| obj := Example.enc_layer; gen := Example.gen0 |} = (Ok a, w1) /\
    encoder_layer_tail (Example.seq_of_ones 2) a w1 = (Ok out, w') /\
    (exists g1 weights value_ w2,
        SelfAttention.attention (Example.seq_of_ones 2) (Example.seq_of_ones 2)
          (Example.seq_of_ones 2) (Some (Example.mask_of [1; 1]%R))
          {| obj := Example.head; gen := g1 |} = (Ok (weights, value_), w2) /\
        torch.bmm weights value_ = Ok o /\
        at3 weights 0 0 1 = Fin 0) /\
    torch.cat [o] 1 = Ok c /\
    torch.linear c (Linear.weight (Example.lin 1 0)) (Linear.bias (Example.lin 1 0))
    = Ok a.
Proof.
  destruct (EncoderLayer_forward_returns 1 Example.enc_layer (Example.seq_of_ones 2)
              (Some (Example.mask_of [1; 1]%R)) 1 2 example_enc_layer_wf
              (example_seq_shape 2) ltac:(repeat split) Example.gen0)
    as (out & g' & E & _).
  destruct (encoder_self_attention_is_causal Example.enc_layer
              (Example.seq_of_ones 2) (Example.mask_of [1; 1]%R) Example.gen0
              out _ eq_refl eq_refl E)
    as (a & w1 & heads & c & H1 & H2 & Hheads & Hcat & Hlin).
  simpl in Hheads.
  inversion Hheads as [| h o hs os (g1 & weights & value_ & w2 & Ea & Hb & Hzero) Hrest];
    subst.
  inversion Hrest; subst.
  exists out, {| obj := Example.enc_layer; gen := g' |}, a, w1, o, c.
  split; [ exact E | ]. split; [ exact H1 | ]. split; [ exact H2 | ].
  split; [ | split; assumption ].
  exists g1, weights, value_, w2. split; [ exact Ea | ]. split; [ exact Hb | ].
  destruct (attention_self_later_key Example.head (Example.seq_of_ones 2)
              (Example.mask_of [1; 1]%R) g1 (example_head_accepts 2)
              example_head_finite (example_seq_finite 2) eq_refl eq_refl)
    as (weights' & value' & w3 & Ea' & Hlater & _).
  rewrite Ea in Ea'. injection Ea' as <- _ _.
  apply Hlater; simpl; try lia. apply eq0_one.
Defined.

(** ** C10: a call without mask *)




(** * Errors and edge cases *)

(** ** Masked attention over queries and keys of different lengths *)

Lemma bdim_Some a b c :
  torch.bdim a b = Some c ->
  (a = b /\ c = a) \/ (a = 1 /\ c = b) \/ (b = 1 /\ c = a).
Proof.
  unfold torch.bdim.
  destruct (a =? b) eqn:E1; [ apply Nat.eqb_eq in E1; intros H; injection H as <-; tauto | ].
  destruct (a =? 1) eqn:E2; [ apply Nat.eqb_eq in E2; intros H; injection H as <-; tauto | ].
  destruct (b =? 1) eqn:E3; [ apply Nat.eqb_eq in E3; intros H; injection H as <-; tauto | ].
  discriminate.
Qed.

Lemma masked_fill_Ok_dims t m v r :
  torch.masked_fill t m v = Ok r ->
  torch.bdim (dim0 t) (bdim0 m) = Some (dim0 r) /\
  torch.bdim (dim1 t) (bdim1 m) = Some (dim1 r) /\
  torch.bdim (dim2 t) (bdim2 m) = Some (dim2 r).
Proof.
  unfold torch.masked_fill.
  destruct (torch.bdim (dim0 t) (bdim0 m)) as [n0 |]; [ | discriminate ].
  destruct (torch.bdim (dim1 t) (bdim1 m)) as [n1 |]; [ | discriminate ].
  destruct (torch.bdim (dim2 t) (bdim2 m)) as [n2 |]; [ | discriminate ].
  intros H. injection H as <-. repeat split.
Qed.

Lemma SelfAttention_lengths_never_ok q k mask h :
  dim1 q <> dim1 k -> dim1 q <> 1 ->
  never_ok (SelfAttention.forward q k k (Some mask)) h.
Proof.
  intros Hne H1 g out w' H. unfold SelfAttention.forward in H.
  apply bind_Ok_inv in H. destruct H as ([weights value_] & w1 & E & Hb).
  apply lift_Ok_inv in Hb. destruct Hb as [Hb _]. simpl in Hb.
  apply bmm_Ok_shape in Hb. destruct Hb as (_ & Hinner & _).
  apply attention_inv in E.
  destruct E as (query_ & key_ & prod & sc & Hq & Hk & Hv & Hp & Hm & Hs).
  apply linear_Ok_shape in Hq. apply linear_Ok_shape in Hk. apply linear_Ok_shape in Hv.
  apply bmm_Ok_shape in Hp. simpl in Hp.
  destruct Hm as (em & sm & s1 & Hem & Hsm & Hf1 & Hf2).
  apply expand_Ok_inv in Hem. destruct Hem as (_ & _ & _ & ->).
  apply expand_Ok_inv in Hsm. destruct Hsm as (_ & _ & _ & ->).
  apply masked_fill_Ok_dims in Hf1. simpl in Hf1. destruct Hf1 as (_ & _ & F1).
  apply masked_fill_Ok_dims in Hf2. simpl in Hf2. destruct Hf2 as (_ & _ & F2).
  simpl in Hs. injection Hs as <-. simpl in Hinner.
  apply bdim_Some in F1. apply bdim_Some in F2. lia.
Qed.

(** X6.  A call of [SelfAttention.forward] with a mask raises
    [RuntimeError] whenever the queries and the keys have different lengths
    and there is more than one query position, whatever the mask and the
    head: the causal mask of size tgt_len x tgt_len does not fit scores of
    size tgt_len x seq_len. *)
Theorem masked_attention_needs_equal_lengths :
  forall (h : SelfAttention.t) (q k : tensor3) (mask : tensor2) (g : Rng),
    dim1 q <> dim1 k -> dim1 q <> 1 ->
    fst (SelfAttention.forward q k k (Some mask) {| obj := h; gen := g |})
    = Raise RuntimeError.
Proof.
  intros h q k mask g Hne H1.
  apply never_ok_raises; [ apply SelfAttention_forward_rt | ].
  apply SelfAttention_lengths_never_ok; assumption.
Qed.

(** queries of 2 positions, keys of 3, a mask of the length of the keys *)
Lemma masked_attention_needs_equal_lengths_witness :
  fst (SelfAttention.forward (Example.seq_of_ones 2) (Example.seq_of_ones 3)
         (Example.seq_of_ones 3) (Some (Example.mask_of [1; 1; 1]%R))
         {| obj := Example.head; gen := Example.gen0 |})
  = Raise RuntimeError.
Proof.
  apply (masked_attention_needs_equal_lengths Example.head (Example.seq_of_ones 2)
           (Example.seq_of_ones 3) (Example.mask_of [1; 1; 1]%R) Example.gen0);
    simpl; lia.
Defined.

(** ** An attention block without heads *)




(** ** Constructor arguments that nothing validates *)

Lemma floordiv_nonzero (a b : Z) : b <> 0%Z -> floordiv a b = Ok (a / b)%Z.
Proof.
  intros H. unfold floordiv. destruct (b =? 0)%Z eqn:E; [ | reflexivity ].
  apply Z.eqb_eq in E. contradiction.
Qed.

Lemma builds_lift_bind {A B} (r : Res A) (a : A) (f : A -> Ctor B) (P : B -> Prop) :
  r = Ok a -> builds (f a) P -> builds (bind (lift r) f) P.
Proof. intros -> H g. unfold bind, lift. apply H. Qed.

Lemma raises_lift_bind {A B} (r : Res A) (a : A) (f : A -> Ctor B) e :
  r = Ok a -> raises (f a) e -> raises (bind (lift r) f) e.
Proof. intros -> H g. unfold bind, lift. apply H. Qed.

(** with a negative [num_heads] the block is built without any head *)
Lemma MultiHeadedAttention_init_negative (d h : Z) p :
  (0 <= d)%Z -> (h < 0)%Z ->
  builds (MultiHeadedAttention.init d h p)
         (fun m => MultiHeadedAttention.attentions m = []).
Proof.
  intros Hd Hh. unfold MultiHeadedAttention.init.
  eapply builds_lift_bind; [ apply floordiv_nonzero; lia | ].
  replace (Z.to_nat h) with 0 by lia. simpl.
  eapply builds_bind; [ apply builds_ret with (P := fun l => l = []); reflexivity | ].
  intros l ->.
  eapply builds_bind; [ apply (Linear_init_builds d d Hd Hd) | intros o _ ].
  apply builds_ret. reflexivity.
Qed.

Lemma Transformer_init_negative_heads (d h ne nd : Z) :
  (0 <= d)%Z -> (h < 0)%Z ->
  builds (Transformer.init d h ne nd)
         (fun m =>
            length (Encoder.enc_layers (Transformer.encoder m)) = Z.to_nat ne /\
            length (Decoder.dec_layers (Transformer.decoder m)) = Z.to_nat nd /\
            Forall (fun l => MultiHeadedAttention.attentions (EncoderLayer.attn l) = [])
                   (Encoder.enc_layers (Transformer.encoder m)) /\
            Forall (fun l => MultiHeadedAttention.attentions (DecoderLayer.masked_attn l)
                             = [])
                   (Decoder.dec_layers (Transformer.decoder m))).
Proof.
  intros Hd Hh. unfold Transformer.init, Encoder.init, Decoder.init.
  eapply builds_bind.
  - eapply builds_bind.
    + apply builds_repeat with
        (P := fun l => MultiHeadedAttention.attentions (EncoderLayer.attn l) = []).
      unfold EncoderLayer.init.
      eapply builds_bind;
        [ apply (MultiHeadedAttention_init_negative d h _ Hd Hh) | intros a Ha ].
      eapply builds_bind; [ apply (Sequential_init_builds d Hd) | intros ? _ ].
      eapply builds_bind; [ apply (LayerNorm_init_builds d Hd) | intros ? _ ].
      eapply builds_bind; [ apply (LayerNorm_init_builds d Hd) | intros ? _ ].
      apply builds_ret. exact Ha.
    + intros ls Hls. apply builds_ret with (P := fun e =>
        length (Encoder.enc_layers e) = Z.to_nat ne /\
        Forall (fun l => MultiHeadedAttention.attentions (EncoderLayer.attn l) = [])
               (Encoder.enc_layers e)).
      exact Hls.
  - intros e [He1 He2]. eapply builds_bind.
    + eapply builds_bind.
      * apply builds_repeat with
          (P := fun l => MultiHeadedAttention.attentions (DecoderLayer.masked_attn l) = []).
        unfold DecoderLayer.init.
        eapply builds_bind;
          [ apply (MultiHeadedAttention_init_negative d h _ Hd Hh) | intros a Ha ].
        eapply builds_bind;
          [ apply (MultiHeadedAttention_init_negative d h _ Hd Hh) | intros b _ ].
        eapply builds_bind; [ apply (Sequential_init_builds d Hd) | intros ? _ ].
        eapply builds_bind; [ apply (LayerNorm_init_builds d Hd) | intros ? _ ].
        eapply builds_bind; [ apply (LayerNorm_init_builds d Hd) | intros ? _ ].
        eapply builds_bind; [ apply (LayerNorm_init_builds d Hd) | intros ? _ ].
        apply builds_ret. exact Ha.
      * intros ls Hls. apply builds_ret with (P := fun e =>
          length (Decoder.dec_layers e) = Z.to_nat nd /\
          Forall (fun l => MultiHeadedAttention.attentions (DecoderLayer.masked_attn l)
                           = [])
                 (Decoder.dec_layers e)).
        exact Hls.
    + intros dc [Hd1 Hd2]. apply builds_ret. simpl. tauto.
Qed.

Lemma no_heads_never_ok q k v mask m :
  MultiHeadedAttention.attentions m = [] ->
  never_ok (MultiHeadedAttention.forward q k v mask) m.
Proof.
  intros Hnil. apply MultiHeadedAttention_heads_never_ok. rewrite Hnil. intros h [].
Qed.

(** a model with a layer whose attention blocks have no heads never
    returns from [Transformer.forward] *)
Lemma headless_model_never_ok ne nd m src tgt src_mask tgt_mask :
  (1 <= ne \/ 1 <= nd)%Z ->
  length (Encoder.enc_layers (Transformer.encoder m)) = Z.to_nat ne ->
  length (Decoder.dec_layers (Transformer.decoder m)) = Z.to_nat nd ->
  Forall (fun l => MultiHeadedAttention.attentions (EncoderLayer.attn l) = [])
         (Encoder.enc_layers (Transformer.encoder m)) ->
  Forall (fun l => MultiHeadedAttention.attentions (DecoderLayer.masked_attn l) = [])
         (Decoder.dec_layers (Transformer.decoder m)) ->
  never_ok (Transformer.forward src tgt src_mask tgt_mask) m.
Proof.
  intros Hn Hle Hld He Hdc.
  destruct (Z_le_gt_dec 1 ne) as [Hne | Hne].
  - apply Transformer_never_ok_encoder.
    assert (1 <= Z.to_nat ne) as Hpos by lia.
    destruct (nonempty_of_length _ _ Hle Hpos) as (l & rest & El).
    apply Encoder_never_ok with (l := l) (rest := rest); [ exact El | ].
    apply EncoderLayer_never_ok. apply no_heads_never_ok.
    rewrite El in He. inversion He; subst. assumption.
  - apply Transformer_never_ok_decoder. intros enc_out.
    assert (1 <= Z.to_nat nd) as Hpos by lia.
    destruct (nonempty_of_length _ _ Hld Hpos) as (l & rest & El).
    apply Decoder_never_ok with (l := l) (rest := rest); [ exact El | ].
    apply DecoderLayer_never_ok. apply no_heads_never_ok.
    rewrite El in Hdc. inversion Hdc; subst. assumption.
Qed.



Lemma Linear_init_negative (i o : Z) :
  (i < 0)%Z -> raises (Linear.init i o) RuntimeError.
Proof.
  intros Hi g. unfold Linear.init.
  replace (i <? 0)%Z with true by (symmetry; apply Z.ltb_lt; exact Hi).
  reflexivity.
Qed.

Lemma MultiHeadedAttention_init_negative_width (d h : Z) p :
  (d < 0)%Z -> h <> 0%Z -> raises (MultiHeadedAttention.init d h p) RuntimeError.
Proof.
  intros Hd Hh. unfold MultiHeadedAttention.init.
  eapply raises_lift_bind; [ apply floordiv_nonzero; exact Hh | ].
  destruct (Z_le_gt_dec 1 h) as [Hpos | Hneg].
  - apply raises_bind. apply raises_repeat; [ | lia ].
    unfold SelfAttention.init. apply raises_bind.
    apply Linear_init_negative. exact Hd.
  - replace (Z.to_nat h) with 0 by lia. simpl.
    apply raises_bind_then with (P := fun _ => True).
    + apply builds_ret. exact I.
    + intros l. apply raises_bind. apply Linear_init_negative. exact Hd.
Qed.

Lemma Transformer_init_negative_width (d h ne nd : Z) :
  (d < 0)%Z -> h <> 0%Z -> (1 <= ne \/ 1 <= nd)%Z ->
  raises (Transformer.init d h ne nd) RuntimeError.
Proof.
  intros Hd Hh Hn. unfold Transformer.init.
  destruct (Z_le_gt_dec 1 ne) as [Hne | Hne].
  - apply raises_bind. unfold Encoder.init. apply raises_bind.
    apply raises_repeat; [ | lia ].
    unfold EncoderLayer.init. apply raises_bind.
    apply MultiHeadedAttention_init_negative_width; assumption.
  - apply raises_bind_then with (P := fun _ => True).
    + unfold Encoder.init. replace (Z.to_nat ne) with 0 by lia. simpl.
      intros g. eexists _, _. split; [ reflexivity | exact I ].
    + intros enc. apply raises_bind. unfold Decoder.init. apply raises_bind.
      apply raises_repeat; [ | lia ].
      unfold DecoderLayer.init. apply raises_bind.
      apply MultiHeadedAttention_init_negative_width; assumption.
Qed.

Lemma Transformer_init_no_layers (d h ne nd : Z) g :
  (ne <= 0)%Z -> (nd <= 0)%Z ->
  Transformer.init d h ne nd g
  = (Ok {| Transformer.encoder := {| Encoder.enc_layers := [] |};
           Transformer.decoder := {| Decoder.dec_layers := [] |} |}, g).
Proof.
  intros Hne Hnd. unfold Transformer.init, Encoder.init, Decoder.init.
  replace (Z.to_nat ne) with 0 by lia. replace (Z.to_nat nd) with 0 by lia.
  reflexivity.
Qed.

(** X9.  The outcome of the constructor, in every case.  Without any layer
    (both counts zero or negative) it returns, whatever [d_model] and
    [num_heads].  With a layer it raises [ZeroDivisionError] when
    [num_heads] is 0, raises the [RuntimeError] of [nn.Linear] when
    [num_heads] is not 0 and [d_model] is negative, and returns in every
    other case, a negative [num_heads] included; it never raises
    [ValueError] or [IndexError]. *)
Theorem construction_outcome :
  forall (d_model num_heads num_encoders num_decoders : Z) (g : Rng),
    match fst (Transformer.init d_model num_heads num_encoders num_decoders g) with
    | Ok _ =>
        (num_encoders <= 0 /\ num_decoders <= 0)%Z \/
        (num_heads <> 0 /\ 0 <= d_model)%Z
    | Raise e =>
        (1 <= num_encoders \/ 1 <= num_decoders)%Z /\
        ((num_heads = 0%Z /\ e = ZeroDivisionError) \/
         (num_heads <> 0%Z /\ (d_model < 0)%Z /\ e = RuntimeError))
    end.
Proof.
  intros d h ne nd g.
  assert ((ne <= 0 /\ nd <= 0) \/ (1 <= ne \/ 1 <= nd))%Z as [[Hne Hnd] | Hn] by lia.
  { rewrite (Transformer_init_no_layers d h ne nd g Hne Hnd). simpl. left. lia. }
  destruct (Z.eq_dec h 0) as [-> | Hh].
  { rewrite (Transformer_init_zero_heads d ne nd Hn g). split; [ exact Hn | tauto ]. }
  destruct (Z_lt_ge_dec d 0) as [Hd | Hd].
  { rewrite (Transformer_init_negative_width d h ne nd Hd Hh Hn g).
    split; [ exact Hn | tauto ]. }
  destruct (Z_le_gt_dec 1 h) as [Hpos | Hneg].
  - destruct (Transformer_init_builds d h ne nd ltac:(lia) Hpos g) as (m & g' & E & _).
    rewrite E. simpl. right. lia.
  - destruct (Transformer_init_negative_heads d h ne nd ltac:(lia) ltac:(lia) g)
      as (m & g' & E & _).
    rewrite E. simpl. right. lia.
Qed.



(** * The weights of a masked head *)

(** a sum of zeros *)
Lemma sum_zeros n (f : nat -> num) :
  (forall i, i < n -> f i = Fin 0) -> Num.sum n f = Fin 0.
Proof.
  induction n as [| n IH]; intros H; [ reflexivity | ].
  simpl. rewrite IH by (intros; apply H; lia). rewrite (H n) by lia.
  simpl. f_equal. lra.
Qed.

(** X11.  In a self-attention call, the weights that a key gets depend on
    the mask only through the entry of the mask for that key: two masks that
    agree, as zero or not zero, on key [j] of batch element [b] give the same
    weights for this key from every query, whatever they hold elsewhere.  In
    particular the entry of the mask for the position of the query plays no
    part: a padded position attends as any other. *)
Theorem key_weights_depend_on_own_mask_entry_only :
  forall (h : SelfAttention.t) (x : tensor3) (m1 m2 : tensor2) (g : Rng),
    head_accepts h x x x ->
    rows m1 = dim0 x -> cols m1 = dim1 x -> rows m2 = dim0 x -> cols m2 = dim1 x ->
    exists weights1 value1 w1 weights2 value2 w2,
      SelfAttention.attention x x x (Some m1) {| obj := h; gen := g |}
      = (Ok (weights1, value1), w1) /\
      SelfAttention.attention x x x (Some m2) {| obj := h; gen := g |}
      = (Ok (weights2, value2), w2) /\
      forall b j, b < dim0 x -> j < dim1 x ->
        eq0 (at2 m1 b j) = eq0 (at2 m2 b j) ->
        forall i, i < dim1 x -> at3 weights1 b i j = at3 weights2 b i j.
Proof.
  intros h x m1 m2 g Hh Hr1 Hc1 Hr2 Hc2.
  destruct (attention_self_weights h x m1 g Hh Hr1 Hc1)
    as (weights1 & value1 & w1 & E1 & Hat1).
  destruct (attention_self_weights h x m2 g Hh Hr2 Hc2)
    as (weights2 & value2 & w2 & E2 & Hat2).
  exists weights1, value1, w1, weights2, value2, w2.
  split; [ exact E1 | ]. split; [ exact E2 | ].
  intros b j Hb Hj Hsame i Hi.
  rewrite Hat1, Hat2 by assumption.
  apply softmax_vec_ext; [ | exact Hi ].
  intros i' _. unfold masked_column. rewrite Hsame. reflexivity.
Qed.

(** three positions: the masks [1, 0, 1] and [0, 1, 1] agree on the last
    key *)
Lemma key_weights_depend_on_own_mask_entry_only_witness :
  exists weights1 value1 w1 weights2 value2 w2,
    SelfAttention.attention (Example.seq_of_ones 3) (Example.seq_of_ones 3)
      (Example.seq_of_ones 3) (Some (Example.mask_of [1; 0; 1]%R))
      {| obj := Example.head; gen := Example.gen0 |}
    = (Ok (weights1, value1), w1) /\
    SelfAttention.attention (Example.seq_of_ones 3) (Example.seq_of_ones 3)
      (Example.seq_of_ones 3) (Some (Example.mask_of [0; 1; 1]%R))
      {| obj := Example.head; gen := Example.gen0 |}
    = (Ok (weights2, value2), w2) /\
    forall i, i < 3 -> at3 weights1 0 i 2 = at3 weights2 0 i 2.
Proof.
  destruct (key_weights_depend_on_own_mask_entry_only Example.head
              (Example.seq_of_ones 3) (Example.mask_of [1; 0; 1]%R)
              (Example.mask_of [0; 1; 1]%R) Example.gen0)
    as (weights1 & value1 & w1 & weights2 & value2 & w2 & E1 & E2 & H).
  - apply example_head_accepts.
  - reflexivity.
  - reflexivity.
  - reflexivity.
  - reflexivity.
  - exists weights1, value1, w1, weights2, value2, w2.
    split; [ exact E1 | ]. split; [ exact E2 | ].
    apply (H 0 2); [ simpl; lia | simpl; lia | reflexivity ].
Defined.

(** the softmax of a column whose entries before the last are [-inf]: the
    last entry gets the weight 1, or [nan] when it is not a finite number *)
Lemma softmax_vec_last_only n x :
  (forall i, i < n -> x i = NInf) ->
  torch.softmax_vec (S n) x n = Fin 1 \/ torch.softmax_vec (S n) x n = NaN.
Proof.
  intros Hx. unfold torch.softmax_vec. simpl Num.maxs.
  rewrite (maxs_all_ninf n x Hx).
  destruct (x n) as [r | | |] eqn:En; simpl Num.max; try (right; reflexivity).
  left. simpl Num.sum.
  rewrite (sum_zeros n (fun k => Num.exp (Num.sub (x k) (Fin r))))
    by (intros i Hi; rewrite (Hx i Hi); reflexivity).
  rewrite En. simpl.
  replace (r + - r)%R with 0%R by lra. rewrite exp_0.
  destruct (Req_dec_T (0 + 1) 0) as [E | _]; [ lra | ].
  f_equal. lra.
Qed.

(** X12.  In a self-attention call with a mask, whatever the mask and the
    values, the weights of the last key form the last unit vector or are not
    numbers: the last query gives it the weight 1 or [nan], and every other
    query the weight 0 or [nan]. *)
Theorem last_key_weights_are_one_hot_or_nan :
  forall (h : SelfAttention.t) (x : tensor3) (mask : tensor2) (g : Rng) (n : nat),
    head_accepts h x x x ->
    rows mask = dim0 x -> cols mask = dim1 x -> dim1 x = S n ->
    exists weights value_ w',
      SelfAttention.attention x x x (Some mask) {| obj := h; gen := g |}
      = (Ok (weights, value_), w') /\
      forall b, b < dim0 x ->
        (at3 weights b n n = Fin 1 \/ at3 weights b n n = NaN) /\
        forall i, i < n -> at3 weights b i n = Fin 0 \/ at3 weights b i n = NaN.
Proof.
  intros h x mask g n Hh Hr Hc Hn.
  destruct (attention_self_weights h x mask g Hh Hr Hc)
    as (weights & value_ & w' & E & Hat).
  exists weights, value_, w'. split; [ exact E | ].
  intros b Hb.
  assert (forall i, i < n -> masked_column h x mask b n i = NInf) as Hcol.
  { intros i Hi. unfold masked_column. apply Nat.ltb_lt in Hi. rewrite Hi.
    reflexivity. }
  split.
  - rewrite Hat by lia. rewrite Hn. apply softmax_vec_last_only. exact Hcol.
  - intros i Hi. rewrite Hat by lia. apply softmax_vec_ninf. apply Hcol. exact Hi.
Qed.

Lemma last_key_weights_are_one_hot_or_nan_witness :
  exists weights value_ w',
    SelfAttention.attention (Example.seq_of_ones 3) (Example.seq_of_ones 3)
      (Example.seq_of_ones 3) (Some (Example.mask_of [1; 0; 1]%R))
      {| obj := Example.head; gen := Example.gen0 |}
    = (Ok (weights, value_), w') /\
    (at3 weights 0 2 2 = Fin 1 \/ at3 weights 0 2 2 = NaN) /\
    forall i, i < 2 -> at3 weights 0 i 2 = Fin 0 \/ at3 weights 0 i 2 = NaN.
Proof.
  destruct (last_key_weights_are_one_hot_or_nan Example.head
              (Example.seq_of_ones 3) (Example.mask_of [1; 0; 1]%R) Example.gen0 2)
    as (weights & value_ & w' & E & H).
  - apply example_head_accepts.
  - reflexivity.
  - reflexivity.
  - reflexivity.
  - exists weights, value_, w'. split; [ exact E | ].
    apply (H 0). simpl. lia.
Defined.

(** * A dropped key and the output of the model *)

Lemma add_nan_l y : Num.add NaN y = NaN.
Proof. destruct y; reflexivity. Qed.

Lemma add_nan_r x : Num.add x NaN = NaN.
Proof. destruct x; reflexivity. Qed.

Lemma mul_nan_l y : Num.mul NaN y = NaN.
Proof. destruct y; reflexivity. Qed.

(** a sum with a [nan] term is [nan] *)
Lemma sum_nan n (f : nat -> num) j : j < n -> f j = NaN -> Num.sum n f = NaN.
Proof.
  induction n as [| n IH]; intros Hj Ej; [ lia | ]. simpl.
  destruct (Nat.eq_dec j n) as [-> | Hne].
  - rewrite Ej. apply add_nan_r.
  - rewrite IH by (assumption || lia). apply add_nan_l.
Qed.

Lemma returns_also {Self A} (m : Method Self A) s (P Q : A -> Prop) :
  returns m s P ->
  (forall g a w', m {| obj := s; gen := g |} = (Ok a, w') -> P a -> Q a) ->
  returns m s (fun a => P a /\ Q a).
Proof.
  intros H HQ g. destruct (H g) as (a & g' & E & Ha).
  exists a, g'. split; [ exact E | ]. split; [ exact Ha | ].
  apply (HQ g a _ E Ha).
Qed.


(** ** The head *)

Lemma SelfAttention_forward_poisons h x mask b g out w' :
  head_accepts h x x x -> rows mask = dim0 x -> cols mask = dim1 x ->
  b < dim0 x -> drops_a_key mask b ->
  SelfAttention.forward x x x (Some mask) {| obj := h; gen := g |} = (Ok out, w') ->
  poisoned out b.
Proof.
  intros Hh Hr Hc Hb (j & Hj & Hm) H.
  destruct (attention_self_weights h x mask g Hh Hr Hc)
    as (weights & value_ & w1 & E & Hat).
  assert (mask_fits (Some mask) (dim0 x) (dim1 x) (dim1 x)) as Hfit
    by (repeat split; assumption).
  destruct (attention_weights_shape h x x x (Some mask) g weights value_ w1 E Hfit)
    as ((W0 & W1 & W2) & _).
  unfold SelfAttention.forward in H.
  rewrite (bind_Ok_intro _ _ _ _ _ E) in H. simpl in H. unfold lift in H.
  destruct (torch.bmm weights value_) as [o | e] eqn:Eb; [ | discriminate ].
  injection H as <- _. apply bmm_Ok_eq in Eb. subst o.
  intros i c Hi _. simpl in Hi |- *.
  apply sum_nan with (j := j); [ lia | ].
  rewrite Hat by lia.
  rewrite softmax_vec_all_masked; [ apply mul_nan_l | | lia ].
  intros k Hk. unfold masked_column. rewrite Hm. destruct (k <? j); reflexivity.
Qed.

Lemma SelfAttention_forward_returns_poisoned d dh h x mask bs n b :
  wf_head d dh h -> has_shape x bs n d ->
  rows mask = bs -> cols mask = n -> b < bs -> drops_a_key mask b ->
  returns (SelfAttention.forward x x x (Some mask)) h
          (fun out => has_shape out bs n dh /\ poisoned out b).
Proof.
  intros Hh Hx Hr Hc Hb Hdrop.
  apply returns_also.
  - apply (SelfAttention_forward_returns d dh h x x x (Some mask) bs n n);
      try assumption. repeat split; assumption.
  - intros g out w' E _. destruct Hx as (X0 & X1 & X2).
    apply (SelfAttention_forward_poisons h x mask b g out w'); try congruence.
    apply (head_accepts_of_wf d dh); assumption.
Qed.

(** ** The attention block *)

Lemma cat1_poisoned bs len dh b ts :
  Forall (fun t => has_shape t bs len dh /\ poisoned t b) ts -> ts <> [] ->
  exists x, torch.cat ts 1 = Ok x /\ has_shape x bs (length ts * len) dh /\
            poisoned x b.
Proof.
  induction ts as [| t rest IH]; intros Hall Hne; [ contradiction | ].
  inversion Hall as [| ? ? ((T0 & T1 & T2) & Tp) Hrest]; subst.
  destruct rest as [| t' rest'].
  - exists t. split; [ reflexivity | ]. simpl.
    split; [ | exact Tp ]. repeat split; try reflexivity. lia.
  - destruct (IH Hrest ltac:(discriminate)) as (y & Ey & (Y0 & Y1 & Y2) & Yp).
    change (torch.cat (t :: t' :: rest') 1)
      with (match torch.cat (t' :: rest') 1 with
            | Ok y => torch.cat2 t y 1
            | Raise e => Raise e
            end).
    rewrite Ey. unfold torch.cat2. rewrite Y0, Y2, !Nat.eqb_refl. simpl.
    eexists. split; [ reflexivity | ]. split.
    + repeat split; simpl. rewrite Y1. simpl. lia.
    + intros i c Hi Hc. simpl in Hi, Hc |- *.
      destruct (i <? dim1 t) eqn:Ei.
      * apply Nat.ltb_lt in Ei. apply Tp; assumption.
      * apply Nat.ltb_ge in Ei. apply Yp; [ lia | congruence ].
Qed.

Lemma Linear_forward_poisoned i o l x b :
  wf_linear i o l -> 1 <= i -> dim2 x = i -> poisoned x b ->
  returns (Linear.forward x) l
          (fun y => has_shape y (dim0 x) (dim1 x) o /\ poisoned y b).
Proof.
  intros Hl Hi Hx Hp.
  apply returns_also; [ apply (Linear_forward_returns i o l x Hl Hx) | ].
  intros g y w' E _.
  unfold Linear.forward, bind, this, lift in E. simpl in E.
  destruct (torch.linear x (Linear.weight l) (Linear.bias l)) as [z | e] eqn:Ez;
    [ | discriminate ].
  injection E as <- _. apply linear_Ok_eq in Ez. subst z.
  destruct Hl as (Hin & _ & _). unfold Linear.in_features in Hin.
  intros r c Hr _. simpl in Hr |- *. unfold projected.
  rewrite (sum_nan (cols (Linear.weight l)) _ 0); [ apply add_nan_l | lia | ].
  rewrite Hp by lia. apply mul_nan_l.
Qed.

Lemma MultiHeadedAttention_forward_poisoned d dh d_out n m x mask bs len b :
  wf_attention d dh d_out n m -> 1 <= n -> 1 <= dh ->
  has_shape x bs len d -> rows mask = bs -> cols mask = len ->
  b < bs -> drops_a_key mask b ->
  returns (MultiHeadedAttention.forward x x x (Some mask)) m
          (fun out => has_shape out bs (n * len) d_out /\ poisoned out b).
Proof.
  intros (Hlen & Hheads & Hout) Hn Hdh Hx Hr Hc Hb Hdrop.
  unfold MultiHeadedAttention.forward.
  eapply returns_bind.
  { apply returns_list_of
      with (P := fun a => has_shape a bs len dh /\ poisoned a b).
    - destruct m; reflexivity.
    - eapply Forall_impl; [ | exact Hheads ]. simpl. intros h Hh.
      apply (SelfAttention_forward_returns_poisoned d dh h x mask bs len b);
        assumption. }
  simpl. intros heads (Hshapes & Hl).
  destruct (cat1_poisoned bs len dh b heads Hshapes) as (y & Ey & (Y0 & Y1 & Y2) & Yp).
  { intros ->. simpl in Hl. lia. }
  eapply returns_bind.
  { eapply returns_lift; [ exact Ey | ].
    instantiate (1 := fun y => has_shape y bs (n * len) dh /\ poisoned y b).
    split; [ repeat split; congruence | exact Yp ]. }
  simpl. intros z ((Z0 & Z1 & Z2) & Zp).
  eapply returns_bind.
  { apply returns_call; [ destruct m; reflexivity | ].
    apply (Linear_forward_poisoned dh d_out _ z b Hout Hdh Z2 Zp). }
  simpl. intros u ((U0 & U1 & U2) & Up).
  apply returns_ret. split; [ repeat split; congruence | exact Up ].
Qed.

(** ** The residual connections and the normalisations *)

Lemma add_Ok_poisoned x y n0 n1 n2 b :
  has_shape x n0 n1 n2 -> has_shape y n0 n1 n2 -> b < n0 ->
  poisoned x b \/ poisoned y b ->
  exists z, torch.add x y = Ok z /\ has_shape z n0 n1 n2 /\ poisoned z b.
Proof.
  intros (X0 & X1 & X2) (Y0 & Y1 & Y2) Hb Hp. unfold torch.add.
  rewrite X0, X1, X2, Y0, Y1, Y2, !bdim_refl.
  eexists. split; [ reflexivity | ]. split; [ repeat split | ].
  intros i c Hi Hc. simpl in Hi, Hc |- *.
  rewrite !bidx_lt by assumption.
  destruct Hp as [Hp | Hp].
  - rewrite Hp by congruence. apply add_nan_l.
  - rewrite (Hp i c) by congruence. apply add_nan_r.
Qed.

Lemma LayerNorm_forward_poisoned d n x b :
  wf_norm d n -> dim2 x = d -> poisoned x b ->
  returns (LayerNorm.forward x) n
          (fun y => has_shape y (dim0 x) (dim1 x) d /\ poisoned y b).
Proof.
  intros Hn Hx Hp.
  apply returns_also; [ apply (LayerNorm_forward_returns d n x Hn Hx) | ].
  intros g y w' E _.
  unfold LayerNorm.forward, bind, this, lift in E. simpl in E.
  unfold torch.layer_norm in E.
  destruct ((dim2 x =? LayerNorm.normalized_shape n) &&
            (len (LayerNorm.weight n) =? LayerNorm.normalized_shape n) &&
            (len (LayerNorm.bias n) =? LayerNorm.normalized_shape n));
    [ | discriminate ].
  injection E as <- _.
  intros i c Hi Hc. simpl in Hi, Hc |- *.
  rewrite (Hp i c Hi Hc). unfold Num.sub. rewrite add_nan_l. reflexivity.
Qed.

Lemma norm_sublayer_poisoned {Self} (get : Self -> LayerNorm.t) set
    (s : Self) d x bs n b :
  set (get s) s = s -> wf_norm d (get s) ->
  has_shape x bs n d /\ poisoned x b ->
  returns (call get set (LayerNorm.forward x)) s
          (fun y => has_shape y bs n d /\ poisoned y b).
Proof.
  intros Hlens Hn ((X0 & X1 & X2) & Xp).
  apply returns_call; [ exact Hlens | ].
  eapply returns_weaken; [ apply (LayerNorm_forward_poisoned d (get s) x b Hn X2 Xp) | ].
  simpl. intros y ((Y0 & Y1 & Y2) & Yp). split; [ repeat split; congruence | exact Yp ].
Qed.

(** ** The layers *)

Ltac poison_step bs n d b :=
  apply returns_bind with (P := fun y => has_shape y bs n d /\ poisoned y b);
  [ | simpl ].

(** the second half of a layer: a poisoned input stays poisoned through the
    residual connection around the feed-forward block and the last
    normalisation *)
Lemma ffn_sublayer_poisoned {Self} (getf : Self -> Sequential.t) setf
    (getn : Self -> LayerNorm.t) setn (s : Self) d x bs n b :
  setf (getf s) s = s -> setn (getn s) s = s ->
  wf_ffn d (getf s) -> wf_norm d (getn s) -> b < bs ->
  has_shape x bs n d /\ poisoned x b ->
  returns (bind (call getf setf (Sequential.forward x))
             (fun f => bind (lift (torch.add x f))
                         (fun y => bind (call getn setn (LayerNorm.forward y))
                                     (fun z => ret z))))
          s (fun out => has_shape out bs n d /\ poisoned out b).
Proof.
  intros Hlf Hln Hf Hn Hb (Hx & Hp).
  shaped_step bs n d.
  { apply returns_call; [ exact Hlf | ].
    apply (Sequential_forward_returns d (getf s) x bs n Hf Hx). }
  intros f Hfs.
  destruct (add_Ok_poisoned x f bs n d b Hx Hfs Hb (or_introl Hp)) as (z & Ez & Hz).
  poison_step bs n d b. { apply (returns_lift _ _ z); [ exact Ez | exact Hz ]. }
  intros y Hy. poison_step bs n d b.
  { apply norm_sublayer_poisoned; assumption. }
  intros u Hu. apply returns_ret. exact Hu.
Qed.

Lemma EncoderLayer_forward_poisoned d l src src_mask bs n b :
  wf_encoder_layer d l -> has_shape src bs n d -> mask_fits src_mask bs n n ->
  b < bs ->
  poisoned src b \/
  (1 <= d /\ exists mask, src_mask = Some mask /\ drops_a_key mask b) ->
  returns (EncoderLayer.forward src src_mask) l
          (fun out => has_shape out bs n d /\ poisoned out b).
Proof.
  intros (Ha & Hf & Hn1 & Hn2) Hsrc Hm Hb Hp.
  unfold EncoderLayer.forward; cbv zeta.
  apply returns_bind
    with (P := fun a => has_shape a bs n d /\ (poisoned src b \/ poisoned a b)).
  { apply returns_call; [ destruct l; reflexivity | ].
    destruct Hp as [Hp | (Hd & mask & -> & Hdrop)].
    - eapply returns_weaken.
      + apply (MultiHeadedAttention_forward_returns d d d 1 (EncoderLayer.attn l)
                 src src src src_mask bs n n Ha (le_n 1) Hsrc Hsrc Hsrc Hm).
      + simpl. intros a. rewrite Nat.add_0_r. intros H.
        split; [ exact H | left; exact Hp ].
    - destruct Hm as (Hr & Hc & _). eapply returns_weaken.
      + apply (MultiHeadedAttention_forward_poisoned d d d 1 (EncoderLayer.attn l)
                 src mask bs n b Ha (le_n 1) Hd Hsrc Hr Hc Hb Hdrop).
      + simpl. intros a. rewrite Nat.add_0_r. intros [H1 H2].
        split; [ exact H1 | right; exact H2 ]. }
  simpl. intros a (Hsa & Hpa).
  destruct (add_Ok_poisoned src a bs n d b Hsrc Hsa Hb Hpa) as (z & Ez & Hz).
  poison_step bs n d b. { apply (returns_lift _ _ z); [ exact Ez | exact Hz ]. }
  intros x1 Hx1. poison_step bs n d b.
  { apply norm_sublayer_poisoned; [ destruct l; reflexivity | assumption .. ]. }
  intros x2 Hx2.
  apply (ffn_sublayer_poisoned EncoderLayer.ffn EncoderLayer.set_ffn
           EncoderLayer.ffn_norm EncoderLayer.set_ffn_norm l d x2 bs n b);
    try assumption; destruct l; reflexivity.
Qed.


(** ** The stacks and the model *)

(** a loop over at least one member, each of which establishes [I] from
    the weaker [I0] *)
Lemma returns_for_each_nonempty {Self T A B} (get : Self -> list T)
    (set : list T -> Self -> Self) (step : A -> B -> Method T A)
    (I0 I : A -> Prop) acc arg s :
  set (get s) s = s -> get s <> [] -> (forall a, I a -> I0 a) ->
  Forall (fun x => forall acc, I0 acc -> returns (step acc arg) x I) (get s) ->
  I0 acc -> returns (for_each get set step acc arg) s I.
Proof.
  intros Hlens Hne Hweak Hl Hacc g. unfold for_each. simpl.
  destruct (get s) as [| x rest] eqn:El; [ contradiction | ].
  inversion Hl as [| ? ? Hx Hrest]; subst.
  destruct (Hx acc Hacc g) as (a & g1 & E & Ha).
  assert (Forall (fun y => forall acc, I acc -> returns (step acc arg) y I) rest)
    as Hrest'.
  { eapply Forall_impl; [ | exact Hrest ]. simpl. intros y Hy acc' Hacc'.
    apply Hy. apply Hweak. exact Hacc'. }
  destruct (visit_returns step I arg rest Hrest' a g1 Ha) as (a' & g2 & E' & Ha').
  simpl. rewrite E. simpl. rewrite E'. rewrite Hlens.
  exists a', g2. split; [ reflexivity | exact Ha' ].
Qed.

Lemma Encoder_forward_poisoned d e src mask bs n b :
  Forall (wf_encoder_layer d) (Encoder.enc_layers e) -> Encoder.enc_layers e <> [] ->
  1 <= d -> has_shape src bs n d -> rows mask = bs -> cols mask = n ->
  b < bs -> drops_a_key mask b ->
  returns (Encoder.forward src (Some mask)) e
          (fun out => has_shape out bs n d /\ poisoned out b).
Proof.
  intros Hl Hne Hd Hsrc Hr Hc Hb Hdrop. unfold Encoder.forward; cbv zeta.
  apply returns_for_each_nonempty with (I0 := fun out => has_shape out bs n d).
  - destruct e; reflexivity.
  - exact Hne.
  - intros a [H _]. exact H.
  - eapply Forall_impl; [ | exact Hl ]. simpl. intros l Hwf acc Hacc.
    apply (EncoderLayer_forward_poisoned d l acc (Some mask) bs n b Hwf Hacc);
      [ repeat split; assumption | exact Hb | ].
    right. split; [ exact Hd | ]. exists mask. split; [ reflexivity | exact Hdrop ].
  - exact Hsrc.
Qed.



(** X13.  When the mask of a self-attention call has a 0 anywhere in the
    row of batch element [b], [SelfAttention.forward] returns an output
    whose elements for [b] are all [nan], at every position and in every
    feature: the [nan] weights of the dropped key enter every sum of
    [torch.bmm(weights, value)]. *)
Theorem dropped_key_makes_head_output_nan :
  forall (d dh : nat) (h : SelfAttention.t) (x : tensor3) (mask : tensor2)
         (bs n b : nat),
    wf_head d dh h -> has_shape x bs n d ->
    rows mask = bs -> cols mask = n -> b < bs -> drops_a_key mask b ->
    returns (SelfAttention.forward x x x (Some mask)) h
            (fun out => has_shape out bs n dh /\ poisoned out b).
Proof.
  intros d dh h x mask bs n b Hh Hx Hr Hc Hb Hdrop.
  apply (SelfAttention_forward_returns_poisoned d dh h x mask bs n b); assumption.
Qed.

Lemma example_mask_drops : drops_a_key (Example.mask_of [1; 0; 1]%R) 0.
Proof. exists 1. split; [ simpl; lia | apply eq0_zero ]. Qed.

Lemma dropped_key_makes_head_output_nan_witness :
  returns (SelfAttention.forward (Example.seq_of_ones 3) (Example.seq_of_ones 3)
             (Example.seq_of_ones 3) (Some (Example.mask_of [1; 0; 1]%R)))
          Example.head (fun out => has_shape out 1 3 1 /\ poisoned out 0).
Proof.
  apply (dropped_key_makes_head_output_nan 1 1 Example.head (Example.seq_of_ones 3)
           (Example.mask_of [1; 0; 1]%R) 1 3 0).
  - apply example_head_wf.
  - apply example_seq_shape.
  - reflexivity.
  - reflexivity.
  - lia.
  - apply example_mask_drops.
Defined.

(** X14.  [EncoderLayer.forward] on a one-head layer of width
    [d_model >= 1] with a mask that has a 0 in the row of batch element [b]
    returns an output whose elements for [b] are all [nan]; and whatever the
    mask, an input that is all [nan] for [b] gives an output that is all
    [nan] for [b]. *)
Theorem encoder_layer_output_is_nan_for_padded_batch :
  forall (d : nat) (l : EncoderLayer.t) (src : tensor3) (src_mask : option tensor2)
         (bs n b : nat),
    wf_encoder_layer d l -> has_shape src bs n d -> mask_fits src_mask bs n n ->
    b < bs ->
    poisoned src b \/
    (1 <= d /\ exists mask, src_mask = Some mask /\ drops_a_key mask b) ->
    returns (EncoderLayer.forward src src_mask) l
            (fun out => has_shape out bs n d /\ poisoned out b).
Proof.
  intros d l src src_mask bs n b Hl Hsrc Hfit Hb Hp.
  apply (EncoderLayer_forward_poisoned d l src src_mask bs n b); assumption.
Qed.

Lemma encoder_layer_output_is_nan_for_padded_batch_witness :
  returns (EncoderLayer.forward (Example.seq_of_ones 3)
             (Some (Example.mask_of [1; 0; 1]%R)))
          Example.enc_layer (fun out => has_shape out 1 3 1 /\ poisoned out 0).
Proof.
  apply (encoder_layer_output_is_nan_for_padded_batch 1 Example.enc_layer
           (Example.seq_of_ones 3) (Some (Example.mask_of [1; 0; 1]%R)) 1 3 0).
  - apply example_enc_layer_wf.
  - apply example_seq_shape.
  - repeat split.
  - lia.
  - right. split; [ lia | ]. exists (Example.mask_of [1; 0; 1]%R).
    split; [ reflexivity | apply example_mask_drops ].
Defined.




(** * The generator *)

Section Draws.

Context {Self T A B : Type}.

Lemma draws_nothing_ret (P : Self -> Prop) (a : A) : draws_nothing P (ret a).
Proof. intros w _. reflexivity. Qed.

Lemma draws_nothing_lift (P : Self -> Prop) (r : Res A) : draws_nothing P (lift r).
Proof. intros w _. reflexivity. Qed.

Lemma draws_nothing_this (P : Self -> Prop) :
  draws_nothing P (this : Method Self Self).
Proof. intros w _. reflexivity. Qed.

Lemma draws_nothing_bind (P : Self -> Prop) (m : Method Self A)
    (f : A -> Method Self B) :
  draws_nothing P m -> frame m -> (forall a, draws_nothing P (f a)) ->
  draws_nothing P (bind m f).
Proof.
  intros Hm Hfr Hf w HP. unfold bind.
  specialize (Hm w HP). specialize (Hfr w).
  destruct (m w) as [[a | e] w1]; simpl in *; [ | exact Hm ].
  rewrite (Hf a w1) by (rewrite Hfr; exact HP). exact Hm.
Qed.

Lemma draws_nothing_call (P : Self -> Prop) (Q : T -> Prop)
    (get : Self -> T) (set : T -> Self -> Self) (m : Method T A) :
  (forall s, P s -> Q (get s)) -> draws_nothing Q m ->
  draws_nothing P (call get set m).
Proof.
  intros HPQ Hm w HP. unfold call.
  specialize (Hm {| obj := get (obj w); gen := gen w |} (HPQ _ HP)).
  destruct (m _) as [r w1]. exact Hm.
Qed.

Lemma visit_draws_nothing (Q : T -> Prop) (step : A -> B -> Method T A) :
  (forall a b, draws_nothing Q (step a b)) ->
  forall l acc arg g, Forall Q l -> snd (visit step l acc arg g) = g.
Proof.
  intros Hs l. induction l as [| x rest IH]; intros acc arg g HQ; simpl.
  - reflexivity.
  - inversion HQ as [| ? ? Hx Hrest]; subst.
    pose proof (Hs acc arg {| obj := x; gen := g |} Hx) as H.
    destruct (step acc arg _) as [[a | e] w]; simpl in *; [ | exact H ].
    specialize (IH a arg (gen w) Hrest).
    destruct (visit step rest a arg (gen w)) as [[r rest'] g']. simpl in *.
    congruence.
Qed.

Lemma draws_nothing_for_each (P : Self -> Prop) (Q : T -> Prop)
    (get : Self -> list T) (set : list T -> Self -> Self)
    (step : A -> B -> Method T A) acc arg :
  (forall s, P s -> Forall Q (get s)) -> (forall a b, draws_nothing Q (step a b)) ->
  draws_nothing P (for_each get set step acc arg).
Proof.
  intros HPQ Hs w HP. unfold for_each.
  pose proof (visit_draws_nothing Q step Hs (get (obj w)) acc arg (gen w) (HPQ _ HP))
    as H.
  destruct (visit _ _ _ _ _) as [[r l] g]. exact H.
Qed.

Lemma comprehend_draws_nothing (Q : T -> Prop) (f : B -> Method T A) :
  (forall b, draws_nothing Q (f b)) ->
  forall l arg g, Forall Q l -> snd (comprehend f l arg g) = g.
Proof.
  intros Hf l. induction l as [| x rest IH]; intros arg g HQ; simpl.
  - reflexivity.
  - inversion HQ as [| ? ? Hx Hrest]; subst.
    pose proof (Hf arg {| obj := x; gen := g |} Hx) as H.
    destruct (f arg _) as [[a | e] w]; simpl in *; [ | exact H ].
    specialize (IH arg (gen w) Hrest).
    destruct (comprehend f rest arg (gen w)) as [[[tl | e] rest'] g'];
      simpl in *; congruence.
Qed.

Lemma draws_nothing_list_of (P : Self -> Prop) (Q : T -> Prop)
    (get : Self -> list T) (set : list T -> Self -> Self)
    (f : B -> Method T A) arg :
  (forall s, P s -> Forall Q (get s)) -> (forall b, draws_nothing Q (f b)) ->
  draws_nothing P (list_of get set f arg).
Proof.
  intros HPQ Hf w HP. unfold list_of.
  pose proof (comprehend_draws_nothing Q f Hf (get (obj w)) arg (gen w) (HPQ _ HP))
    as H.
  destruct (comprehend _ _ _ _) as [[r l] g]. exact H.
Qed.

(** the members of a list visited one after the other: a loop over
    [l1 ++ l2] is the loop over [l1] followed by the loop over [l2] *)
Lemma visit_app (step : A -> B -> Method T A) arg :
  forall l1 l2 acc g,
    visit step (l1 ++ l2) acc arg g
    = match visit step l1 acc arg g with
      | (Ok a, l1', g1) =>
          let '(r, l2', g2) := visit step l2 a arg g1 in (r, l1' ++ l2', g2)
      | (Raise e, l1', g1) => (Raise e, l1' ++ l2, g1)
      end.
Proof.
  induction l1 as [| x rest IH]; intros l2 acc g; simpl.
  - destruct (visit step l2 acc arg g) as [[r l2'] g2]. reflexivity.
  - destruct (step acc arg _) as [[a | e] w]; [ | reflexivity ].
    rewrite IH.
    destruct (visit step rest a arg (gen w)) as [[[a' | e] l1'] g1].
    + destruct (visit step l2 a' arg g1) as [[r l2'] g2]. reflexivity.
    + reflexivity.
Qed.

End Draws.

Ltac quiet_step :=
  lazymatch goal with
  | |- draws_nothing _ (ret _) => apply draws_nothing_ret
  | |- draws_nothing _ (lift _) => apply draws_nothing_lift
  | |- draws_nothing _ this => apply draws_nothing_this
  | |- draws_nothing _ (bind _ _) => apply draws_nothing_bind; [ | | intros ]
  end.

Lemma Linear_forward_draws_nothing P x : draws_nothing P (Linear.forward x).
Proof. intros w _. reflexivity. Qed.

Lemma LayerNorm_forward_draws_nothing P x : draws_nothing P (LayerNorm.forward x).
Proof. intros w _. reflexivity. Qed.

Lemma Dropout_forward_draws_nothing x :
  draws_nothing Dropout.eval_mode (Dropout.forward x).
Proof.
  intros w Hw. unfold Dropout.eval_mode in Hw.
  unfold Dropout.forward, bind, this, with_gen, torch.dropout. simpl.
  rewrite Hw. reflexivity.
Qed.

Lemma SelfAttention_forward_draws_nothing P q k v mask :
  draws_nothing P (SelfAttention.forward q k v mask).
Proof.
  unfold SelfAttention.forward, SelfAttention.attention; cbv zeta.
  repeat (first
    [ apply draws_nothing_call with (Q := fun _ => True);
        [ trivial | apply Linear_forward_draws_nothing ]
    | apply frame_call; [ lens | apply Linear_forward_frame ]
    | apply frame_lift
    | apply frame_ret
    | apply frame_bind; [ | intros ]
    | quiet_step ]).
  - destruct mask; repeat (first [ apply frame_lift | quiet_step ]).
  - destruct mask; repeat frame_step.
  - destruct mask; repeat frame_step.
Qed.

Lemma MultiHeadedAttention_forward_draws_nothing P q k v mask :
  draws_nothing P (MultiHeadedAttention.forward q k v mask).
Proof.
  unfold MultiHeadedAttention.forward.
  apply draws_nothing_bind;
    [ | | intros; apply draws_nothing_bind;
            [ | | intros; apply draws_nothing_bind ] ].
  - apply draws_nothing_list_of with (Q := fun _ => True).
    + intros s _. apply Forall_forall. trivial.
    + intros [[[q' k'] v'] mask']. apply SelfAttention_forward_draws_nothing.
  - frame_step. destruct b as [[[q' k'] v'] mask']. apply SelfAttention_forward_frame.
  - apply draws_nothing_lift.
  - apply frame_lift.
  - apply draws_nothing_call with (Q := fun _ => True);
      [ trivial | apply Linear_forward_draws_nothing ].
  - frame_step. apply Linear_forward_frame.
  - intros. apply draws_nothing_ret.
Qed.

Lemma Sequential_forward_draws_nothing x :
  draws_nothing Sequential.eval_mode (Sequential.forward x).
Proof.
  unfold Sequential.forward; cbv zeta.
  repeat (first
    [ apply draws_nothing_call with (Q := fun _ => True);
        [ trivial | apply Linear_forward_draws_nothing ]
    | apply draws_nothing_call with (Q := Dropout.eval_mode);
        [ now intros s [H2 H4] | apply Dropout_forward_draws_nothing ]
    | apply frame_call; [ lens | first [ apply Linear_forward_frame
                                       | apply Dropout_forward_frame ] ]
    | quiet_step ]).
Qed.

Lemma EncoderLayer_forward_draws_nothing src src_mask :
  draws_nothing EncoderLayer.eval_mode (EncoderLayer.forward src src_mask).
Proof.
  unfold EncoderLayer.forward; cbv zeta.
  repeat (first
    [ apply draws_nothing_call with (Q := fun _ => True);
        [ trivial | first [ apply MultiHeadedAttention_forward_draws_nothing
                          | apply LayerNorm_forward_draws_nothing ] ]
    | apply draws_nothing_call with (Q := Sequential.eval_mode);
        [ now intros s [H1 H2] | apply Sequential_forward_draws_nothing ]
    | apply frame_call; [ lens | first [ apply MultiHeadedAttention_forward_frame
                                       | apply LayerNorm_forward_frame
                                       | apply Sequential_forward_frame ] ]
    | apply frame_lift
    | quiet_step ]).
Qed.

Lemma DecoderLayer_forward_draws_nothing tgt enc tgt_mask enc_mask :
  draws_nothing DecoderLayer.eval_mode (DecoderLayer.forward tgt enc tgt_mask enc_mask).
Proof.
  unfold DecoderLayer.forward; cbv zeta.
  repeat (first
    [ apply draws_nothing_call with (Q := fun _ => True);
        [ trivial | first [ apply MultiHeadedAttention_forward_draws_nothing
                          | apply LayerNorm_forward_draws_nothing ] ]
    | apply draws_nothing_call with (Q := Sequential.eval_mode);
        [ now intros s [H1 [H2 H3]] | apply Sequential_forward_draws_nothing ]
    | apply frame_call; [ lens | first [ apply MultiHeadedAttention_forward_frame
                                       | apply LayerNorm_forward_frame
                                       | apply Sequential_forward_frame ] ]
    | apply frame_lift
    | quiet_step ]).
Qed.

Lemma Encoder_forward_draws_nothing src src_mask :
  draws_nothing Encoder.eval_mode (Encoder.forward src src_mask).
Proof.
  unfold Encoder.forward; cbv zeta.
  apply draws_nothing_for_each with (Q := EncoderLayer.eval_mode).
  - intros s Hs. exact Hs.
  - intros. apply EncoderLayer_forward_draws_nothing.
Qed.

Lemma Decoder_forward_draws_nothing tgt enc tgt_mask enc_mask :
  draws_nothing Decoder.eval_mode (Decoder.forward tgt enc tgt_mask enc_mask).
Proof.
  unfold Decoder.forward; cbv zeta.
  apply draws_nothing_for_each with (Q := DecoderLayer.eval_mode).
  - intros s Hs. exact Hs.
  - intros a [[enc' tm] em]. apply DecoderLayer_forward_draws_nothing.
Qed.

Lemma Transformer_forward_draws_nothing src tgt src_mask tgt_mask :
  draws_nothing Transformer.eval_mode (Transformer.forward src tgt src_mask tgt_mask).
Proof.
  unfold Transformer.forward.
  apply draws_nothing_bind; [ | | intros; apply draws_nothing_bind ].
  - apply draws_nothing_call with (Q := Encoder.eval_mode);
      [ now intros s [H1 H2] | apply Encoder_forward_draws_nothing ].
  - frame_step. apply Encoder_forward_frame.
  - apply draws_nothing_call with (Q := Decoder.eval_mode);
      [ now intros s [H1 H2] | apply Decoder_forward_draws_nothing ].
  - frame_step. apply Decoder_forward_frame.
  - intros. apply draws_nothing_ret.
Qed.

(** X16.  The dropout that [SelfAttention.__init__] creates is never
    applied: in training mode as in evaluation mode,
    [MultiHeadedAttention.forward] returns an outcome that does not depend
    on the random generator, and leaves the generator and the block as they
    were. *)
Theorem attention_never_applies_dropout :
  forall (m : MultiHeadedAttention.t) (q k v : tensor3) (mask : option tensor2)
         (g g2 : Rng),
    snd (MultiHeadedAttention.forward q k v mask {| obj := m; gen := g |})
    = {| obj := m; gen := g |} /\
    fst (MultiHeadedAttention.forward q k v mask {| obj := m; gen := g |})
    = fst (MultiHeadedAttention.forward q k v mask {| obj := m; gen := g2 |}).
Proof.
  intros m q k v mask g g2. split.
  - pose proof (MultiHeadedAttention_forward_frame q k v mask
                  {| obj := m; gen := g |}) as Ho.
    pose proof (MultiHeadedAttention_forward_draws_nothing (fun _ => True) q k v mask
                  {| obj := m; gen := g |} I) as Hg.
    destruct (snd _) as [o' g']. simpl in Ho, Hg. congruence.
  - apply (MultiHeadedAttention_forward_det (fun _ => True)); [ reflexivity | exact I ].
Qed.

(** X17.  In evaluation mode [Transformer.forward] leaves the random
    generator, as well as the model, exactly as it found them, whether it
    returns or raises: a pass in evaluation mode does not shift the draws of
    a later pass in training mode. *)
Theorem eval_forward_leaves_generator_untouched :
  forall (model : Transformer.t) (src tgt : tensor3)
         (src_mask tgt_mask : option tensor2) (g : Rng),
    Transformer.eval_mode model ->
    snd (Transformer.forward src tgt src_mask tgt_mask {| obj := model; gen := g |})
    = {| obj := model; gen := g |}.
Proof.
  intros model src tgt src_mask tgt_mask g Heval.
  pose proof (Transformer_forward_frame src tgt src_mask tgt_mask
                {| obj := model; gen := g |}) as Ho.
  pose proof (Transformer_forward_draws_nothing src tgt src_mask tgt_mask
                {| obj := model; gen := g |} Heval) as Hg.
  destruct (snd _) as [o' g']. simpl in Ho, Hg. congruence.
Qed.

Lemma eval_forward_leaves_generator_untouched_witness :
  snd (Transformer.forward (Example.seq_of_ones 2) (Example.seq_of_ones 2)
         (Some (Example.mask_of [1; 1]%R)) None
         {| obj := Transformer.eval Example.model; gen := Example.gen1 |})
  = {| obj := Transformer.eval Example.model; gen := Example.gen1 |}.
Proof.
  apply (eval_forward_leaves_generator_untouched (Transformer.eval Example.model)).
  apply example_model_eval_mode.
Defined.

(** * Stacks of layers *)

(** X18.  An encoder of the layers [l1 ++ l2] is the encoder of [l1]
    followed by the encoder of [l2] on its output, with the same mask and
    the generator as the first one left it; an exception of the first is the
    exception of the whole. *)
Theorem encoder_of_appended_layers :
  forall (l1 l2 : list EncoderLayer.t) (src : tensor3) (src_mask : option tensor2)
         (g : Rng),
    fst (Encoder.forward src src_mask
           {| obj := {| Encoder.enc_layers := l1 ++ l2 |}; gen := g |})
    = match Encoder.forward src src_mask
              {| obj := {| Encoder.enc_layers := l1 |}; gen := g |} with
      | (Ok x, w) =>
          fst (Encoder.forward x src_mask
                 {| obj := {| Encoder.enc_layers := l2 |}; gen := gen w |})
      | (Raise e, _) => Raise e
      end.
Proof.
  intros l1 l2 src src_mask g. unfold Encoder.forward, for_each; cbv zeta. simpl.
  rewrite visit_app.
  destruct (visit _ l1 src src_mask g) as [[[x | e] l1'] g1]; simpl; [ | reflexivity ].
  destruct (visit _ l2 x src_mask g1) as [[r l2'] g2]. reflexivity.
Qed.

(** X19.  A decoder of the layers [l1 ++ l2] is the decoder of [l1]
    followed by the decoder of [l2] on its output: every layer of both gets
    the same encoder output and the same two masks. *)
Theorem decoder_of_appended_layers :
  forall (l1 l2 : list DecoderLayer.t) (tgt enc : tensor3)
         (tgt_mask enc_mask : option tensor2) (g : Rng),
    fst (Decoder.forward tgt enc tgt_mask enc_mask
           {| obj := {| Decoder.dec_layers := l1 ++ l2 |}; gen := g |})
    = match Decoder.forward tgt enc tgt_mask enc_mask
              {| obj := {| Decoder.dec_layers := l1 |}; gen := g |} with
      | (Ok x, w) =>
          fst (Decoder.forward x enc tgt_mask enc_mask
                 {| obj := {| Decoder.dec_layers := l2 |}; gen := gen w |})
      | (Raise e, _) => Raise e
      end.
Proof.
  intros l1 l2 tgt enc tgt_mask enc_mask g.
  unfold Decoder.forward, for_each; cbv zeta. simpl.
  rewrite visit_app.
  destruct (visit _ l1 tgt (enc, tgt_mask, enc_mask) g) as [[[x | e] l1'] g1]; simpl;
    [ | reflexivity ].
  destruct (visit _ l2 x (enc, tgt_mask, enc_mask) g1) as [[r l2'] g2]. reflexivity.
Qed.

(** * What a forward pass can raise, and when it returns *)

(** X20.  For a model as the constructor builds it with [num_heads >= 1]
    (and [d_model >= 0]), an exception raised by [Transformer.forward] is a
    [RuntimeError], the shape error of torch, whatever the inputs and the
    masks: every attention block has a head and every dropout a probability
    in range, and no division, argument check or axis lookup of the forward
    pass can fail. *)
Theorem constructed_model_raises_only_runtime_error :
  forall (d_model num_heads num_encoders num_decoders : Z) (g : Rng),
    (0 <= d_model)%Z -> (1 <= num_heads)%Z ->
    exists model g',
      Transformer.init d_model num_heads num_encoders num_decoders g = (Ok model, g') /\
      Forall (fun a => MultiHeadedAttention.attentions a <> []) (attention_blocks model) /\
      forall (src tgt : tensor3) (src_mask tgt_mask : option tensor2) (g0 : Rng),
        match fst (Transformer.forward src tgt src_mask tgt_mask
                     {| obj := model; gen := g0 |}) with
        | Ok _ => True
        | Raise e => e = RuntimeError
        end.
Proof.
  intros d h ne nd g Hd Hh.
  destruct (Transformer_init_builds d h ne nd Hd Hh g) as (model & g' & E & Hb).
  exists model, g'. split; [ exact E | ]. split.
  - apply built_transformer_blocks in Hb. destruct Hb as [Hb _].
    eapply Forall_impl; [ | exact Hb ]. simpl.
    intros a (_ & _ & _ & Hlen & _) Hnil. rewrite Hnil in Hlen. simpl in Hlen. lia.
  - intros src tgt src_mask tgt_mask g0.
    pose proof (Transformer_forward_rt src tgt src_mask tgt_mask
                  {| obj := model; gen := g0 |}) as H.
    destruct (fst _) as [out | e]; [ exact I | ]. apply H. reflexivity.
Qed.

Lemma constructed_model_raises_only_runtime_error_witness :
  exists model g',
    Transformer.init 8 2 1 1 Example.gen0 = (Ok model, g') /\
    Forall (fun a => MultiHeadedAttention.attentions a <> []) (attention_blocks model) /\
    forall (src tgt : tensor3) (src_mask tgt_mask : option tensor2) (g0 : Rng),
      match fst (Transformer.forward src tgt src_mask tgt_mask
                   {| obj := model; gen := g0 |}) with
      | Ok _ => True
      | Raise e => e = RuntimeError
      end.
Proof.
  apply (constructed_model_raises_only_runtime_error 8 2 1 1 Example.gen0); lia.
Defined.

(** X21.  For a constructed model with [d_model >= 1] and at least one
    layer, on inputs and masks of fitting shapes, [Transformer.forward]
    returns if and only if [num_heads] is 1. *)
Theorem forward_returns_only_with_one_head :
  forall (d_model num_heads num_encoders num_decoders : Z) (g : Rng),
    (1 <= d_model)%Z -> num_heads <> 0%Z ->
    (1 <= num_encoders \/ 1 <= num_decoders)%Z ->
    exists model g',
      Transformer.init d_model num_heads num_encoders num_decoders g = (Ok model, g') /\
      forall (src tgt : tensor3) (src_mask tgt_mask : option tensor2)
             (bs src_len tgt_len : nat) (g0 : Rng),
        has_shape src bs src_len (Z.to_nat d_model) ->
        has_shape tgt bs tgt_len (Z.to_nat d_model) ->
        mask_fits src_mask bs src_len src_len ->
        mask_fits src_mask bs tgt_len tgt_len ->
        mask_fits tgt_mask bs tgt_len src_len ->
        ((exists out w',
             Transformer.forward src tgt src_mask tgt_mask {| obj := model; gen := g0 |}
             = (Ok out, w'))
         <-> num_heads = 1%Z).
Proof.
  intros d h ne nd g Hd Hh Hn.
  assert (h = 1 \/ 2 <= h \/ h < 0)%Z as [-> | [Hh2 | Hneg]] by lia.
  - destruct (Transformer_init_wf d ne nd ltac:(lia) g) as (model & g' & E & Hwf).
    exists model, g'. split; [ exact E | ].
    intros src tgt src_mask tgt_mask bs src_len tgt_len g0 Hsrc Htgt Hm1 Hm2 Hm3.
    split; [ reflexivity | intros _ ].
    destruct (Transformer_forward_returns (Z.to_nat d) model src tgt src_mask tgt_mask
                bs src_len tgt_len Hwf Hsrc Htgt Hm1 Hm2 Hm3 g0) as (out & g1 & E1 & _).
    eauto.
  - destruct (Transformer_init_builds d h ne nd ltac:(lia) ltac:(lia) g)
      as (model & g' & E & Hb).
    exists model, g'. split; [ exact E | ].
    intros src tgt src_mask tgt_mask bs src_len tgt_len g0 _ _ _ _ _.
    split; [ | lia ].
    intros (out & w' & E1). exfalso.
    apply (built_transformer_never_ok d h ne nd model src tgt src_mask tgt_mask
             Hd Hh2 Hn Hb g0 out w' E1).
  - destruct (Transformer_init_negative_heads d h ne nd ltac:(lia) Hneg g)
      as (model & g' & E & Hle & Hld & He & Hdc).
    exists model, g'. split; [ exact E | ].
    intros src tgt src_mask tgt_mask bs src_len tgt_len g0 _ _ _ _ _.
    split; [ | lia ].
    intros (out & w' & E1). exfalso.
    apply (headless_model_never_ok ne nd model src tgt src_mask tgt_mask
             Hn Hle Hld He Hdc g0 out w' E1).
Qed.

Lemma forward_returns_only_with_one_head_witness :
  exists model g',
    Transformer.init 8 2 1 1 Example.gen0 = (Ok model, g') /\
    ((exists out w',
         Transformer.forward (mk3 1 3 8 (fun _ _ _ => Fin 1))
           (mk3 1 3 8 (fun _ _ _ => Fin 1)) None None
           {| obj := model; gen := Example.gen1 |} = (Ok out, w'))
     <-> 2%Z = 1%Z).
Proof.
  destruct (forward_returns_only_with_one_head 8 2 1 1 Example.gen0
              ltac:(lia) ltac:(lia) ltac:(lia)) as (model & g' & E & H).
  exists model, g'. split; [ exact E | ].
  apply (H (mk3 1 3 8 (fun _ _ _ => Fin 1)) (mk3 1 3 8 (fun _ _ _ => Fin 1))
           None None 1 3 3 Example.gen1); repeat split.
Defined.

(** * One query position, no mask *)

Lemma mul_one_l y : Num.mul (Fin 1) y = y.
Proof.
  destruct y as [r | | |]; simpl; try reflexivity.
  - f_equal. lra.
  - unfold Num.Rsign. destruct (Rlt_dec 0 1) as [_ | H]; [ reflexivity | lra ].
  - unfold Num.Rsign. destruct (Rlt_dec 0 1) as [_ | H]; [ reflexivity | lra ].
Qed.

(** the softmax of a single number is 1, or [nan] when the number is not
    finite *)
Lemma softmax_vec_single x :
  torch.softmax_vec 1 x 0 = Fin 1 \/ torch.softmax_vec 1 x 0 = NaN.
Proof.
  unfold torch.softmax_vec. simpl.
  destruct (x 0) as [r | | |]; simpl; try (right; reflexivity).
  left. replace (r + - r)%R with 0%R by lra. rewrite exp_0.
  destruct (Req_dec_T (0 + 1) 0) as [E | _]; [ lra | ].
  f_equal. lra.
Qed.

(** over finitely many weights that are each 1 or [nan]: all are 1, or one
    of them is [nan] *)
Lemma all_one_or_some_nan n (f : nat -> num) :
  (forall j, j < n -> f j = Fin 1 \/ f j = NaN) ->
  (forall j, j < n -> f j = Fin 1) \/ (exists j, j < n /\ f j = NaN).
Proof.
  induction n as [| n IH]; intros H.
  - left. intros j Hj. lia.
  - destruct IH as [Hall | (j & Hj & Ej)]; [ intros j Hj; apply H; lia | | ].
    + destruct (H n ltac:(lia)) as [E1 | En].
      * left. intros j Hj. destruct (Nat.eq_dec j n) as [-> | Hne];
          [ exact E1 | apply Hall; lia ].
      * right. exists n. split; [ lia | exact En ].
    + right. exists j. split; [ lia | exact Ej ].
Qed.

(** X22.  With a single query position and no mask, whatever the values,
    every attention weight is exactly 1 or is [nan], because the softmax runs
    over the query axis: for each batch element the output of
    [SelfAttention.forward] is the plain sum of the projected values over all
    keys, not a weighted average of them, or it is [nan] in every feature. *)
Theorem single_query_output_is_sum_of_values_or_nan :
  forall (h : SelfAttention.t) (q k v : tensor3) (g : Rng),
    head_accepts h q k v ->
    dim0 q = dim0 k -> dim0 v = dim0 k -> dim1 v = dim1 k -> dim1 q = 1 ->
    exists weights value_ w1 out w',
      SelfAttention.attention q k v None {| obj := h; gen := g |}
      = (Ok (weights, value_), w1) /\
      SelfAttention.forward q k v None {| obj := h; gen := g |} = (Ok out, w') /\
      (forall b j, b < dim0 q -> j < dim1 k ->
         at3 weights b 0 j = Fin 1 \/ at3 weights b 0 j = NaN) /\
      forall b, b < dim0 q ->
        (forall c, at3 out b 0 c
                   = Num.sum (dim1 k)
                       (fun j => projected (SelfAttention.value h) v b j c)) \/
        (forall c, at3 out b 0 c = NaN).
Proof.
  intros h q k v g Hh Hb0 Hv0 Hv1 Hone.
  destruct (attention_None_Ok h q k v g Hh Hb0) as (weights & value_ & w1 & E).
  pose proof (attention_weights_shape h q k v None g weights value_ w1 E I)
    as ((W0 & W1 & W2) & (U0 & U1 & U2)).
  destruct (bmm_Ok_intro weights value_) as [out Hout]; [ congruence | congruence | ].
  exists weights, value_, w1, out, w1.
  split; [ exact E | ]. split.
  { unfold SelfAttention.forward.
    erewrite bind_Ok_intro by exact E. simpl. unfold lift. rewrite Hout. reflexivity. }
  apply bmm_Ok_eq in Hout. subst out.
  pose proof E as E'. apply attention_inv in E'.
  destruct E' as (query_ & key_ & prod & sc & _ & _ & Hval & _).
  apply linear_Ok_eq in Hval.
  apply attention_scores_inv in E. destruct E as (sc' & Hm & Hw).
  simpl in Hm. subst sc'. simpl in Hw.
  assert (forall b j, at3 weights b 0 j = Fin 1 \/ at3 weights b 0 j = NaN) as Hw1.
  { intros b j. rewrite Hw. simpl. rewrite Hone. apply softmax_vec_single. }
  split; [ intros b j _ _; apply Hw1 | ].
  intros b Hb. simpl. rewrite W2.
  destruct (all_one_or_some_nan (dim1 k) (fun j => at3 weights b 0 j)
              (fun j _ => Hw1 b j)) as [Hall | (j & Hj & Ej)].
  - left. intros c. apply sum_ext. intros j Hj.
    rewrite (Hall j Hj), Hval. simpl. apply mul_one_l.
  - right. intros c. apply sum_nan with (j := j); [ exact Hj | ].
    rewrite Ej. apply mul_nan_l.
Qed.

Lemma single_query_output_is_sum_of_values_or_nan_witness :
  exists weights value_ w1 out w',
    SelfAttention.attention (Example.seq_of_ones 1) (Example.seq_of_ones 3)
      (Example.seq_of_ones 3) None {| obj := Example.head; gen := Example.gen0 |}
    = (Ok (weights, value_), w1) /\
    SelfAttention.forward (Example.seq_of_ones 1) (Example.seq_of_ones 3)
      (Example.seq_of_ones 3) None {| obj := Example.head; gen := Example.gen0 |}
    = (Ok out, w') /\
    (forall b j, b < 1 -> j < 3 ->
       at3 weights b 0 j = Fin 1 \/ at3 weights b 0 j = NaN) /\
    forall b, b < 1 ->
      (forall c, at3 out b 0 c
                 = Num.sum 3 (fun j => projected (SelfAttention.value Example.head)
                                         (Example.seq_of_ones 3) b j c)) \/
      (forall c, at3 out b 0 c = NaN).
Proof.
  apply (single_query_output_is_sum_of_values_or_nan Example.head
           (Example.seq_of_ones 1) (Example.seq_of_ones 3) (Example.seq_of_ones 3)
           Example.gen0).
  - repeat split.
  - reflexivity.
  - reflexivity.
  - reflexivity.
  - reflexivity.
Defined.

(** * What the output of a head depends on *)

Lemma projected_same l x y b i o :
  dim2 x = Linear.in_features l ->
  (forall c, c < dim2 x -> at3 x b i c = at3 y b i c) ->
  projected l x b i o = projected l y b i o.
Proof.
  intros Hin Hxy. unfold projected. f_equal.
  apply sum_ext. intros k Hk. rewrite Hxy; [ reflexivity | ].
  unfold Linear.in_features in Hin. lia.
Qed.

Lemma scaled_scores_same h x y b i j :
  head_accepts h x x x ->
  (forall i' c, i' < dim1 x -> c < dim2 x -> at3 x b i' c = at3 y b i' c) ->
  i < dim1 x -> j < dim1 x ->
  scaled_scores h x x b i j = scaled_scores h y y b i j.
Proof.
  intros ((Hq & _) & (Hk & _) & _) Hxy Hi Hj. unfold scaled_scores. f_equal.
  apply sum_ext. intros c _.
  rewrite (projected_same (SelfAttention.query h) x y b i c Hq)
    by (intros; apply Hxy; assumption).
  rewrite (projected_same (SelfAttention.key h) x y b j c Hk)
    by (intros; apply Hxy; assumption).
  reflexivity.
Qed.

(** two self-attention calls on inputs of the same shape: where the inputs
    agree on a batch element and the masks have their zeros at the same
    places of its row, the outputs agree on it *)
Lemma SelfAttention_forward_same_on h x y mx my g :
  head_accepts h x x x -> has_shape y (dim0 x) (dim1 x) (dim2 x) ->
  rows mx = dim0 x -> cols mx = dim1 x -> rows my = dim0 x -> cols my = dim1 x ->
  exists out1 out2 w1 w2,
    SelfAttention.forward x x x (Some mx) {| obj := h; gen := g |} = (Ok out1, w1) /\
    SelfAttention.forward y y y (Some my) {| obj := h; gen := g |} = (Ok out2, w2) /\
    has_shape out2 (dim0 out1) (dim1 out1) (dim2 out1) /\
    forall b, b < dim0 x ->
      (forall i c, i < dim1 x -> c < dim2 x -> at3 x b i c = at3 y b i c) ->
      (forall j, j < dim1 x -> eq0 (at2 mx b j) = eq0 (at2 my b j)) ->
      forall i c, i < dim1 x -> at3 out1 b i c = at3 out2 b i c.
Proof.
  intros Hh (Y0 & Y1 & Y2) Hr1 Hc1 Hr2 Hc2.
  assert (head_accepts h y y y) as Hh'.
  { destruct Hh as ((Q1 & Q2) & (K1 & K2) & (V1 & V2) & Hw).
    repeat split; congruence. }
  destruct (attention_self_weights h x mx g Hh Hr1 Hc1)
    as (wt1 & v1 & w1 & E1 & Hat1).
  destruct (attention_self_weights h y my g Hh' ltac:(congruence) ltac:(congruence))
    as (wt2 & v2 & w2 & E2 & Hat2).
  assert (mask_fits (Some mx) (dim0 x) (dim1 x) (dim1 x)) as Hfit1
    by (repeat split; assumption).
  assert (mask_fits (Some my) (dim0 y) (dim1 y) (dim1 y)) as Hfit2
    by (repeat split; congruence).
  destruct (attention_weights_shape h x x x (Some mx) g wt1 v1 w1 E1 Hfit1)
    as ((A0 & A1 & A2) & (B0 & B1 & B2)).
  destruct (attention_weights_shape h y y y (Some my) g wt2 v2 w2 E2 Hfit2)
    as ((C0 & C1 & C2) & (D0 & D1 & D2)).
  destruct (bmm_Ok_intro wt1 v1) as [out1 Ho1]; [ congruence | congruence | ].
  destruct (bmm_Ok_intro wt2 v2) as [out2 Ho2]; [ congruence | congruence | ].
  exists out1, out2, w1, w2.
  split; [ | split ].
  { unfold SelfAttention.forward.
    erewrite bind_Ok_intro by exact E1. simpl. unfold lift. rewrite Ho1. reflexivity. }
  { unfold SelfAttention.forward.
    erewrite bind_Ok_intro by exact E2. simpl. unfold lift. rewrite Ho2. reflexivity. }
  apply bmm_Ok_eq in Ho1. apply bmm_Ok_eq in Ho2. subst out1 out2.
  pose proof E1 as E1'. apply attention_inv in E1'.
  destruct E1' as (? & ? & ? & ? & _ & _ & Hv1 & _). apply linear_Ok_eq in Hv1.
  pose proof E2 as E2'. apply attention_inv in E2'.
  destruct E2' as (? & ? & ? & ? & _ & _ & Hv2 & _). apply linear_Ok_eq in Hv2.
  split.
  { repeat split; simpl; congruence. }
  intros b Hb Hxy Hmask i c Hi. simpl. rewrite A2, C2, Y1.
  apply sum_ext. intros j Hj.
  rewrite Hat1 by assumption. rewrite Hat2 by congruence.
  rewrite Hv1, Hv2. simpl. rewrite Y1. f_equal.
  - apply softmax_vec_ext; [ | exact Hi ].
    intros i' Hi'. unfold masked_column. rewrite (Hmask j Hj).
    rewrite (scaled_scores_same h x y b i' j Hh Hxy Hi' Hj). reflexivity.
  - destruct Hh as (_ & _ & (V1 & _) & _).
    apply (projected_same (SelfAttention.value h) x y b j c V1).
    intros c' Hc'. apply Hxy; assumption.
Qed.

(** X23.  Only the zeros of the mask count: two masks with zeros at the
    same places give, in a self-attention call, outputs of the same shape
    with the same elements, whatever the other values of the masks. *)
Theorem mask_values_only_matter_through_zero :
  forall (h : SelfAttention.t) (x : tensor3) (m1 m2 : tensor2) (g : Rng),
    head_accepts h x x x ->
    rows m1 = dim0 x -> cols m1 = dim1 x -> rows m2 = dim0 x -> cols m2 = dim1 x ->
    (forall b j, b < dim0 x -> j < dim1 x ->
       eq0 (at2 m1 b j) = eq0 (at2 m2 b j)) ->
    exists out1 out2 w1 w2,
      SelfAttention.forward x x x (Some m1) {| obj := h; gen := g |} = (Ok out1, w1) /\
      SelfAttention.forward x x x (Some m2) {| obj := h; gen := g |} = (Ok out2, w2) /\
      has_shape out2 (dim0 out1) (dim1 out1) (dim2 out1) /\
      forall b i c, b < dim0 x -> i < dim1 x ->
        at3 out1 b i c = at3 out2 b i c.
Proof.
  intros h x m1 m2 g Hh Hr1 Hc1 Hr2 Hc2 Hsame.
  destruct (SelfAttention_forward_same_on h x x m1 m2 g Hh ltac:(repeat split)
              Hr1 Hc1 Hr2 Hc2) as (out1 & out2 & w1 & w2 & E1 & E2 & Hs & H).
  exists out1, out2, w1, w2. repeat split; try assumption; try apply Hs.
  intros b i c Hb Hi. apply (H b Hb); [ reflexivity | | exact Hi ].
  intros j Hj. apply Hsame; assumption.
Qed.

Lemma example_masks_same_zeros b j :
  b < 1 -> j < 2 ->
  eq0 (at2 (Example.mask_of [1; 1]%R) b j) = eq0 (at2 (Example.mask_of [2; -1]%R) b j).
Proof.
  intros _ Hj.
  destruct j as [| [| j]]; [ | | lia ]; simpl; unfold eq0;
    repeat match goal with
           | |- context [Req_dec_T ?a ?b] => destruct (Req_dec_T a b); try lra
           end; reflexivity.
Qed.

(** a mask of ones and a mask of other non-zero values *)
Lemma mask_values_only_matter_through_zero_witness :
  exists out1 out2 w1 w2,
    SelfAttention.forward (Example.seq_of_ones 2) (Example.seq_of_ones 2)
      (Example.seq_of_ones 2) (Some (Example.mask_of [1; 1]%R))
      {| obj := Example.head; gen := Example.gen0 |} = (Ok out1, w1) /\
    SelfAttention.forward (Example.seq_of_ones 2) (Example.seq_of_ones 2)
      (Example.seq_of_ones 2) (Some (Example.mask_of [2; -1]%R))
      {| obj := Example.head; gen := Example.gen0 |} = (Ok out2, w2) /\
    has_shape out2 (dim0 out1) (dim1 out1) (dim2 out1) /\
    forall b i c, b < 1 -> i < 2 -> at3 out1 b i c = at3 out2 b i c.
Proof.
  apply (mask_values_only_matter_through_zero Example.head (Example.seq_of_ones 2)
           (Example.mask_of [1; 1]%R) (Example.mask_of [2; -1]%R) Example.gen0).
  - apply example_head_accepts.
  - reflexivity.
  - reflexivity.
  - reflexivity.
  - reflexivity.
  - apply example_masks_same_zeros.
Defined.

(** X24.  The output of a head for one batch element depends on that
    element only: two self-attention calls on inputs of the same shape that
    agree on batch element [b], with masks whose rows [b] have their zeros
    at the same places, return outputs that agree on [b], whatever the other
    batch elements and the other rows of the masks hold. *)
Theorem head_output_depends_on_own_batch_element_only :
  forall (h : SelfAttention.t) (x y : tensor3) (mx my : tensor2) (g : Rng) (b : nat),
    head_accepts h x x x -> has_shape y (dim0 x) (dim1 x) (dim2 x) ->
    rows mx = dim0 x -> cols mx = dim1 x -> rows my = dim0 x -> cols my = dim1 x ->
    b < dim0 x ->
    (forall i c, i < dim1 x -> c < dim2 x -> at3 x b i c = at3 y b i c) ->
    (forall j, j < dim1 x -> eq0 (at2 mx b j) = eq0 (at2 my b j)) ->
    exists out1 out2 w1 w2,
      SelfAttention.forward x x x (Some mx) {| obj := h; gen := g |} = (Ok out1, w1) /\
      SelfAttention.forward y y y (Some my) {| obj := h; gen := g |} = (Ok out2, w2) /\
      forall i c, i < dim1 x -> at3 out1 b i c = at3 out2 b i c.
Proof.
  intros h x y mx my g b Hh Hy Hr1 Hc1 Hr2 Hc2 Hb Hxy Hmask.
  destruct (SelfAttention_forward_same_on h x y mx my g Hh Hy Hr1 Hc1 Hr2 Hc2)
    as (out1 & out2 & w1 & w2 & E1 & E2 & _ & H).
  exists out1, out2, w1, w2. repeat split; try assumption.
  apply (H b Hb Hxy Hmask).
Qed.

(** two batches of two sequences that share the first one *)
Lemma head_output_depends_on_own_batch_element_only_witness :
  exists out1 out2 w1 w2,
    SelfAttention.forward (mk3 2 2 1 (fun b _ _ => if b =? 0 then Fin 1 else Fin 5))
      (mk3 2 2 1 (fun b _ _ => if b =? 0 then Fin 1 else Fin 5))
      (mk3 2 2 1 (fun b _ _ => if b =? 0 then Fin 1 else Fin 5))
      (Some (mk2 2 2 (fun _ _ => one)))
      {| obj := Example.head; gen := Example.gen0 |} = (Ok out1, w1) /\
    SelfAttention.forward (mk3 2 2 1 (fun _ _ _ => Fin 1))
      (mk3 2 2 1 (fun _ _ _ => Fin 1)) (mk3 2 2 1 (fun _ _ _ => Fin 1))
      (Some (mk2 2 2 (fun b _ => if b =? 0 then one else zero)))
      {| obj := Example.head; gen := Example.gen0 |} = (Ok out2, w2) /\
    forall i c, i < 2 -> at3 out1 0 i c = at3 out2 0 i c.
Proof.
  apply (head_output_depends_on_own_batch_element_only Example.head
           (mk3 2 2 1 (fun b _ _ => if b =? 0 then Fin 1 else Fin 5))
           (mk3 2 2 1 (fun _ _ _ => Fin 1))
           (mk2 2 2 (fun _ _ => one))
           (mk2 2 2 (fun b _ => if b =? 0 then one else zero)) Example.gen0 0).
  - repeat split.
  - repeat split.
  - reflexivity.
  - reflexivity.
  - reflexivity.
  - reflexivity.
  - simpl. lia.
  - intros i c _ _. reflexivity.
  - intros j _. reflexivity.
Defined.
